(** * nano-fb-gc-bot: the group record store, the property updater, the
    group info refresher, the score ledger and event creation of
    [src/utils.js], embedded in Rocq.

    The JavaScript is callback based.  The embedding keeps that shape: a
    module function takes its callback as a continuation, a request to the
    key-value store or to the chat provider is a primitive whose reply is
    chosen by an environment, and [setTimeout] queues a timer that a later
    [tick] fires.

    What the model fixes:
    - a reply is delivered as soon as the request is made, so the callback
      chains of one operation run one after the other; timers are the only
      code that waits.  Where the code makes a request while another is
      still unanswered, the order of the events can be another one than the
      model's; what is stated of such a run does not depend on that order;
    - an exception thrown in a callback is lost (the event loop reports it),
      it does not reach the code that made the request;
    - a record handed to [setGroupProperty] is an object held by reference:
      the timer sees the record as it is when it fires;
    - thread ids and user ids are strings; numbers are integers; the
      lower-casing of first names is that of the ASCII letters, while the
      normalization of an event's title is left to the engine. *)

From stdpp Require Import base decidable option list strings gmap.
From Stdlib Require Import ZArith NArith Ascii String List Lia.
Import ListNotations.

Set Warnings "-register-all".

Local Open Scope string_scope.
Local Open Scope Z_scope.

(** ** JavaScript values *)

(** The values a group record is made of.  A number is an integer (the
    records hold ids, flags and epoch milliseconds); an object is its list of
    own properties in insertion order, which is the order [Object.keys],
    [for .. in] and [JSON.stringify] follow for keys that are not array
    indices. *)
Inductive Val : Type :=
| VUndef
| VNull
| VBool (b : bool)
| VNum (n : Z)
| VStr (s : string)
| VArr (items : list Val)
| VObj (props : list (string * Val)).

Abbreviation Obj := (list (string * Val)).

Fixpoint val_eqb (a b : Val) {struct a} : bool :=
  match a, b with
  | VUndef, VUndef => true
  | VNull, VNull => true
  | VBool x, VBool y => Bool.eqb x y
  | VNum x, VNum y => Z.eqb x y
  | VStr x, VStr y => String.eqb x y
  | VArr xs, VArr ys =>
      (fix go (xs ys : list Val) {struct xs} : bool :=
         match xs, ys with
         | [], [] => true
         | x :: xs', y :: ys' => val_eqb x y && go xs' ys'
         | _, _ => false
         end) xs ys
  | VObj xs, VObj ys =>
      (fix go (xs ys : Obj) {struct xs} : bool :=
         match xs, ys with
         | [], [] => true
         | (k, x) :: xs', (k', y) :: ys' =>
             String.eqb k k' && val_eqb x y && go xs' ys'
         | _, _ => false
         end) xs ys
  | _, _ => false
  end.

(** [if (v)]: what JavaScript takes for true. *)
Definition truthy (v : Val) : bool :=
  match v with
  | VUndef | VNull => false
  | VBool b => b
  | VNum n => negb (n =? 0)
  | VStr s => negb (String.eqb s EmptyString)
  | VArr _ | VObj _ => true
  end.

(** ** Objects *)

(** [o.hasOwnProperty(k)] with its value. *)
Fixpoint obj_get (k : string) (o : Obj) : option Val :=
  match o with
  | [] => None
  | (k', v) :: o' => if String.eqb k k' then Some v else obj_get k o'
  end.

(** [o[k]]: [undefined] when the property is missing. *)
Definition obj_read (k : string) (o : Obj) : Val :=
  default VUndef (obj_get k o).

(** [o[k] = v]: an existing property keeps its place, a new one goes last. *)
Fixpoint obj_set (k : string) (v : Val) (o : Obj) : Obj :=
  match o with
  | [] => [(k, v)]
  | (k', v') :: o' =>
      if String.eqb k k' then (k', v) :: o' else (k', v') :: obj_set k v o'
  end.

(** [delete o[k]]. *)
Fixpoint obj_delete (k : string) (o : Obj) : Obj :=
  match o with
  | [] => []
  | (k', v') :: o' =>
      if String.eqb k k' then obj_delete k o' else (k', v') :: obj_delete k o'
  end.

(** [Object.keys(o)]. *)
Definition obj_keys (o : Obj) : list string := map fst o.

(** [Object.keys(o).map(k => o[k])]. *)
Definition obj_values (o : Obj) : list Val :=
  map (fun k => obj_read k o) (obj_keys o).

(** The names every object inherits: [o[k]] is a function for them unless
    [o] has a property of its own under [k]. *)
Definition inherited (k : string) : bool :=
  existsb (String.eqb k)
    ["constructor"; "hasOwnProperty"; "isPrototypeOf"; "propertyIsEnumerable";
     "toLocaleString"; "toString"; "valueOf"; "__proto__"; "__defineGetter__";
     "__defineSetter__"; "__lookupGetter__"; "__lookupSetter__"].

(** [if (o[k])]. *)
Definition has_truthy (k : string) (o : Obj) : bool :=
  match obj_get k o with
  | Some v => truthy v
  | None => inherited k
  end.

(** ** Strings and numbers *)

Definition lower_ascii (c : ascii) : ascii :=
  let n := nat_of_ascii c in
  if (65 <=? n)%nat && (n <=? 90)%nat then ascii_of_nat (n + 32) else c.

(** [s.toLowerCase()], on the ASCII letters. *)
Fixpoint toLowerCase (s : string) : string :=
  match s with
  | EmptyString => EmptyString
  | String c s' => String (lower_ascii c) (toLowerCase s')
  end.

(** The white space [trim] and [parseInt] skip: tab, line feed, vertical tab,
    form feed, carriage return and space. *)
Definition is_space (c : ascii) : bool :=
  let n := nat_of_ascii c in
  ((9 <=? n)%nat && (n <=? 13)%nat) || (n =? 32)%nat.

Fixpoint trimStart (s : string) : string :=
  match s with
  | EmptyString => EmptyString
  | String c s' => if is_space c then trimStart s' else s
  end.

Fixpoint trimEnd (s : string) : string :=
  match s with
  | EmptyString => EmptyString
  | String c s' =>
      match trimEnd s' with
      | EmptyString => if is_space c then EmptyString else String c EmptyString
      | t => String c t
      end
  end.

(** [s.trim()]. *)
Definition trim (s : string) : string := trimEnd (trimStart s).

(** A JavaScript number as the score ledger meets it: an integer, or the
    [NaN] that [parseInt] gives for text with no digits. *)
Inductive Num : Type :=
| NaN
| Int (z : Z).

Definition digit_of (c : ascii) : option Z :=
  let n := nat_of_ascii c in
  if (48 <=? n)%nat && (n <=? 57)%nat then Some (Z.of_nat (n - 48)) else None.

Definition hex_digit_of (c : ascii) : option Z :=
  let n := nat_of_ascii c in
  if (48 <=? n)%nat && (n <=? 57)%nat then Some (Z.of_nat (n - 48))
  else if (97 <=? n)%nat && (n <=? 102)%nat then Some (Z.of_nat (n - 87))
  else if (65 <=? n)%nat && (n <=? 70)%nat then Some (Z.of_nat (n - 55))
  else None.

(** The longest prefix of digits, read in the given radix; [None] when the
    text does not start with a digit. *)
Fixpoint read_digits (digit : ascii -> option Z) (radix : Z)
    (acc : option Z) (s : string) : option Z :=
  match s with
  | EmptyString => acc
  | String c s' =>
      match digit c with
      | Some d => read_digits digit radix (Some (default 0 acc * radix + d)) s'
      | None => acc
      end
  end.

Definition read_unsigned (s : string) : option Z :=
  match s with
  | String "0" (String "x" s') | String "0" (String "X" s') =>
      read_digits hex_digit_of 16 None s'
  | _ => read_digits digit_of 10 None s
  end.

(** [parseInt(s)] with no radix argument. *)
Definition parseInt (s : string) : Num :=
  match trimStart s with
  | String "-" s' =>
      match read_unsigned s' with Some n => Int (- n) | None => NaN end
  | String "+" s' =>
      match read_unsigned s' with Some n => Int n | None => NaN end
  | s' => match read_unsigned s' with Some n => Int n | None => NaN end
  end.

Definition digit_char (d : N) : ascii := ascii_of_N (48 + d).

Fixpoint digits_fuel (fuel : nat) (n : N) (acc : string) : string :=
  match fuel with
  | O => acc
  | S fuel' =>
      let acc' := String (digit_char (n mod 10)) acc in
      if (n <? 10)%N then acc' else digits_fuel fuel' (n / 10) acc'
  end.

(** Decimal digits of a natural number. *)
Definition N_to_string (n : N) : string :=
  digits_fuel (S (N.to_nat (N.log2 n))) n EmptyString.

Definition Z_to_string (z : Z) : string :=
  match z with
  | Z0 => "0"
  | Zpos p => N_to_string (Npos p)
  | Zneg p => String "-" (N_to_string (Npos p))
  end.

(** [n] in decimal, with zeros in front up to [width] digits; [n] is not
    negative. *)
Definition pad (width : nat) (n : Z) : string :=
  let digits := Z_to_string n in
  (fix zeros (k : nat) : string :=
     match k with
     | O => digits
     | S k' => String "0" (zeros k')
     end) (width - String.length digits)%nat.

(** What [JSON.stringify] stores for a Date, its [toISOString]: the date of
    the proleptic Gregorian calendar and the time of day in UTC, for epoch
    milliseconds in the range of Date.  A year outside 0..9999 is written
    with a sign and six digits. *)
Definition date_json (ms : Z) : string :=
  let days := ms / 86400000 in
  let rest := ms mod 86400000 in
  let z := days + 719468 in
  let era := z / 146097 in
  let doe := z mod 146097 in
  let yoe := (doe - doe / 1460 + doe / 36524 - doe / 146096) / 365 in
  let doy := doe - (365 * yoe + yoe / 4 - yoe / 100) in
  let mp := (5 * doy + 2) / 153 in
  let d := doy - (153 * mp + 2) / 5 + 1 in
  let m := if mp <? 10 then mp + 3 else mp - 9 in
  let y := yoe + era * 400 + (if m <=? 2 then 1 else 0) in
  (if (0 <=? y) && (y <=? 9999) then pad 4 y
   else (if y <? 0 then "-" else "+") ++ pad 6 (Z.abs y))
  ++ "-" ++ pad 2 m ++ "-" ++ pad 2 d
  ++ "T" ++ pad 2 (rest / 3600000)
  ++ ":" ++ pad 2 ((rest / 60000) mod 60)
  ++ ":" ++ pad 2 ((rest / 1000) mod 60)
  ++ "." ++ pad 3 (rest mod 1000) ++ "Z".

(** [`${n}`]. *)
Definition num_to_string (n : Num) : string :=
  match n with
  | NaN => "NaN"
  | Int z => Z_to_string z
  end.

Definition num_add (a b : Num) : Num :=
  match a, b with
  | Int x, Int y => Int (x + y)
  | _, _ => NaN
  end.

Definition num_sub (a b : Num) : Num :=
  match a, b with
  | Int x, Int y => Int (x - y)
  | _, _ => NaN
  end.

(** [String(v)], which is also how a value becomes a property key. *)
Fixpoint js_to_string (v : Val) : string :=
  match v with
  | VUndef => "undefined"
  | VNull => "null"
  | VBool true => "true"
  | VBool false => "false"
  | VNum n => Z_to_string n
  | VStr s => s
  | VArr items =>
      (fix join (l : list Val) : string :=
         match l with
         | [] => EmptyString
         | [x] => match x with VUndef | VNull => EmptyString | _ => js_to_string x end
         | x :: l' =>
             (match x with VUndef | VNull => EmptyString | _ => js_to_string x end)
               ++ "," ++ join l'
         end) items
  | VObj _ => "[object Object]"
  end.


(** What [JSON.parse (JSON.stringify v)] gives back: a property whose value
    is [undefined] is dropped, an [undefined] array item becomes [null]. *)
Fixpoint json_clean (v : Val) : Val :=
  match v with
  | VArr items =>
      VArr (map (fun x => match x with VUndef => VNull | _ => json_clean x end) items)
  | VObj props =>
      VObj ((fix go (l : Obj) : Obj :=
               match l with
               | [] => []
               | (k, x) :: l' =>
                   match x with
                   | VUndef => go l'
                   | _ => (k, json_clean x) :: go l'
                   end
               end) props)
  | _ => v
  end.

Definition json_clean_obj (o : Obj) : Obj :=
  match json_clean (VObj o) with
  | VObj o' => o'
  | _ => o
  end.

(** ** Maps keyed by strings *)

(** The group map (thread id to record) is a JavaScript object as well; its
    values are records, so the same operations are written once for any type
    of values.  [obj_get] and [obj_set] above are their instances at [Val]. *)
Fixpoint assoc_get {A} (k : string) (m : list (string * A)) : option A :=
  match m with
  | [] => None
  | (k', v) :: m' => if String.eqb k k' then Some v else assoc_get k m'
  end.

Fixpoint assoc_set {A} (k : string) (v : A) (m : list (string * A))
    : list (string * A) :=
  match m with
  | [] => [(k, v)]
  | (k', v') :: m' =>
      if String.eqb k k' then (k', v) :: m' else (k', v') :: assoc_set k v m'
  end.

Abbreviation GroupData := (list (string * Obj)).

(** A field the code uses as a map ([events], [aliases], [pinned]) holds an
    object or is missing; reading a property of [undefined] is a TypeError. *)
Definition as_obj (v : Val) : option Obj :=
  match v with
  | VObj o => Some o
  | _ => None
  end.

(** ** Configuration, the store and the provider *)

Definition Err := string.

(** The fields of [config.js] that the modelled functions read.  The file is
    not part of the sources at hand, so its values are parameters. *)
Record Config : Type := {
  bot_id : string;                (* config.bot.id *)
  bot_names_long : string;        (* config.bot.names.long *)
  bot_names_short : option string; (* config.bot.names.short *)
  owner_id : string;              (* config.owner.id *)
  dbFailSilently : bool;
  defaultTitle : string;
  trigger : string;
  votePoints : option Z;          (* a number, or not set *)
  reminderTime : Z                (* minutes *)
}.

(** What memcached holds under a key.  [Text] is a plain string (a score);
    [Groups g] stands for the JSON text of the group map [g], which is what
    [setGroupInfo] writes under the key [groups] and what [JSON.parse] reads
    back from it. *)
Inductive Blob : Type :=
| Text (s : string)
| Groups (g : GroupData).

(** [api.getThreadInfo]'s data. *)
Record ThreadData : Type := {
  threadName : option string;
  emoji : Val;
  imageSrc : Val;
  color : option string;
  nicknames : option Obj;
  adminIDs : option (list Obj);
  participantIDs : list string;
  isGroup : bool
}.

Record UserInfo : Type := { firstName : string }.

(** [api.sendMessage] either throws (no api at hand, the debug mode of the
    source) or calls back with [(err, minfo)]; [minfo] is reduced to its
    [messageID]. *)
Inductive SendReply : Type :=
| SendThrows
| SendDone (err : option Err) (messageID : option string).

(** The environment answers the requests.  Requests are numbered in the order
    they are made, and a reply may depend on that number, so every sequence of
    failures and answers is some environment.  The last four fields are the
    pure helpers of other modules: [utils.getRegexFromMembers],
    [chrono.parseDate], [toLocaleString] and the clock. *)
Record Env : Type := {
  kv_get_error : nat -> option Err;
  kv_set_error : nat -> option Err;
  send_reply : nat -> SendReply;
  thread_reply : nat -> option Err * option ThreadData;
  user_reply : nat -> option Err * list (string * UserInfo);
  getRegexFromMembers : list Val -> Val;
  parseDate : string -> Z -> option Z;
  getPrettyDateString : Z -> string;
  clock : nat -> Z
}.

(** A callback handed in by a caller of the module: the default [() => {}],
    or a function of the caller, of which only the calls are observed. *)
Inductive Callback : Type :=
| CbDefault
| CbUser (id : nat).

Inductive Arg : Type :=
| ArgNull
| ArgError (e : Err)
| ArgInfo (info : Obj)
| ArgBool (b : bool)
| ArgNum (n : Num)
| ArgMessageID (mid : string).

Definition arg_err (e : option Err) : Arg :=
  match e with
  | Some e => ArgError e
  | None => ArgNull
  end.

Inductive LogItem : Type :=
| LogText (s : string)
| LogError (e : option Err).

(** What a run does that can be seen from outside. *)
Inductive Event : Type :=
| EvMemGet (key : string)
| EvMemSet (key : string) (value : Blob)
| EvSendMessage (m : string) (threadId : string) (replyId : option string)
| EvChangeNickname (nick : option string) (threadId : string) (userId : string)
| EvMuteThread (threadId : string) (seconds : Z)
| EvGetThreadInfo (threadId : string)
| EvGetUserInfo (ids : list string)
| EvLog (item : LogItem)
| EvCallback (id : nat) (args : list Arg)
| EvUncaught (e : string).

(** A pending [setTimeout] of [setGroupProperty]: the record it closes over,
    by reference, and the caller's callback. *)
Record Timer : Type := {
  t_info : nat;
  t_callback : Callback
}.

(** The state of the process and of the store. *)
Record World : Type := {
  kv : gmap string Blob;        (* memcached *)
  lockedThreads : list Val;     (* let lockedThreads = [] *)
  heap : gmap nat Obj;          (* records held by reference *)
  timers : list Timer;          (* pending timeouts, oldest first *)
  requests : nat                (* requests answered so far *)
}.

Definition set_kv (f : gmap string Blob -> gmap string Blob) (w : World) : World :=
  {| kv := f (kv w); lockedThreads := lockedThreads w; heap := heap w;
     timers := timers w; requests := requests w |}.

Definition set_lockedThreads (f : list Val -> list Val) (w : World) : World :=
  {| kv := kv w; lockedThreads := f (lockedThreads w); heap := heap w;
     timers := timers w; requests := requests w |}.

Definition set_heap (f : gmap nat Obj -> gmap nat Obj) (w : World) : World :=
  {| kv := kv w; lockedThreads := lockedThreads w; heap := f (heap w);
     timers := timers w; requests := requests w |}.

Definition set_timers (f : list Timer -> list Timer) (w : World) : World :=
  {| kv := kv w; lockedThreads := lockedThreads w; heap := heap w;
     timers := f (timers w); requests := requests w |}.

Definition bump (w : World) : World :=
  {| kv := kv w; lockedThreads := lockedThreads w; heap := heap w;
     timers := timers w; requests := S (requests w) |}.

(** The record behind a reference. *)
Definition deref (w : World) (l : nat) : Obj := default [] (heap w !! l).

(** ** Runs *)

(** The outcome of running a piece of code: an exception if one escaped, the
    state it leaves and what it did. *)
Record Out : Type := {
  thrown : option string;
  world : World;
  events : list Event
}.

Definition Proc := World -> Out.

Definition skip : Proc :=
  fun w => {| thrown := None; world := w; events := [] |}.

Definition throw (e : string) : Proc :=
  fun w => {| thrown := Some e; world := w; events := [] |}.

Definition emit (ev : Event) : Proc :=
  fun w => {| thrown := None; world := w; events := [ev] |}.

Definition modify (f : World -> World) : Proc :=
  fun w => {| thrown := None; world := f w; events := [] |}.

Definition out_app (evs : list Event) (o : Out) : Out :=
  {| thrown := thrown o; world := world o; events := evs ++ events o |}.

Definition bind_out (o : Out) (q : Proc) : Out :=
  match thrown o with
  | Some _ => o
  | None => out_app (events o) (q (world o))
  end.

(** [p; q]: an exception in [p] skips [q]. *)
Definition seq (p q : Proc) : Proc := fun w => bind_out (p w) q.

Declare Scope proc_scope.
Delimit Scope proc_scope with proc.
Bind Scope proc_scope with Proc.
Notation "p ;; q" := (seq p%proc q%proc)
  (at level 100, q at level 200, right associativity) : proc_scope.
Local Open Scope proc_scope.

Definition catch_out (o : Out) : Out :=
  match thrown o with
  | Some e =>
      {| thrown := None; world := world o;
         events := events o ++ [EvUncaught e] |}
  | None => o
  end.

(** A callback run by the event loop: an exception in it reaches nobody. *)
Definition deliver (p : Proc) : Proc := fun w => catch_out (p w).

(** A request: it is logged and numbered, and the callback is run with the
    reply.  The reply is delivered before anything else runs. *)
Definition request {A} (ev : Event) (reply : World -> A) (k : A -> Proc) : Proc :=
  fun w => out_app [ev] (deliver (k (reply w)) (bump w)).

Definition invoke (cb : Callback) (args : list Arg) : Proc :=
  match cb with
  | CbDefault => skip
  | CbUser id => emit (EvCallback id args)
  end.

Arguments out_app evs !o /.
Arguments bind_out !o q /.
Arguments catch_out !o /.

Definition console_log (item : LogItem) : Proc := emit (EvLog item).

(** A callback of the caller that is only watched: each call is an event. *)
Definition observe (id : nat) (args : list Arg) : Proc :=
  emit (EvCallback id args).

Definition observe_err (id : nat) (err : option Err) : Proc :=
  observe id [arg_err err].

Definition observe_info (id : nat) (err : option Err) (info : option Obj) : Proc :=
  observe id (arg_err err :: match info with Some i => [ArgInfo i] | None => [] end).

(** A fresh object, held by reference from now on. *)
Definition alloc (o : Obj) (k : nat -> Proc) : Proc :=
  fun w =>
    let l := fresh (dom (heap w)) in
    k l (set_heap (insert l o) w).

(** The double quote, for the texts that quote a name. *)
Definition dq : string := String (ascii_of_nat 34) EmptyString.

Definition nl : string := String (ascii_of_nat 10) EmptyString.

(** [items.join(sep)]. *)
Fixpoint join (sep : string) (items : list string) : string :=
  match items with
  | [] => EmptyString
  | [x] => x
  | x :: rest => x ++ sep ++ join sep rest
  end.

Definition array_join (sep : string) (items : list Val) : string :=
  join sep
    (map (fun x => match x with VUndef | VNull => EmptyString | _ => js_to_string x end)
       items).

(** [l.includes(x)] and [l.filter(t => t != x)] on the lock list.  Thread ids
    are strings, and on strings both comparisons are equality. *)
Definition includes (x : Val) (l : list Val) : bool := existsb (val_eqb x) l.

Definition without (x : Val) (l : list Val) : list Val :=
  filter (fun t => negb (val_eqb t x)) l.

(** What [parseInt(val.toString())] reads from a stored value; the JSON text
    of a group map starts with a brace. *)
Definition blob_parseInt (b : Blob) : Num :=
  match b with
  | Text s => parseInt s
  | Groups _ => NaN
  end.

(** [JSON.stringify(groupData)] as the store keeps it. *)
Definition JSON_stringify (g : GroupData) : Blob :=
  Groups (map (fun kr => (fst kr, json_clean_obj (snd kr))) g).

(** ** The module *)

Section Bot.

Variable config : Config.
Variable env : Env.

(** *** The requests *)

(** [mem.get(key, (err, val) => ..)] *)
Definition mem_get (key : string) (k : option Err -> option Blob -> Proc) : Proc :=
  request (EvMemGet key)
    (fun w =>
       match kv_get_error env (requests w) with
       | Some e => (Some e, None)
       | None => (None, kv w !! key)
       end)
    (fun r => k (fst r) (snd r)).

(** [mem.set(key, value, {}, (err, success) => ..)] *)
Definition mem_set (key : string) (value : Blob) (k : option Err -> bool -> Proc) : Proc :=
  request (EvMemSet key value)
    (fun w => kv_set_error env (requests w))
    (fun err =>
       match err with
       | Some e => k (Some e) false
       | None => modify (set_kv (insert key value)) ;; k None true
       end).

(** [api.sendMessage(m, threadId, (err, minfo) => .., replyId)] inside
    [try .. catch]. *)
Definition api_sendMessage (m threadId : string) (replyId : option string)
    (k : option Err -> option string -> Proc) (catch : Proc) : Proc :=
  fun w =>
    match send_reply env (requests w) with
    | SendThrows =>
        out_app [EvSendMessage m threadId replyId] (catch (bump w))
    | SendDone err minfo =>
        request (EvSendMessage m threadId replyId) (fun _ => tt)
          (fun _ => k err minfo) w
    end.

Definition api_getThreadInfo (threadId : string)
    (k : option Err -> option ThreadData -> Proc) : Proc :=
  request (EvGetThreadInfo threadId)
    (fun w => thread_reply env (requests w))
    (fun r => k (fst r) (snd r)).

Definition api_getUserInfo (ids : list string)
    (k : option Err -> list (string * UserInfo) -> Proc) : Proc :=
  request (EvGetUserInfo ids)
    (fun w => user_reply env (requests w))
    (fun r => k (fst r) (snd r)).

(** [new Date()], in epoch milliseconds. *)
Definition now (k : Z -> Proc) : Proc :=
  fun w => k (clock env (requests w)) w.

(** The record a reference stands for, as it is at this point. *)
Definition with_info (l : nat) (k : Obj -> Proc) : Proc :=
  fun w => k (deref w l) w.

(** *** The group record store *)

(** [(groups && groups.length) ? JSON.parse(groups) : {}]; [None] is the
    SyntaxError of [JSON.parse] on text that is not the JSON of a group map. *)
Definition parse_groups (groups : option Blob) : option GroupData :=
  match groups with
  | Some (Groups g) => Some g
  | Some (Text s) => if String.eqb s EmptyString then Some [] else None
  | None => Some []
  end.

Definition getGroupData (callback : option Err -> option GroupData -> Proc) : Proc :=
  mem_get "groups" (fun err groups =>
    match err with
    | Some e => callback (Some e) None
    | None =>
        match parse_groups groups with
        | Some groupData => callback None (Some groupData)
        | None => throw "SyntaxError"
        end
    end).

Definition getGroupInfo (threadId : string)
    (callback : option Err -> option Obj -> Proc) : Proc :=
  getGroupData (fun err groupData =>
    match err, groupData with
    | Some e, _ => callback (Some e) None
    | None, Some groupData =>
        match assoc_get threadId groupData with
        | Some group => callback None (Some group)
        | None => callback None None
        end
    | None, None => throw "TypeError"
    end).

Definition setGroupInfo (info : Obj) (callback : option Err -> Proc) : Proc :=
  getGroupData (fun err groupData =>
    match err, groupData with
    | None, Some groupData =>
        let groupData := assoc_set (js_to_string (obj_read "threadId" info)) info groupData in
        mem_set "groups" (JSON_stringify groupData) (fun err success =>
          callback (if success then None else err))
    | None, None => throw "TypeError"
    | Some _, _ => skip
    end).

(** *** The group property updater *)

Definition setGroupProperty (key : string) (value : Val) (info : nat)
    (callback : Callback) : Proc :=
  with_info info (fun o =>
  fun w =>
    if negb (includes (obj_read "threadId" o) (lockedThreads w)) then
      (modify (set_heap (insert info (obj_set key value o))) ;;
       with_info info (fun o =>
         modify (set_lockedThreads (fun l => (l ++ [obj_read "threadId" o])%list))) ;;
       modify (set_timers (fun ts =>
         (ts ++ [{| t_info := info; t_callback := callback |}])%list))) w
    else skip w).

(** The body of the timeout of [setGroupProperty], run 1500 ms later. *)
Definition fire (t : Timer) : Proc :=
  with_info (t_info t) (fun o =>
  setGroupInfo o (fun err =>
    with_info (t_info t) (fun o =>
      modify (set_lockedThreads (without (obj_read "threadId" o)))) ;;
    invoke (t_callback t) [arg_err err])).

(** The oldest pending timeout fires. *)
Definition tick : Proc :=
  fun w =>
    match timers w with
    | [] => skip w
    | t :: ts => deliver (fire t) (set_timers (fun _ => ts) w)
    end.

(** *** Sending *)

Definition sendMessage (m threadId : string)
    (callback : option Err -> option string -> Proc) (replyId : option string) : Proc :=
  if String.eqb m EmptyString || String.eqb threadId EmptyString then
    callback (Some "Must provide message and threadId.") None
  else
    api_sendMessage m threadId replyId
      (fun err minfo =>
         callback err minfo ;;
         getGroupInfo threadId (fun err info =>
           match minfo, info with
           | Some messageID, Some info =>
               match err with
               | Some e => console_log (LogError (Some e))
               | None =>
                   alloc info (fun l =>
                     setGroupProperty "lastBotMessageID" (VStr messageID) l CbDefault)
               end
           | _, _ => skip
           end))
      (console_log (LogText (threadId ++ ": " ++ m)) ;; callback None None).

Definition sendError (m threadId : string) : Proc :=
  sendMessage ("Error: " ++ m) threadId (fun _ _ => skip) None.

(** *** The score ledger *)

Definition setScore (userId score : string) (callback : option Err -> bool -> Proc) : Proc :=
  mem_set ("userscore_" ++ userId) (Text score) callback.

Definition getScore (userId : string) (callback : option Err -> option Blob -> Proc) : Proc :=
  mem_get ("userscore_" ++ userId) callback.

(** [config.votePoints || 5] *)
Definition vote_points : Z :=
  match votePoints config with
  | Some p => if p =? 0 then 5 else p
  | None => 5
  end.

(** [val ? parseInt(val.toString()) : 0] *)
Definition current_score (val : option Blob) : Num :=
  match val with
  | Some b => blob_parseInt b
  | None => Int 0
  end.

Definition updateScore (isAdd : bool) (userId : string)
    (callback : list Arg -> Proc) : Proc :=
  getScore userId (fun err val =>
    (match err with
     | Some e => callback [ArgError e]
     | None => skip
     end) ;;
    let score := current_score val in
    let points := vote_points in
    let newScore :=
      if isAdd then num_add score (Int points) else num_sub score (Int points) in
    setScore userId (num_to_string newScore) (fun err success =>
      callback [arg_err err; ArgBool success; ArgNum newScore])).

(** *** The group info refresher *)

(** One turn of the [for (let id in userData)] loop. *)
Definition add_member (acc : Obj * Obj) (entry : string * UserInfo) : Obj * Obj :=
  let id := fst entry in
  if negb (String.eqb id (bot_id config)) then
    (obj_set (toLowerCase (firstName (snd entry))) (VStr id) (fst acc),
     obj_set id (VStr (firstName (snd entry))) (snd acc))
  else acc.

Definition greeting : string :=
  "Hello! I'm " ++ bot_names_long config
  ++ match bot_names_short config with
     | Some short =>
         if String.eqb short EmptyString then EmptyString
         else ", but you can call me " ++ short
     | None => EmptyString
     end
  ++ ". Give me a moment to collect some information about this chat before you use any commands.".

(** The assignments made from the thread data, up to the call of
    [api.getUserInfo]. *)
Definition merge_thread_data (threadId : string) (message : Val)
    (existingInfo : option Obj) (data : ThreadData) : Obj :=
  let info := default [] existingInfo in
  let info := obj_set "threadId" (VStr threadId) info in
  let info := obj_set "lastMessage" message info in
  let info :=
    obj_set "name"
      (VStr match threadName data with
            | Some n => if String.eqb n EmptyString then defaultTitle config else n
            | None => defaultTitle config
            end) info in
  let info := obj_set "emoji" (emoji data) info in
  let info := obj_set "image" (imageSrc data) info in
  let info :=
    obj_set "color"
      match color data with
      | Some c => if String.eqb c EmptyString then VNull else VStr ("#" ++ c)
      | None => VNull
      end info in
  let nicks :=
    match nicknames data with
    | Some n =>
        if truthy (obj_read (bot_id config) n) then obj_delete (bot_id config) n
        else n
    | None => []
    end in
  let info := obj_set "nicknames" (VObj nicks) info in
  let info :=
    obj_set "admins"
      (VArr match adminIDs data with
            | Some ids => map (obj_read "id") ids
            | None => []
            end) info in
  match existingInfo with
  | None =>
      let info := obj_set "muted" (VBool true) info in
      let info := obj_set "playlists" (VObj []) info in
      let info := obj_set "aliases" (VObj []) info in
      let info := obj_set "pinned" (VObj []) info in
      let info := obj_set "events" (VObj []) info in
      obj_set "isGroup" (VBool (isGroup data)) info
  | Some _ => info
  end.

(** The body of [if (!err)] in the callback of [api.getUserInfo], up to the
    message to the owner; [None] is the TypeError of [Object.keys] on a
    missing [aliases]. *)
Definition merge_user_data (info : Obj) (userData : list (string * UserInfo))
    : option Obj :=
  let mn := fold_left add_member userData ([], []) in
  let info := obj_set "members" (VObj (fst mn)) info in
  let info := obj_set "names" (VObj (snd mn)) info in
  match as_obj (obj_read "aliases" info) with
  | None => None
  | Some al =>
      let aliases := obj_values al in
      let matches := map VStr (obj_keys (fst mn)) in
      let info :=
        obj_set "userRegExp" (getRegexFromMembers env (matches ++ aliases)%list) info in
      if val_eqb (obj_read "name" info) (VStr (defaultTitle config)) then
        let names := obj_values (snd mn) in
        let joined := array_join "/" names in
        Some (obj_set "name"
                (VStr (if String.eqb joined EmptyString then "Unnamed chat" else joined))
                info)
      else Some info
  end.

Definition updateGroupInfo (threadId : string) (message : Val)
    (callback : option Err -> option Obj -> Proc) : Proc :=
  getGroupInfo threadId (fun err existingInfo =>
  getGroupInfo (owner_id config) (fun ownerErr ownerData =>
    match err, ownerErr with
    | None, None =>
        let shouldSendMessage :=
          negb (dbFailSilently config)
          || match ownerData with Some _ => true | None => false end in
        let isNew := match existingInfo with Some _ => false | None => true end in
        (if isNew then
           (if shouldSendMessage then
              sendMessage greeting threadId (fun _ _ => skip) None ;;
              emit (EvChangeNickname (bot_names_short config) threadId (bot_id config))
            else skip) ;;
           emit (EvMuteThread threadId (-1))
         else skip) ;;
        api_getThreadInfo threadId (fun err data =>
          match data with
          | Some data =>
              let info := merge_thread_data threadId message existingInfo data in
              api_getUserInfo (participantIDs data) (fun err userData =>
                let persist (info : Obj) : Proc :=
                  setGroupInfo info (fun err =>
                    (if isNew && shouldSendMessage then
                       sendMessage
                         ("All done! Use '" ++ trigger config
                          ++ " help' to see what I can do.")
                         threadId (fun _ _ => skip) None
                     else skip) ;;
                    callback err (Some info)) in
                match err with
                | None =>
                    match merge_user_data info userData with
                    | None => throw "TypeError"
                    | Some info =>
                        (if isNew && shouldSendMessage then
                           sendMessage
                             ("Bot added to new chat: " ++ dq
                              ++ js_to_string (obj_read "name" info) ++ dq ++ ".")
                             (owner_id config) (fun _ _ => skip) None
                         else skip) ;;
                        persist info
                    end
                | Some _ => persist info
                end)
          | None =>
              console_log (LogText ("Error: Thread info not found for " ++ threadId)) ;;
              console_log (LogError err) ;;
              callback err None
          end)
    | _, _ =>
        console_log (LogError err) ;;
        callback err None
    end)).

(** *** Events *)

(** [s.trim()] and [s.toLowerCase()] as the engine computes them, on any
    text; [trim] and [toLowerCase] above are what they do on ASCII text. *)
Variable js_trim : string -> string.
Variable js_toLowerCase : string -> string.

(** [title] and [at] are texts.  A Date at hand is its epoch milliseconds; a
    Date put in a record is the text that JSON stores for it. *)
Definition addEvent (title at_ : string) (sender : Val) (groupInfo : nat)
    (threadId : string) : Proc :=
  let keyTitle := js_toLowerCase (js_trim title) in
  with_info groupInfo (fun info =>
  match as_obj (obj_read "events" info) with
  | None => throw "TypeError"
  | Some evs =>
      if has_truthy keyTitle evs then
        sendError
          ("An event already exists called " ++ dq ++ title ++ dq
           ++ ". Please delete it if you wish to make a new one.")
          threadId
      else
        now (fun now =>
        match parseDate env at_ now with
        | Some timestamp =>
            let prettyTime := getPrettyDateString env timestamp in
            let msg :=
              nl ++ "Event " ++ dq ++ title ++ dq ++ " created for " ++ prettyTime
              ++ ". To RSVP, upvote or downvote this message. "
              ++ "To delete this event, use " ++ dq ++ trigger config
              ++ " event delete " ++ title ++ dq
              ++ " (only the owner can do this). "
              ++ nl ++ nl ++ "I'll remind you at the time of the event" in
            let early := timestamp - reminderTime config * 60000 in
            let earlyReminderTime :=
              if early <=? now then VNull else VStr (date_json early) in
            let msg :=
              if early <=? now then msg ++ "."
              else msg ++ ", and " ++ Z_to_string (reminderTime config)
                   ++ " minutes early." in
            sendMessage msg threadId (fun err mid =>
              match err with
              | None =>
                  match mid with
                  | None => throw "TypeError"
                  | Some messageID =>
                      let event :=
                        [("type", VStr "event");
                         ("title", VStr title);
                         ("key_title", VStr keyTitle);
                         ("timestamp", VNum timestamp);
                         ("owner", sender);
                         ("threadId", VStr threadId);
                         ("pretty_time", VStr prettyTime);
                         ("remind_time", earlyReminderTime);
                         ("mid", VStr messageID);
                         ("going", VArr []);
                         ("not_going", VArr [])] in
                      with_info groupInfo (fun info =>
                      match as_obj (obj_read "events" info) with
                      | None => throw "TypeError"
                      | Some evs =>
                          let evs := obj_set keyTitle (VObj event) evs in
                          modify (set_heap
                                    (insert groupInfo (obj_set "events" (VObj evs) info))) ;;
                          setGroupProperty "events" (VObj evs) groupInfo CbDefault
                      end)
                  end
              | Some _ => skip
              end) None
        | None => sendError "Couldn't understand that event's time." threadId
        end)
  end).

End Bot.

(** ** What happens to the lock list over time *)

(** The steps that touch [lockedThreads] and the timers: a call of
    [setGroupProperty], a timeout that fires, and a record that comes into
    being (read from the store, say) and can be passed to later calls. *)
Inductive Action : Type :=
| ActSetProperty (key : string) (value : Val) (info : nat) (callback : Callback)
| ActTick
| ActNewRecord (o : Obj).

Definition act (env : Env) (a : Action) : Proc :=
  match a with
  | ActSetProperty key value info callback => setGroupProperty key value info callback
  | ActTick => tick env
  | ActNewRecord o => alloc o (fun _ => skip)
  end.

Fixpoint run (env : Env) (actions : list Action) : Proc :=
  match actions with
  | [] => skip
  | a :: rest => act env a ;; run env rest
  end.

(** [threadId] is set once; a call that overwrites it is not a step of the
    property updater as the bot uses it. *)
Definition keeps_threadId (a : Action) : Prop :=
  match a with
  | ActSetProperty key _ _ _ => key <> "threadId"
  | _ => True
  end.

(** ** More of the module *)

(** A caller's callback for [sendMessage], watched: [(err, minfo)]. *)
Definition observe_sent (id : nat) (err : option Err) (minfo : option string) : Proc :=
  observe id (arg_err err :: match minfo with
                             | Some mid => [ArgMessageID mid]
                             | None => []
                             end).

(** The record the store holds for a thread: what [getGroupInfo] reads when
    the store answers. *)
Definition stored (w : World) (threadId : string) : option Obj :=
  match parse_groups (kv w !! "groups") with
  | Some g => assoc_get threadId g
  | None => None
  end.

(** The properties a refresh assigns in every record. *)
Definition refreshed_fields : list string :=
  ["threadId"; "lastMessage"; "name"; "emoji"; "image"; "color"; "nicknames";
   "admins"; "members"; "names"; "userRegExp"].


(** *** All scores of a group *)

(** A property name that is an array index: the decimal text of a number
    below [2^32 - 1], with no sign and no leading zero. *)
Definition array_index (k : string) : option Z :=
  match read_digits digit_of 10 None k with
  | Some z =>
      if String.eqb (Z_to_string z) k && (z <=? 4294967294) then Some z else None
  | None => None
  end.

Fixpoint insert_index (k : Z * string) (l : list (Z * string)) : list (Z * string) :=
  match l with
  | [] => [k]
  | k' :: l' => if fst k <=? fst k' then k :: l else k' :: insert_index k l'
  end.

Fixpoint index_keys (keys : list string) : list (Z * string) :=
  match keys with
  | [] => []
  | k :: rest =>
      match array_index k with
      | Some z => insert_index (z, k) (index_keys rest)
      | None => index_keys rest
      end
  end.

Fixpoint other_keys (keys : list string) : list string :=
  match keys with
  | [] => []
  | k :: rest =>
      match array_index k with
      | Some _ => other_keys rest
      | None => k :: other_keys rest
      end
  end.

(** The order in which [for (let m in o)] visits the properties of [o]: the
    array indices by value, then the other names as they were added. *)
Definition for_in_order (keys : list string) : list string :=
  (map snd (index_keys keys) ++ other_keys keys)%list.

Definition for_in_keys (o : Obj) : list string := for_in_order (obj_keys o).

Fixpoint chars (s : string) : list Val :=
  match s with
  | EmptyString => []
  | String c s' => VStr (String c EmptyString) :: chars s'
  end.

(** The properties of a value that [for .. in] and [Object.keys] see: those of
    an object, the items of an array and the characters of a text under their
    positions, none for anything else. *)
Definition enumerable (v : Val) : Obj :=
  match v with
  | VObj o => o
  | VArr items => imap (fun i x => (Z_to_string (Z.of_nat i), x)) items
  | VStr s => imap (fun i x => (Z_to_string (Z.of_nat i), x)) (chars s)
  | _ => []
  end.

(** A caller's callback that gets a flag and an array, watched: the array is
    shown item by item. *)
Definition arg_item (v : Val) : Arg :=
  match v with
  | VObj o => ArgInfo o
  | _ => ArgNull
  end.

Definition observe_results (id : nat) (success : bool) (items : list Val) : Proc :=
  observe id (ArgBool success :: map arg_item items).

(** [parseInt(val) || "0"]: a number that is not 0, or the text "0". *)
Definition score_or_zero (val : option Blob) : Val :=
  match val with
  | Some b =>
      match blob_parseInt b with
      | Int z => if z =? 0 then VStr "0" else VNum z
      | NaN => VStr "0"
      end
  | None => VStr "0"
  end.

(** [let results = []]: an array that the callbacks of one call share; it
    lives on the heap, under [items]. *)
Definition results_of (o : Obj) : list Val :=
  match obj_read "items" o with
  | VArr l => l
  | _ => []
  end.

(** [updateResults(value)] of [getAllScores]; [total] is
    [Object.keys(members).length] and [start] is [now]. *)
Definition updateResults (env : Env) (asyncTimeout : Z) (total : nat) (start : Z)
    (results : nat) (callback : bool -> list Val -> Proc) (value : Val) : Proc :=
  with_info results (fun o =>
    let items := (results_of o ++ [value])%list in
    modify (set_heap (insert results [("items", VArr items)])) ;;
    let success := (length items =? total)%nat in
    now env (fun current =>
      if success || (asyncTimeout <=? current - start) then callback success items
      else skip)).

(** The [for (let m in members)] loop of [getAllScores].  A property of
    [members] named [hasOwnProperty] hides the method the loop calls. *)
Fixpoint getAllScores_loop (env : Env) (asyncTimeout : Z) (members : Obj) (start : Z)
    (results : nat) (callback : bool -> list Val -> Proc) (keys : list string) : Proc :=
  match keys with
  | [] => skip
  | m :: rest =>
      match obj_get "hasOwnProperty" members with
      | Some _ => throw "TypeError"
      | None =>
          getScore env m (fun err val =>
            updateResults env asyncTimeout (length (obj_keys members)) start results
              callback
              (VObj [("name", obj_read m members); ("score", score_or_zero val)])) ;;
          getAllScores_loop env asyncTimeout members start results callback rest
      end
  end.

(** [getAllScores(groupInfo, callback)]; [asyncTimeout] is
    [config.asyncTimeout]. *)
Definition getAllScores (env : Env) (asyncTimeout : Z) (groupInfo : Obj)
    (callback : bool -> list Val -> Proc) : Proc :=
  let members := enumerable (obj_read "names" groupInfo) in
  alloc [("items", VArr [])] (fun results =>
    now env (fun start =>
      getAllScores_loop env asyncTimeout members start results callback
        (for_in_keys members))).

(** The entries [getAllScores] collects for the members [keys], asked one
    after the other from request number [n] on, against the store [store]. *)
Fixpoint score_entries (env : Env) (store : gmap string Blob) (members : Obj)
    (n : nat) (keys : list string) : list Val :=
  match keys with
  | [] => []
  | m :: rest =>
      VObj [("name", obj_read m members);
            ("score",
             score_or_zero
               match kv_get_error env n with
               | Some _ => None
               | None => store !! ("userscore_" ++ m)
               end)]
      :: score_entries env store members (S n) rest
  end.

(** The events of the loop of [getAllScores] with a watched callback: for
    each member a read, then the call of the callback if the results are
    complete or the time is up. *)
Fixpoint score_events (env : Env) (asyncTimeout : Z) (members : Obj) (start : Z)
    (id : nat) (store : gmap string Blob) (n : nat) (acc : list Val)
    (keys : list string) : list Event :=
  match keys with
  | [] => []
  | m :: rest =>
      let acc' := (acc ++ score_entries env store members n [m])%list in
      let success := (length acc' =? length (obj_keys members))%nat in
      (EvMemGet ("userscore_" ++ m)
       :: (if success || (asyncTimeout <=? clock env (S n) - start)
           then [EvCallback id (ArgBool success :: map arg_item acc')]
           else [])
       ++ score_events env asyncTimeout members start id store (S n) acc' rest)%list
  end.

(** The reads of the scores of [keys]. *)
Definition score_reads (keys : list string) : list Event :=
  map (fun m => EvMemGet ("userscore_" ++ m)) keys.

(** An event before the last call of the callback [id]: a read, or a call
    that reports no success. *)
Definition early (id : nat) (ev : Event) : Prop :=
  match ev with
  | EvMemGet _ => True
  | EvCallback i (ArgBool false :: _) => i = id
  | _ => False
  end.

(** A write to the store, and a call that hands a record over. *)
Definition is_write (ev : Event) : bool :=
  match ev with
  | EvMemSet _ _ => true
  | _ => false
  end.

Definition hands_over (ev : Event) : bool :=
  match ev with
  | EvCallback _ (_ :: ArgInfo _ :: _) => true
  | _ => false
  end.

(** *** Closures that run when an update has been written *)

(** The module hands closures of its own to [setGroupProperty].  A timer
    keeps such a closure as [CbUser id]; [run] is the table that says which
    code each [id] stands for, and the timeout body runs that code where
    [fire] only records the call. *)
Definition fire_with (env : Env) (run : nat -> option Err -> Proc) (t : Timer) : Proc :=
  with_info (t_info t) (fun o =>
  setGroupInfo env o (fun err =>
    with_info (t_info t) (fun o =>
      modify (set_lockedThreads (without (obj_read "threadId" o)))) ;;
    match t_callback t with
    | CbDefault => skip
    | CbUser id => run id err
    end)).

Definition tick_with (env : Env) (run : nat -> option Err -> Proc) : Proc :=
  fun w =>
    match timers w with
    | [] => skip w
    | t :: ts => deliver (fire_with env run t) (set_timers (fun _ => ts) w)
    end.

(** [v.k] for a value [v] that is not [undefined] or [null] and a name [k]
    that only an object can have. *)
Definition field (k : string) (v : Val) : Val :=
  match v with
  | VObj o => obj_read k o
  | _ => VUndef
  end.

(** *** Deleting an event *)

(** The closure [deleteEvent] hands to [setGroupProperty]; [title] is
    [event.title]. *)
Definition deleteEvent_done (env : Env) (title : Val) (threadId : string)
    (sendConfirmation : bool) (err : option Err) : Proc :=
  match err with
  | Some _ => sendError env "Sorry, couldn't delete the event." threadId
  | None =>
      if sendConfirmation then
        sendMessage env ("Successfully deleted " ++ dq ++ js_to_string title ++ dq ++ ".")
          threadId (fun _ _ => skip) None
      else skip
  end.

(** [deleteEvent(keyTitle, sender, groupInfo, threadId, sendConfirmation)].
    [loose_eq] is [==]; [after] names the closure, whose body is
    [deleteEvent_done].  An inherited name gives a function, which has no
    [owner] and no [title], as [undefined] has none here.  The last branch
    reads [rawTitle], a name that nothing declares. *)
Definition deleteEvent (env : Env) (loose_eq : Val -> Val -> bool) (keyTitle : string)
    (sender : Val) (groupInfo : nat) (threadId : string) (after : nat) : Proc :=
  with_info groupInfo (fun info =>
  match as_obj (obj_read "events" info) with
  | None => throw "TypeError"
  | Some evs =>
      let event := obj_read keyTitle evs in
      if has_truthy keyTitle evs then
        if loose_eq (field "owner" event) sender then
          let evs := obj_delete keyTitle evs in
          modify (set_heap (insert groupInfo (obj_set "events" (VObj evs) info))) ;;
          setGroupProperty "events" (VObj evs) groupInfo (CbUser after)
        else sendError env "Sorry, you are not the owner of this event." threadId
      else throw "ReferenceError"
  end).

(** *** A message to every group *)

Fixpoint sendToAll_loop (env : Env) (msg : string) (groupData : GroupData)
    (keys : list string) : Proc :=
  match keys with
  | [] => skip
  | g :: rest =>
      match assoc_get g groupData with
      | Some group =>
          if truthy (obj_read "isGroup" group) then
            sendMessage env msg g (fun _ _ => skip) None
          else skip
      | None => throw "TypeError"
      end ;;
      sendToAll_loop env msg groupData rest
  end.

(** [sendToAll(msg)]. *)
Definition sendToAll (env : Env) (msg : string) : Proc :=
  getGroupData env (fun err groupData =>
    match err, groupData with
    | None, Some groupData =>
        sendToAll_loop env msg groupData (for_in_order (map fst groupData))
    | _, _ => skip
    end).

(** The threads [sendToAll] sends to: the keys of the group map whose record
    has a true [isGroup]; [sendMessage] refuses an empty thread id. *)
Definition is_group_thread (groupData : GroupData) (g : string) : bool :=
  match assoc_get g groupData with
  | Some group => truthy (obj_read "isGroup" group) && negb (String.eqb g EmptyString)
  | None => false
  end.

(** *** The most active user *)

(** [record[i].user]; [None] is the TypeError of reading it from [undefined]
    or [null]. *)
Definition user_of (item : Val) : option Val :=
  match item with
  | VUndef | VNull => None
  | VObj o => Some (obj_read "user" o)
  | _ => Some VUndef
  end.

(** [!usageMap[id]] for a map that holds numbers. *)
Definition no_count (key : string) (usageMap : list (string * Num)) : bool :=
  match assoc_get key usageMap with
  | Some NaN => true
  | Some (Int z) => z =? 0
  | None => negb (inherited key)
  end.

(** One round of the first loop of [getHighestUser].  Adding one to an
    inherited function gives [NaN]; assigning a number to [__proto__] does
    nothing. *)
Definition count_use (key : string) (usageMap : list (string * Num))
    : list (string * Num) :=
  if String.eqb key "__proto__" then usageMap
  else
    let usageMap := if no_count key usageMap then assoc_set key (Int 0) usageMap
                    else usageMap in
    assoc_set key
      match assoc_get key usageMap with
      | Some n => num_add n (Int 1)
      | None => NaN
      end usageMap.

Fixpoint count_uses (record : list Val) (usageMap : list (string * Num))
    : option (list (string * Num)) :=
  match record with
  | [] => Some usageMap
  | item :: rest =>
      match user_of item with
      | Some id => count_uses rest (count_use (js_to_string id) usageMap)
      | None => None
      end
  end.

(** The second loop: [best] is [(maxNum, maxUser)]. *)
Fixpoint pick_max (usageMap : list (string * Num)) (keys : list string)
    (best : Z * Val) : Z * Val :=
  match keys with
  | [] => best
  | u :: rest =>
      pick_max usageMap rest
        match assoc_get u usageMap with
        | Some (Int n) => if fst best <? n then (n, VStr u) else best
        | _ => best
        end
  end.

(** [getHighestUser(record)]; [None] is a TypeError: an item that is
    [undefined] or [null], or a user called [hasOwnProperty], whose count
    hides the method the second loop calls. *)
Definition getHighestUser (record : list Val) : option Val :=
  match count_uses record [] with
  | Some usageMap =>
      match assoc_get "hasOwnProperty" usageMap with
      | Some _ => None
      | None => Some (snd (pick_max usageMap (for_in_order (map fst usageMap)) (0, VUndef)))
      end
  | None => None
  end.

(** How many items of [record] are uses by the user whose key is [k]. *)
Definition uses (record : list Val) (k : string) : nat :=
  length (List.filter
            (fun item =>
               match user_of item with
               | Some id => String.eqb (js_to_string id) k
               | None => false
               end) record).

(** The count a usage map holds for a key, 0 when it holds none. *)
Definition held (usageMap : list (string * Num)) (k : string) : Z :=
  match assoc_get k usageMap with
  | Some (Int z) => z
  | _ => 0
  end.

(** Every count held is a number from 1 on, and no key is an inherited
    name. *)
Definition counted (usageMap : list (string * Num)) : Prop :=
  forall k v, assoc_get k usageMap = Some v ->
              inherited k = false /\ exists z, v = Int z /\ 1 <= z.

(** *** Usage statistics *)

(** What [getStats] hands over: the two counters, and the log of uses when
    it was asked for. *)
Record Stats : Type := {
  s_count : Z;
  s_total : Z;
  s_record : option Val
}.

(** The object a watched callback shows for it. *)
Definition stats_info (s : Stats) : Obj :=
  ([("count", VNum (s_count s)); ("total", VNum (s_total s))]
   ++ match s_record s with
      | Some r => [("record", r)]
      | None => []
      end)%list.

Definition observe_stats (id : nat) (err : option Err) (stats : option Stats) : Proc :=
  observe id (arg_err err :: match stats with
                             | Some s => [ArgInfo (stats_info s)]
                             | None => []
                             end).

Definition observe_errors (id : nat) (t_err c_err u_err : option Err) : Proc :=
  observe id [arg_err t_err; arg_err c_err; arg_err u_err].

(** [parseInt(x) || 0] *)
Definition int_or_zero (x : option Blob) : Z :=
  match x with
  | Some b =>
      match blob_parseInt b with
      | Int z => z
      | NaN => 0
      end
  | None => 0
  end.

Section Stats.

Variable env : Env.

(** [JSON.parse] on a text ([None] is its SyntaxError), [JSON.stringify] and
    [toISOString] of the date with the given epoch milliseconds. *)
Variable JSON_parse : string -> option Val.
Variable JSON_text : Val -> string.
Variable toISOString : Z -> string.

(** [JSON.parse(record)] for what the store gave: nothing, a text, or the
    text of a group map. *)
Definition parse_record (record : option Blob) : option Val :=
  match record with
  | None => Some VNull
  | Some (Text s) => JSON_parse s
  | Some (Groups g) => Some (VObj (map (fun kr => (fst kr, VObj (snd kr))) g))
  end.

(** [getStats(command, fullData, callback)].  The error of the first read is
    hidden by that of the second. *)
Definition getStats (command : string) (fullData : bool)
    (callback : option Err -> option Stats -> Proc) : Proc :=
  mem_get env ("usage_total_" ++ command) (fun _ count =>
    mem_get env "usage_total_all" (fun err total =>
      match err with
      | None =>
          let stats := {| s_count := int_or_zero count; s_total := int_or_zero total;
                          s_record := None |} in
          if fullData then
            mem_get env ("usage_record_" ++ command) (fun err record =>
              match err with
              | None =>
                  match parse_record record with
                  | Some v =>
                      callback None
                        (Some {| s_count := s_count stats; s_total := s_total stats;
                                 s_record := Some (if truthy v then v else VArr []) |})
                  | None => throw "SyntaxError"
                  end
              | Some e => callback (Some e) None
              end)
          else callback None (Some stats)
      | Some e => callback (Some e) None
      end)).

(** [setStats(command, stats, callback)]. *)
Definition setStats (command : string) (stats : Stats)
    (callback : option Err -> option Err -> option Err -> Proc) : Proc :=
  mem_set env "usage_total_all" (Text (Z_to_string (s_total stats))) (fun t_err _ =>
    mem_set env ("usage_total_" ++ command) (Text (Z_to_string (s_count stats)))
      (fun c_err _ =>
         mem_set env ("usage_record_" ++ command)
           (Text match s_record stats with
                 | Some r => JSON_text r
                 | None => "undefined"
                 end)
           (fun u_err _ => callback t_err c_err u_err))).

(** [updateStats(command, senderID, callback)]; [callback] gets the error of
    [getStats] alone, or the three of [setStats].  Only an array has
    [push]. *)
Definition updateStats (command : string) (senderID : Val)
    (callback : option Err -> option Err -> option Err -> Proc) : Proc :=
  getStats command true (fun err stats =>
    match err, stats with
    | None, Some stats =>
        match s_record stats with
        | Some (VArr items) =>
            now env (fun at_ =>
              setStats command
                {| s_count := s_count stats + 1; s_total := s_total stats + 1;
                   s_record :=
                     Some (VArr (items ++ [VObj [("at", VStr (toISOString at_));
                                                 ("user", senderID)]])) |}
                callback)
        | _ => throw "TypeError"
        end
    | Some e, _ => callback (Some e) None None
    | None, None => throw "TypeError"
    end).

(** The loop of [resetStats] over the commands [co], the object
    [commands.commands]. *)
Fixpoint resetStats_loop (co : Obj) (keys : list string) : Proc :=
  match keys with
  | [] => skip
  | c :: rest =>
      match obj_get "hasOwnProperty" co with
      | Some _ => throw "TypeError"
      | None =>
          setStats c {| s_count := 0; s_total := 0; s_record := Some (VArr []) |}
            (fun _ _ _ => skip) ;;
          resetStats_loop co rest
      end
  end.

(** [resetStats()]. *)
Definition resetStats (co : Obj) : Proc := resetStats_loop co (for_in_keys co).

End Stats.

(** *** Deleting a pin *)

(** The closure [deletePin] hands to [setGroupProperty]. *)
Definition deletePin_done (env : Env) (pin threadId : string) (err : option Err) : Proc :=
  match err with
  | None =>
      sendMessage env ("Successfully deleted " ++ dq ++ pin ++ dq ++ ".") threadId
        (fun _ _ => skip) None
  | Some _ => sendError env ("Unable to delete " ++ dq ++ pin ++ dq ++ ".") threadId
  end.

(** [deletePin(pin, groupInfo, threadId)]; a missing [pin] is the empty
    text here.  [after] names the closure, whose body is [deletePin_done]. *)
Definition deletePin (env : Env) (pin : string) (groupInfo : nat) (threadId : string)
    (after : nat) : Proc :=
  with_info groupInfo (fun info =>
  if String.eqb pin EmptyString then
    sendError env "Please specify an existing pin to delete." threadId
  else
    match as_obj (obj_read "pinned" info) with
    | None => throw "TypeError"
    | Some pinned =>
        if has_truthy pin pinned then
          let pinned := obj_delete pin pinned in
          modify (set_heap (insert groupInfo (obj_set "pinned" (VObj pinned) info))) ;;
          setGroupProperty "pinned" (VObj pinned) groupInfo (CbUser after)
        else sendError env "Please specify an existing pin to delete." threadId
    end).

(** ** Kinds of events *)

(** What goes on in the background of every operation: reads of the store,
    messages and other one-way requests to the provider, log lines and lost
    exceptions. *)
Definition background (ev : Event) : bool :=
  match ev with
  | EvMemGet _ | EvSendMessage _ _ _ | EvChangeNickname _ _ _ | EvMuteThread _ _
  | EvLog _ | EvUncaught _ => true
  | _ => false
  end.

Definition is_callback (ev : Event) : bool :=
  match ev with
  | EvCallback _ _ => true
  | _ => false
  end.

Definition is_send (ev : Event) : bool :=
  match ev with
  | EvSendMessage _ _ _ => true
  | _ => false
  end.

(** ** Properties of runs *)

(** [sat RW PE p]: whatever the start, the state [p] leaves is related to it
    by [RW], and every event of the run satisfies [PE]. *)
Definition sat (RW : World -> World -> Prop) (PE : Event -> Prop) (p : Proc) : Prop :=
  forall w, RW w (world (p w)) /\ Forall PE (events (p w)).

(** What every part of the module may do without being mentioned: count a
    request, touch the heap, the locks and the timers, read the store, send,
    log, and lose an exception. *)
Record Quiet (RW : World -> World -> Prop) (PE : Event -> Prop) : Prop := {
  q_refl : forall w, RW w w;
  q_trans : forall a b c, RW a b -> RW b c -> RW a c;
  q_bump : forall w, RW w (bump w);
  q_heap : forall f w, RW w (set_heap f w);
  q_locks : forall f w, RW w (set_lockedThreads f w);
  q_timers : forall f w, RW w (set_timers f w);
  q_memget : forall k, PE (EvMemGet k);
  q_send : forall m t r, PE (EvSendMessage m t r);
  q_log : forall i, PE (EvLog i);
  q_uncaught : forall e, PE (EvUncaught e)
}.

(** The store is as it was. *)
Definition same_store (w w' : World) : Prop := kv w' = kv w.

(** The thread [tid] is locked and no pending timer would unlock it. *)
Definition stuck (tid : Val) (w : World) : Prop :=
  includes tid (lockedThreads w) = true
  /\ Forall (fun t => obj_read "threadId" (deref w (t_info t)) <> tid
                      /\ is_Some (heap w !! t_info t))
       (timers w).

(** The bot's id is no value of [members] and no key of [names]. *)
Definition bot_excluded (bot : string) (members names : Obj) : Prop :=
  (forall name, obj_get name members <> Some (VStr bot))
  /\ obj_get bot names = None.

(** ** Sample data *)

Definition demo_config : Config :=
  {| bot_id := "BOT"; bot_names_long := "Nano Bot"; bot_names_short := Some "Nano";
     owner_id := "OWNER"; dbFailSilently := false; defaultTitle := "Unnamed chat";
     trigger := "nano"; votePoints := None; reminderTime := 30 |}.

(** A thread in which the bot is a participant and an admin. *)
Definition demo_thread : ThreadData :=
  {| threadName := None; emoji := VStr ":)"; imageSrc := VNull;
     color := Some "ff0000";
     nicknames := Some [("BOT", VStr "Nano"); ("U1", VStr "Annie")];
     adminIDs := Some [[("id", VStr "U1")]; [("id", VStr "BOT")]];
     participantIDs := ["U1"; "U2"; "BOT"]; isGroup := true |}.

Definition demo_users : list (string * UserInfo) :=
  [("U1", {| firstName := "Ann" |}); ("U2", {| firstName := "Bob" |});
   ("BOT", {| firstName := "Nano" |})].

(** Store and provider answer every request. *)
Definition env_ok : Env :=
  {| kv_get_error := fun _ => None;
     kv_set_error := fun _ => None;
     send_reply := fun _ => SendDone None (Some "mid.1");
     thread_reply := fun _ => (None, Some demo_thread);
     user_reply := fun _ => (None, demo_users);
     getRegexFromMembers := fun l => VStr ("(" ++ array_join "|" l ++ ")");
     parseDate := fun _ _ => Some 5000000;
     getPrettyDateString := fun _ => "Friday";
     clock := fun _ => 1000 |}.

(** Every read of the store fails; the rest answers. *)
Definition env_read_fails : Env :=
  {| kv_get_error := fun _ => Some "ETIMEDOUT";
     kv_set_error := fun _ => None;
     send_reply := fun _ => SendDone None (Some "mid.1");
     thread_reply := fun _ => (None, Some demo_thread);
     user_reply := fun _ => (None, demo_users);
     getRegexFromMembers := fun l => VStr ("(" ++ array_join "|" l ++ ")");
     parseDate := fun _ _ => Some 5000000;
     getPrettyDateString := fun _ => "Friday";
     clock := fun _ => 1000 |}.

(** The provider has no data for the thread. *)
Definition env_no_thread : Env :=
  {| kv_get_error := fun _ => None;
     kv_set_error := fun _ => None;
     send_reply := fun _ => SendDone None (Some "mid.1");
     thread_reply := fun _ => (Some "no such thread", None);
     user_reply := fun _ => (None, demo_users);
     getRegexFromMembers := fun l => VStr ("(" ++ array_join "|" l ++ ")");
     parseDate := fun _ _ => Some 5000000;
     getPrettyDateString := fun _ => "Friday";
     clock := fun _ => 1000 |}.

Definition demo_event : Obj :=
  [("type", VStr "event"); ("title", VStr "Party"); ("key_title", VStr "party");
   ("timestamp", VNum 4000000); ("owner", VStr "U1"); ("threadId", VStr "T1");
   ("pretty_time", VStr "Thursday"); ("remind_time", VNull); ("mid", VStr "mid.0");
   ("going", VArr []); ("not_going", VArr [])].

Definition demo_record : Obj :=
  [("threadId", VStr "T1"); ("name", VStr "Friends");
   ("events", VObj [("party", VObj demo_event)])].

Definition world_empty : World :=
  {| kv := ∅; lockedThreads := []; heap := ∅; timers := []; requests := 0 |}.

(** The record is held at reference 0 and stored under its thread id. *)
Definition world_stored : World :=
  {| kv := {[ "groups" := Groups [("T1", demo_record)] ]};
     lockedThreads := []; heap := {[ 0%nat := demo_record ]};
     timers := []; requests := 0 |}.

(** The same, with the thread locked by an update in flight. *)
Definition world_locked : World :=
  {| kv := {[ "groups" := Groups [("T1", demo_record)] ]};
     lockedThreads := [VStr "T1"]; heap := {[ 0%nat := demo_record ]};
     timers := [{| t_info := 0; t_callback := CbDefault |}]; requests := 0 |}.

Definition world_score_10 : World :=
  {| kv := {[ "userscore_U1" := Text "10" ]};
     lockedThreads := []; heap := ∅; timers := []; requests := 0 |}.

Definition greeting_demo : string :=
  "Hello! I'm Nano Bot, but you can call me Nano. Give me a moment to collect some information about this chat before you use any commands.".

(** The record of thread T1 after a first refresh against [env_ok]. *)
Definition demo_refreshed : Obj :=
  [("threadId", VStr "T1"); ("lastMessage", VStr "hi"); ("name", VStr "Ann/Bob");
   ("emoji", VStr ":)"); ("image", VNull); ("color", VStr "#ff0000");
   ("nicknames", VObj [("U1", VStr "Annie")]);
   ("admins", VArr [VStr "U1"; VStr "BOT"]);
   ("muted", VBool true); ("playlists", VObj []); ("aliases", VObj []);
   ("pinned", VObj []); ("events", VObj []); ("isGroup", VBool true);
   ("members", VObj [("ann", VStr "U1"); ("bob", VStr "U2")]);
   ("names", VObj [("U1", VStr "Ann"); ("U2", VStr "Bob")]);
   ("userRegExp", VStr "(ann|bob)")].

(** Every write to the store fails. *)
Definition env_write_fails : Env :=
  {| kv_get_error := fun _ => None;
     kv_set_error := fun _ => Some "SERVER_ERROR";
     send_reply := fun _ => SendDone None (Some "mid.1");
     thread_reply := fun _ => (None, Some demo_thread);
     user_reply := fun _ => (None, demo_users);
     getRegexFromMembers := fun l => VStr ("(" ++ array_join "|" l ++ ")");
     parseDate := fun _ _ => Some 5000000;
     getPrettyDateString := fun _ => "Friday";
     clock := fun _ => 1000 |}.


(** A record as a refresh leaves it, with an event added since. *)
Definition demo_member_record : Obj :=
  Eval vm_compute in obj_set "events" (VObj [("party", VObj demo_event)]) demo_refreshed.

Definition world_member : World :=
  {| kv := {[ "groups" := Groups [("T1", demo_member_record)] ]};
     lockedThreads := []; heap := {[ 0%nat := demo_member_record ]};
     timers := []; requests := 0 |}.

(** That record after one more refresh against [env_ok]. *)
Definition demo_refreshed_stored : Obj :=
  Eval vm_compute in
    default []
      (merge_user_data demo_config env_ok
         (merge_thread_data demo_config "T1" (VStr "hi") (Some demo_member_record)
            demo_thread)
         demo_users).

(** The second read of the store fails, nothing else does. *)
Definition env_second_read_fails : Env :=
  {| kv_get_error := fun n => if (n =? 1)%nat then Some "ETIMEDOUT" else None;
     kv_set_error := fun _ => None;
     send_reply := fun _ => SendDone None (Some "mid.1");
     thread_reply := fun _ => (None, Some demo_thread);
     user_reply := fun _ => (None, demo_users);
     getRegexFromMembers := fun l => VStr ("(" ++ array_join "|" l ++ ")");
     parseDate := fun _ _ => Some 5000000;
     getPrettyDateString := fun _ => "Friday";
     clock := fun _ => 1000 |}.

(** The store answers, each answer a second after the one before. *)
Definition env_slow : Env :=
  {| kv_get_error := fun _ => None;
     kv_set_error := fun _ => None;
     send_reply := fun _ => SendDone None (Some "mid.1");
     thread_reply := fun _ => (None, Some demo_thread);
     user_reply := fun _ => (None, demo_users);
     getRegexFromMembers := fun l => VStr ("(" ++ array_join "|" l ++ ")");
     parseDate := fun _ _ => Some 5000000;
     getPrettyDateString := fun _ => "Friday";
     clock := fun n => 1000 * Z.of_nat n |}.

(** A store with three threads: a group, a chat of two, and a group whose id
    is a small number. *)
Definition world_three_threads : World :=
  {| kv := {[ "groups" :=
                Groups [("T1", demo_member_record);
                        ("U1", [("threadId", VStr "U1"); ("isGroup", VBool false)]);
                        ("42", [("threadId", VStr "42"); ("isGroup", VBool true)])] ]};
     lockedThreads := []; heap := ∅; timers := []; requests := 0 |}.

(** The first read of the store fails, nothing else does. *)
Definition env_first_read_fails : Env :=
  {| kv_get_error := fun n => if (n =? 0)%nat then Some "ETIMEDOUT" else None;
     kv_set_error := fun _ => None;
     send_reply := fun _ => SendDone None (Some "mid.1");
     thread_reply := fun _ => (None, Some demo_thread);
     user_reply := fun _ => (None, demo_users);
     getRegexFromMembers := fun l => VStr ("(" ++ array_join "|" l ++ ")");
     parseDate := fun _ _ => Some 5000000;
     getPrettyDateString := fun _ => "Friday";
     clock := fun _ => 1000 |}.

(** The first write to the store fails, nothing else does. *)
Definition env_first_write_fails : Env :=
  {| kv_get_error := fun _ => None;
     kv_set_error := fun n => if (n =? 0)%nat then Some "SERVER_ERROR" else None;
     send_reply := fun _ => SendDone None (Some "mid.1");
     thread_reply := fun _ => (None, Some demo_thread);
     user_reply := fun _ => (None, demo_users);
     getRegexFromMembers := fun l => VStr ("(" ++ array_join "|" l ++ ")");
     parseDate := fun _ _ => Some 5000000;
     getPrettyDateString := fun _ => "Friday";
     clock := fun _ => 1000 |}.

(** A store that has counted 41 uses of [help] among 100 uses, and has lost
    the log. *)
Definition world_usage : World :=
  {| kv := {[ "usage_total_help" := Text "41"; "usage_total_all" := Text "100" ]};
     lockedThreads := []; heap := ∅; timers := []; requests := 0 |}.

(** A record as a refresh leaves it, with two pins added since. *)
Definition demo_pinned_record : Obj :=
  Eval vm_compute in
    obj_set "pinned" (VObj [("rules", VStr "Be nice"); ("intro", VStr "Hello")])
      demo_refreshed.

Definition world_pins : World :=
  {| kv := {[ "groups" := Groups [("T1", demo_pinned_record)] ]};
     lockedThreads := []; heap := {[ 0%nat := demo_pinned_record ]};
     timers := []; requests := 0 |}.
(** ** Values and objects: basic facts *)

Example parseInt_10 : parseInt "10" = Int 10.
Proof. reflexivity. Qed.

Example parseInt_junk : parseInt " -12px" = Int (-12) /\ parseInt "abc" = NaN.
Proof. split; reflexivity. Qed.

Example Z_to_string_ex : Z_to_string 1500 = "1500" /\ Z_to_string (-5) = "-5".
Proof. split; reflexivity. Qed.

Example trim_lower_ex : toLowerCase (trim "  Game Night ") = "game night".
Proof. reflexivity. Qed.

Section ValInduction.

Variable P : Val -> Prop.
Hypothesis P_undef : P VUndef.
Hypothesis P_null : P VNull.
Hypothesis P_bool : forall b, P (VBool b).
Hypothesis P_num : forall n, P (VNum n).
Hypothesis P_str : forall s, P (VStr s).
Hypothesis P_arr : forall items, Forall P items -> P (VArr items).
Hypothesis P_obj : forall props, Forall (fun kv => P (snd kv)) props -> P (VObj props).

(** Induction on a value that reaches into arrays and objects. *)
Fixpoint Val_nested_ind (v : Val) : P v :=
  match v with
  | VUndef => P_undef
  | VNull => P_null
  | VBool b => P_bool b
  | VNum n => P_num n
  | VStr s => P_str s
  | VArr items =>
      P_arr items
        ((fix go (l : list Val) : Forall P l :=
            match l with
            | [] => Forall_nil P
            | x :: l' => Forall_cons P x l' (Val_nested_ind x) (go l')
            end) items)
  | VObj props =>
      P_obj props
        ((fix go (l : Obj) : Forall (fun kv => P (snd kv)) l :=
            match l with
            | [] => Forall_nil _
            | kv :: l' =>
                Forall_cons (fun kv => P (snd kv)) kv l' (Val_nested_ind (snd kv)) (go l')
            end) props)
  end.

End ValInduction.

Lemma val_eqb_refl (v : Val) : val_eqb v v = true.
Proof.
  induction v using Val_nested_ind; simpl; auto.
  - apply Bool.eqb_reflx.
  - apply Z.eqb_refl.
  - apply String.eqb_refl.
  - induction H as [|x l Hx _ IH]; [reflexivity|]. now rewrite Hx, IH.
  - induction H as [|[k x] l Hx _ IH]; [reflexivity|].
    simpl in Hx. now rewrite String.eqb_refl, Hx, IH.
Qed.

Lemma val_eqb_true (a b : Val) : val_eqb a b = true -> a = b.
Proof.
  revert b. induction a using Val_nested_ind; intros [] Hab; simpl in Hab;
    try discriminate; try reflexivity.
  - f_equal. now apply Bool.eqb_prop.
  - f_equal. now apply Z.eqb_eq.
  - f_equal. now apply String.eqb_eq.
  - f_equal. revert items0 Hab.
    induction H as [|x l Hx _ IH]; intros [|y l'] Hab; try discriminate; auto.
    apply andb_prop in Hab as [Hxy Hl]. f_equal; auto.
  - f_equal. revert props0 Hab.
    induction H as [|[k x] l Hx _ IH]; intros [|[k' y] l'] Hab; try discriminate; auto.
    apply andb_prop in Hab as [Hab Hl]. apply andb_prop in Hab as [Hk Hxy].
    apply String.eqb_eq in Hk. simpl in Hx. f_equal; auto. f_equal; auto.
Qed.

Lemma val_eqb_eq (a b : Val) : val_eqb a b = true <-> a = b.
Proof.
  split; [apply val_eqb_true|]. intros ->. apply val_eqb_refl.
Qed.

Lemma val_eqb_neq (a b : Val) : val_eqb a b = false <-> a <> b.
Proof.
  rewrite <- val_eqb_eq. destruct (val_eqb a b); split; congruence.
Qed.

Lemma includes_true (x : Val) (l : list Val) : includes x l = true <-> In x l.
Proof.
  unfold includes. rewrite existsb_exists. split.
  - intros (y & Hy & Heq). apply val_eqb_true in Heq. now subst.
  - intros Hx. exists x. split; [assumption | apply val_eqb_refl].
Qed.

Lemma includes_app (x : Val) (l l' : list Val) :
  includes x (l ++ l') = includes x l || includes x l'.
Proof. unfold includes. apply existsb_app. Qed.

Lemma includes_without_ne (x y : Val) (l : list Val) :
  x <> y -> includes x (without y l) = includes x l.
Proof.
  intros Hxy. unfold includes, without.
  induction l as [|t l IH]; [reflexivity|]. simpl.
  destruct (val_eqb t y) eqn:Hty; simpl.
  - apply val_eqb_true in Hty. subst t.
    apply val_eqb_neq in Hxy. now rewrite Hxy.
  - now rewrite IH.
Qed.

Lemma includes_without_same (x : Val) (l : list Val) : includes x (without x l) = false.
Proof.
  unfold includes, without. induction l as [|t l IH]; [reflexivity|]. simpl.
  destruct (val_eqb t x) eqn:Htx; simpl; [assumption|].
  rewrite IH, Bool.orb_false_r.
  apply val_eqb_neq. apply val_eqb_neq in Htx. congruence.
Qed.

Lemma assoc_get_set_eq {A} (k : string) (v : A) (m : list (string * A)) :
  assoc_get k (assoc_set k v m) = Some v.
Proof.
  induction m as [|[k' v'] m IH]; simpl.
  - now rewrite String.eqb_refl.
  - destruct (String.eqb k k') eqn:E; simpl; rewrite E; [reflexivity | assumption].
Qed.

Lemma assoc_get_set_ne {A} (k k' : string) (v : A) (m : list (string * A)) :
  k <> k' -> assoc_get k (assoc_set k' v m) = assoc_get k m.
Proof.
  intros Hne. induction m as [|[k0 v0] m IH]; simpl.
  - apply String.eqb_neq in Hne. now rewrite Hne.
  - destruct (String.eqb k' k0) eqn:E; simpl.
    + apply String.eqb_eq in E. subst k0.
      apply String.eqb_neq in Hne. now rewrite Hne.
    + now rewrite IH.
Qed.

Lemma obj_get_set_eq (k : string) (v : Val) (o : Obj) :
  obj_get k (obj_set k v o) = Some v.
Proof.
  induction o as [|[k' v'] o IH]; simpl.
  - now rewrite String.eqb_refl.
  - destruct (String.eqb k k') eqn:E; simpl; rewrite E; [reflexivity | assumption].
Qed.

Lemma obj_get_set_ne (k k' : string) (v : Val) (o : Obj) :
  k <> k' -> obj_get k (obj_set k' v o) = obj_get k o.
Proof.
  intros Hne. induction o as [|[k0 v0] o IH]; simpl.
  - apply String.eqb_neq in Hne. now rewrite Hne.
  - destruct (String.eqb k' k0) eqn:E; simpl.
    + apply String.eqb_eq in E. subst k0.
      apply String.eqb_neq in Hne. now rewrite Hne.
    + now rewrite IH.
Qed.

Lemma obj_read_set_eq (k : string) (v : Val) (o : Obj) :
  obj_read k (obj_set k v o) = v.
Proof. unfold obj_read. now rewrite obj_get_set_eq. Qed.

Lemma obj_read_set_ne (k k' : string) (v : Val) (o : Obj) :
  k <> k' -> obj_read k (obj_set k' v o) = obj_read k o.
Proof. intros. unfold obj_read. now rewrite obj_get_set_ne. Qed.

(** ** Reasoning about runs *)

Arguments obj_read : simpl never.
Arguments includes : simpl never.
Arguments without : simpl never.
Arguments JSON_stringify : simpl never.

Section Sat.

Variable RW : World -> World -> Prop.
Variable PE : Event -> Prop.
Hypothesis Q : Quiet RW PE.

Lemma sat_skip : sat RW PE skip.
Proof. intros w. split; [apply (q_refl _ _ Q) | constructor]. Qed.

Lemma sat_throw (e : string) : sat RW PE (throw e).
Proof. intros w. split; [apply (q_refl _ _ Q) | constructor]. Qed.

Lemma sat_emit (ev : Event) : PE ev -> sat RW PE (emit ev).
Proof. intros H w. split; [apply (q_refl _ _ Q) | repeat constructor; assumption]. Qed.

Lemma sat_modify (f : World -> World) :
  (forall w, RW w (f w)) -> sat RW PE (modify f).
Proof. intros H w. split; [apply H | constructor]. Qed.

Lemma sat_seq (p q : Proc) : sat RW PE p -> sat RW PE q -> sat RW PE (p ;; q).
Proof.
  intros Hp Hq w. unfold seq, bind_out.
  destruct (Hp w) as [Hw He]. destruct (thrown (p w)); [split; assumption|].
  destruct (Hq (world (p w))) as [Hw' He']. simpl. split.
  - eapply (q_trans _ _ Q); eassumption.
  - apply Forall_app. split; assumption.
Qed.

Lemma sat_deliver (p : Proc) : sat RW PE p -> sat RW PE (deliver p).
Proof.
  intros Hp w. unfold deliver, catch_out.
  destruct (Hp w) as [Hw He]. destruct (thrown (p w)); simpl; [|split; assumption].
  split; [assumption|]. apply Forall_app. split; [assumption|].
  repeat constructor. apply (q_uncaught _ _ Q).
Qed.

Lemma sat_request {A} (ev : Event) (reply : World -> A) (k : A -> Proc) :
  PE ev -> (forall w, sat RW PE (k (reply w))) -> sat RW PE (request ev reply k).
Proof.
  intros Hev Hk w. unfold request, out_app.
  destruct (sat_deliver _ (Hk w) (bump w)) as [Hw He]. simpl. split.
  - eapply (q_trans _ _ Q); [apply (q_bump _ _ Q) | exact Hw].
  - constructor; assumption.
Qed.

Lemma sat_with_info (l : nat) (k : Obj -> Proc) :
  (forall o, sat RW PE (k o)) -> sat RW PE (with_info l k).
Proof. intros Hk w. apply Hk. Qed.

Lemma sat_invoke (cb : Callback) (args : list Arg) :
  (forall id, PE (EvCallback id args)) -> sat RW PE (invoke cb args).
Proof.
  intros H. destruct cb; simpl; [apply sat_skip | apply sat_emit, H].
Qed.

Lemma sat_console_log (item : LogItem) : sat RW PE (console_log item).
Proof. apply sat_emit, (q_log _ _ Q). Qed.

Variable env : Env.

Lemma sat_mem_get (key : string) (k : option Err -> option Blob -> Proc) :
  (forall e v, sat RW PE (k e v)) -> sat RW PE (mem_get env key k).
Proof.
  intros Hk. apply sat_request; [apply (q_memget _ _ Q) | intros w; apply Hk].
Qed.

Lemma sat_mem_set (key : string) (value : Blob) (k : option Err -> bool -> Proc) :
  PE (EvMemSet key value) ->
  (forall w, RW w (set_kv (insert key value) w)) ->
  (forall e b, sat RW PE (k e b)) ->
  sat RW PE (mem_set env key value k).
Proof.
  intros Hev Hkv Hk. apply sat_request; [assumption|]. intros w.
  destruct (kv_set_error env (requests w)); [apply Hk|].
  apply sat_seq; [apply sat_modify, Hkv | apply Hk].
Qed.

Lemma sat_getGroupData (k : option Err -> option GroupData -> Proc) :
  (forall e g, sat RW PE (k e g)) -> sat RW PE (getGroupData env k).
Proof.
  intros Hk. apply sat_mem_get. intros [e|] v; [apply Hk|].
  destruct (parse_groups v); [apply Hk | apply sat_throw].
Qed.

Lemma sat_getGroupInfo (threadId : string) (k : option Err -> option Obj -> Proc) :
  (forall e i, sat RW PE (k e i)) -> sat RW PE (getGroupInfo env threadId k).
Proof.
  intros Hk. apply sat_getGroupData. intros [e|] [g|]; try apply Hk.
  - destruct (assoc_get threadId g); apply Hk.
  - apply sat_throw.
Qed.

Lemma sat_setGroupInfo (info : Obj) (k : option Err -> Proc) :
  (forall v, PE (EvMemSet "groups" v)) ->
  (forall v w, RW w (set_kv (insert "groups" v) w)) ->
  (forall e, sat RW PE (k e)) ->
  sat RW PE (setGroupInfo env info k).
Proof.
  intros Hev Hkv Hk. apply sat_getGroupData. intros [e|] [g|];
    [apply sat_skip | apply sat_skip | | apply sat_throw].
  apply sat_mem_set; [apply Hev | apply Hkv |]. intros e b. apply Hk.
Qed.

Lemma sat_setGroupProperty (key : string) (value : Val) (info : nat) (cb : Callback) :
  sat RW PE (setGroupProperty key value info cb).
Proof.
  apply sat_with_info. intros o w.
  destruct (negb (includes (obj_read "threadId" o) (lockedThreads w)));
    [|apply sat_skip].
  revert w. apply sat_seq; [apply sat_modify, (q_heap _ _ Q)|].
  apply sat_seq; [|apply sat_modify, (q_timers _ _ Q)].
  apply sat_with_info. intros o'. apply sat_modify, (q_locks _ _ Q).
Qed.

Lemma sat_alloc (o : Obj) (k : nat -> Proc) :
  (forall l, sat RW PE (k l)) -> sat RW PE (alloc o k).
Proof.
  intros Hk w. unfold alloc.
  destruct (Hk (fresh (dom (heap w))) (set_heap (insert (fresh (dom (heap w))) o) w))
    as [Hw He].
  split; [|assumption].
  eapply (q_trans _ _ Q); [apply (q_heap _ _ Q) | exact Hw].
Qed.

Lemma sat_sendMessage (m threadId : string)
    (callback : option Err -> option string -> Proc) (replyId : option string) :
  (forall e i, sat RW PE (callback e i)) ->
  sat RW PE (sendMessage env m threadId callback replyId).
Proof.
  intros Hk. unfold sendMessage.
  destruct (String.eqb m EmptyString || String.eqb threadId EmptyString); [apply Hk|].
  intros w. unfold api_sendMessage.
  destruct (send_reply env (requests w)) as [|err minfo].
  - destruct (sat_seq _ _ (sat_console_log (LogText (threadId ++ ": " ++ m)))
                (Hk None None) (bump w)) as [Hw He].
    unfold out_app. simpl. split.
    + eapply (q_trans _ _ Q); [apply (q_bump _ _ Q) | exact Hw].
    + constructor; [apply (q_send _ _ Q) | exact He].
  - revert w. apply sat_request; [apply (q_send _ _ Q)|]. intros _.
    apply sat_seq; [apply Hk|].
    apply sat_getGroupInfo. intros e i.
    destruct minfo as [mid|]; [|apply sat_skip].
    destruct i as [i|]; [|apply sat_skip].
    destruct e as [e|]; [apply sat_console_log|].
    apply sat_alloc. intros l. apply sat_setGroupProperty.
Qed.

Lemma sat_sendError (m threadId : string) : sat RW PE (sendError env m threadId).
Proof. apply sat_sendMessage. intros; apply sat_skip. Qed.

End Sat.

(** ** The score ledger *)

(** A run of [updateScore] against a store that answers: one read, one
    write of the new score as text, one call of the callback. *)
Lemma updateScore_run (config : Config) (env : Env) (isAdd : bool)
    (userId : string) (id : nat) (w : World) :
  kv_get_error env (requests w) = None ->
  kv_set_error env (S (requests w)) = None ->
  let key := "userscore_" ++ userId in
  let score := current_score (kv w !! key) in
  let newScore :=
    if isAdd then num_add score (Int (vote_points config))
    else num_sub score (Int (vote_points config)) in
  updateScore config env isAdd userId (observe id) w =
    {| thrown := None;
       world := set_kv (insert key (Text (num_to_string newScore))) (bump (bump w));
       events := [EvMemGet key; EvMemSet key (Text (num_to_string newScore));
                  EvCallback id [ArgNull; ArgBool true; ArgNum newScore]] |}.
Proof.
  intros Hg Hs. unfold updateScore, getScore, setScore, mem_get, mem_set, request, deliver.
  rewrite Hg. cbn. rewrite Hs. reflexivity.
Qed.

(** C6.  With no [votePoints] configured and a store that answers,
    [updateScore(true, "U1")] on a missing score stores and reports 5, a second
    call 10, and [updateScore(false, "U1")] on a stored 10 stores and reports 5. *)
Theorem updateScore_default_points (config : Config) (env : Env) (id : nat)
    (w w' : World) :
  votePoints config = None ->
  (forall n, kv_get_error env n = None) ->
  (forall n, kv_set_error env n = None) ->
  kv w !! "userscore_U1" = None ->
  kv w' !! "userscore_U1" = Some (Text "10") ->
  let o1 := updateScore config env true "U1" (observe id) w in
  let o2 := updateScore config env true "U1" (observe id) (world o1) in
  let o3 := updateScore config env false "U1" (observe id) w' in
  (events o1 = [EvMemGet "userscore_U1"; EvMemSet "userscore_U1" (Text "5");
                EvCallback id [ArgNull; ArgBool true; ArgNum (Int 5)]]
   /\ kv (world o1) !! "userscore_U1" = Some (Text "5"))
  /\ (events o2 = [EvMemGet "userscore_U1"; EvMemSet "userscore_U1" (Text "10");
                   EvCallback id [ArgNull; ArgBool true; ArgNum (Int 10)]]
      /\ kv (world o2) !! "userscore_U1" = Some (Text "10"))
  /\ (events o3 = [EvMemGet "userscore_U1"; EvMemSet "userscore_U1" (Text "5");
                   EvCallback id [ArgNull; ArgBool true; ArgNum (Int 5)]]
      /\ kv (world o3) !! "userscore_U1" = Some (Text "5")).
Proof.
  intros Hp Hg Hs Hw Hw' o1 o2 o3.
  assert (E1 : o1 = {| thrown := None;
                       world := set_kv (insert "userscore_U1" (Text "5")) (bump (bump w));
                       events := [EvMemGet "userscore_U1";
                                  EvMemSet "userscore_U1" (Text "5");
                                  EvCallback id [ArgNull; ArgBool true; ArgNum (Int 5)]] |}).
  { unfold o1. rewrite updateScore_run by auto. cbv zeta.
    unfold vote_points. rewrite Hp.
    change ("userscore_" ++ "U1") with "userscore_U1". rewrite Hw. reflexivity. }
  assert (K1 : kv (world o1) !! "userscore_U1" = Some (Text "5")).
  { rewrite E1. simpl. apply lookup_insert_eq. }
  assert (E2 : o2 = {| thrown := None;
                       world := set_kv (insert "userscore_U1" (Text "10"))
                                  (bump (bump (world o1)));
                       events := [EvMemGet "userscore_U1";
                                  EvMemSet "userscore_U1" (Text "10");
                                  EvCallback id [ArgNull; ArgBool true; ArgNum (Int 10)]] |}).
  { unfold o2. rewrite updateScore_run by auto. cbv zeta.
    unfold vote_points. rewrite Hp.
    change ("userscore_" ++ "U1") with "userscore_U1". rewrite K1. reflexivity. }
  assert (E3 : o3 = {| thrown := None;
                       world := set_kv (insert "userscore_U1" (Text "5")) (bump (bump w'));
                       events := [EvMemGet "userscore_U1";
                                  EvMemSet "userscore_U1" (Text "5");
                                  EvCallback id [ArgNull; ArgBool true; ArgNum (Int 5)]] |}).
  { unfold o3. rewrite updateScore_run by auto. cbv zeta.
    unfold vote_points. rewrite Hp.
    change ("userscore_" ++ "U1") with "userscore_U1". rewrite Hw'. reflexivity. }
  rewrite E1, E2, E3. simpl. rewrite !lookup_insert_eq. auto.
Qed.

(** C10.  When the read of the current score fails, [updateScore] calls the
    callback with the error and goes on: the score counts as 0, 0 plus or
    minus the points is written, and the callback is called a second time
    with the result of the write. *)
Theorem updateScore_read_error_goes_on (config : Config) (env : Env)
    (isAdd : bool) (userId : string) (id : nat) (e : Err) (w : World) :
  kv_get_error env (requests w) = Some e ->
  let key := "userscore_" ++ userId in
  let newScore := Int (if isAdd then 0 + vote_points config else 0 - vote_points config) in
  let o := updateScore config env isAdd userId (observe id) w in
  events o =
    [EvMemGet key;
     EvCallback id [ArgError e];
     EvMemSet key (Text (num_to_string newScore));
     EvCallback id
       [arg_err (kv_set_error env (S (requests w)));
        ArgBool match kv_set_error env (S (requests w)) with
                | None => true
                | Some _ => false
                end;
        ArgNum newScore]]
  /\ (kv_set_error env (S (requests w)) = None ->
      kv (world o) = <[key := Text (num_to_string newScore)]> (kv w)).
Proof.
  intros Hg. unfold updateScore, getScore, setScore, mem_get, mem_set, request, deliver.
  rewrite Hg. cbn.
  destruct (kv_set_error env (S (requests w))) as [e'|]; destruct isAdd; cbn;
    (split; [reflexivity | intros H; first [discriminate H | reflexivity]]).
Qed.

Lemma updateScore_default_points_witness :
  (votePoints demo_config = None
   /\ (forall n, kv_get_error env_ok n = None)
   /\ (forall n, kv_set_error env_ok n = None)
   /\ kv world_empty !! "userscore_U1" = None
   /\ kv world_score_10 !! "userscore_U1" = Some (Text "10"))
  /\ events (updateScore demo_config env_ok true "U1" (observe 1) world_empty)
     = [EvMemGet "userscore_U1"; EvMemSet "userscore_U1" (Text "5");
        EvCallback 1 [ArgNull; ArgBool true; ArgNum (Int 5)]].
Proof.
  split.
  - repeat split; reflexivity.
  - apply (updateScore_default_points demo_config env_ok 1 world_empty world_score_10);
      reflexivity.
Defined.

Lemma updateScore_read_error_goes_on_witness :
  kv_get_error env_read_fails (requests world_empty) = Some "ETIMEDOUT"
  /\ events (updateScore demo_config env_read_fails false "U1" (observe 1) world_empty)
     = [EvMemGet "userscore_U1";
        EvCallback 1 [ArgError "ETIMEDOUT"];
        EvMemSet "userscore_U1" (Text "-5");
        EvCallback 1 [ArgNull; ArgBool true; ArgNum (Int (-5))]].
Proof.
  split; [reflexivity|].
  apply (updateScore_read_error_goes_on demo_config env_read_fails false "U1" 1
           "ETIMEDOUT" world_empty).
  reflexivity.
Defined.

(** C8, as stated, fails: [setScore("U1", "5")] writes the key
    [userscore_U1], and nothing is stored under [score:U1]. *)
Lemma setScore_key_is_not_score_colon :
  let o := setScore env_ok "U1" "5" (fun _ _ => skip) world_empty in
  events o = [EvMemSet "userscore_U1" (Text "5")]
  /\ ~ In (EvMemSet "score:U1" (Text "5")) (events o)
  /\ kv (world o) !! "score:U1" = None
  /\ kv (world o) !! "userscore_U1" = Some (Text "5").
Proof.
  cbv zeta. repeat split; try reflexivity.
  intros [H|[]]. discriminate H.
Qed.

(** C8, amended.  For every user id the ledger keeps the score under the key
    [userscore_<userId>]: [setScore] writes that key, [getScore] reads it and
    hands its value to the callback, so a score that was set is the score
    that is read. *)
Theorem score_key_is_userscore (env : Env) (userId score : string)
    (k : option Err -> option Blob -> Proc) (w : World) :
  let key := "userscore_" ++ userId in
  let o := setScore env userId score (fun _ _ => skip) w in
  events o = [EvMemSet key (Text score)]
  /\ world o = match kv_set_error env (requests w) with
               | None => set_kv (insert key (Text score)) (bump w)
               | Some _ => bump w
               end
  /\ getScore env userId k (world o) =
       out_app [EvMemGet key]
         (catch_out
            match kv_get_error env (S (requests w)) with
            | Some e => k (Some e) None (bump (world o))
            | None =>
                match kv_set_error env (requests w) with
                | None => k None (Some (Text score)) (bump (world o))
                | Some _ => k None (kv w !! key) (bump (world o))
                end
            end).
Proof.
  cbv zeta. unfold setScore, getScore, mem_set, mem_get, request, deliver.
  destruct (kv_set_error env (requests w)) as [e|] eqn:Hs; cbn.
  - repeat split. destruct (kv_get_error env (S (requests w))); reflexivity.
  - repeat split. destruct (kv_get_error env (S (requests w))); [reflexivity|].
    cbn. now rewrite lookup_insert_eq.
Qed.

(** ** The group record store *)

Lemma getGroupData_read_error (env : Env) (k : option Err -> option GroupData -> Proc)
    (e : Err) (w : World) :
  kv_get_error env (requests w) = Some e ->
  getGroupData env k w = out_app [EvMemGet "groups"] (catch_out (k (Some e) None (bump w))).
Proof.
  intros H. unfold getGroupData, mem_get, request, deliver. now rewrite H.
Qed.

Lemma getGroupData_read_ok (env : Env) (k : option Err -> option GroupData -> Proc)
    (g : GroupData) (w : World) :
  kv_get_error env (requests w) = None ->
  parse_groups (kv w !! "groups") = Some g ->
  getGroupData env k w = out_app [EvMemGet "groups"] (catch_out (k None (Some g) (bump w))).
Proof.
  intros H Hg. unfold getGroupData, mem_get, request, deliver. rewrite H. simpl.
  now rewrite Hg.
Qed.

(** The two readers hand a failed read to their callback. *)
Lemma getGroupInfo_read_error (env : Env) (threadId : string) (id : nat)
    (e : Err) (w : World) :
  kv_get_error env (requests w) = Some e ->
  getGroupInfo env threadId (observe_info id) w =
    {| thrown := None; world := bump w;
       events := [EvMemGet "groups"; EvCallback id [ArgError e]] |}.
Proof.
  intros H. unfold getGroupInfo. now rewrite (getGroupData_read_error _ _ e).
Qed.

(** [setGroupInfo] does not: the read error ends the run, the callback is
    not called and nothing is written. *)
Lemma setGroupInfo_read_error (env : Env) (info : Obj) (k : option Err -> Proc)
    (e : Err) (w : World) :
  kv_get_error env (requests w) = Some e ->
  setGroupInfo env info k w =
    {| thrown := None; world := bump w; events := [EvMemGet "groups"] |}.
Proof.
  intros H. unfold setGroupInfo. now rewrite (getGroupData_read_error _ _ e).
Qed.

(** It does report a failed write. *)
Lemma setGroupInfo_write_error (env : Env) (info : Obj) (id : nat)
    (g : GroupData) (e : Err) (w : World) :
  kv_get_error env (requests w) = None ->
  parse_groups (kv w !! "groups") = Some g ->
  kv_set_error env (S (requests w)) = Some e ->
  setGroupInfo env info (observe_err id) w =
    {| thrown := None; world := bump (bump w);
       events := [EvMemGet "groups";
                  EvMemSet "groups"
                    (JSON_stringify
                       (assoc_set (js_to_string (obj_read "threadId" info)) info g));
                  EvCallback id [ArgError e]] |}.
Proof.
  intros H Hg Hs. unfold setGroupInfo. rewrite (getGroupData_read_ok _ _ g) by assumption.
  unfold mem_set, request, deliver. cbn. now rewrite Hs.
Qed.

Lemma setGroupInfo_ok (env : Env) (info : Obj) (id : nat)
    (g : GroupData) (w : World) :
  kv_get_error env (requests w) = None ->
  parse_groups (kv w !! "groups") = Some g ->
  kv_set_error env (S (requests w)) = None ->
  let blob := JSON_stringify (assoc_set (js_to_string (obj_read "threadId" info)) info g) in
  setGroupInfo env info (observe_err id) w =
    {| thrown := None; world := set_kv (insert "groups" blob) (bump (bump w));
       events := [EvMemGet "groups"; EvMemSet "groups" blob; EvCallback id [ArgNull]] |}.
Proof.
  intros H Hg Hs. unfold setGroupInfo. rewrite (getGroupData_read_ok _ _ g) by assumption.
  unfold mem_set, request, deliver. cbn. now rewrite Hs.
Qed.

(** C5.  A failed read of the group blob in [setGroupInfo] does not reach the
    caller: with a store whose reads fail, the run is the read alone, and the
    callback (number 1 here) is never called. *)
Theorem setGroupInfo_read_error_not_reported :
  setGroupInfo env_read_fails demo_record (observe_err 1) world_stored =
    {| thrown := None; world := bump world_stored; events := [EvMemGet "groups"] |}
  /\ getGroupInfo env_read_fails "T1" (observe_info 1) world_stored =
       {| thrown := None; world := bump world_stored;
          events := [EvMemGet "groups"; EvCallback 1 [ArgError "ETIMEDOUT"]] |}.
Proof.
  split.
  - now apply (setGroupInfo_read_error _ _ _ "ETIMEDOUT").
  - now apply getGroupInfo_read_error.
Qed.

(** ** The group property updater *)

(** C2.  When the record's thread id is in the lock list, a call of
    [setGroupProperty] does nothing: the record, the store, the locks and
    the timers are as before and no event happens; as no timer is queued for
    it, the callback of the dropped call is not called later either. *)
Theorem setGroupProperty_locked_is_noop (key : string) (value : Val) (info : nat)
    (callback : Callback) (w : World) :
  includes (obj_read "threadId" (deref w info)) (lockedThreads w) = true ->
  setGroupProperty key value info callback w =
    {| thrown := None; world := w; events := [] |}
  /\ forall env actions,
       run env (ActSetProperty key value info callback :: actions) w = run env actions w.
Proof.
  intros H.
  assert (E : setGroupProperty key value info callback w =
              {| thrown := None; world := w; events := [] |}).
  { unfold setGroupProperty, with_info. now rewrite H. }
  split; [exact E|]. intros env actions. simpl. unfold seq. rewrite E. simpl.
  destruct (run env actions w). reflexivity.
Qed.

Lemma setGroupProperty_locked_is_noop_witness :
  includes (obj_read "threadId" (deref world_locked 0)) (lockedThreads world_locked) = true
  /\ setGroupProperty "pinned" (VObj []) 0 (CbUser 1) world_locked =
       {| thrown := None; world := world_locked; events := [] |}.
Proof.
  split; [reflexivity|].
  apply (setGroupProperty_locked_is_noop "pinned" (VObj []) 0 (CbUser 1) world_locked).
  reflexivity.
Defined.

Lemma deref_insert_eq (l : nat) (o : Obj) (w : World) :
  deref (set_heap (insert l o) w) l = o.
Proof. unfold deref. simpl. now rewrite lookup_insert_eq. Qed.

Lemma deref_insert_ne (l l' : nat) (o : Obj) (w : World) :
  l <> l' -> deref (set_heap (insert l o) w) l' = deref w l'.
Proof. intros H. unfold deref. simpl. now rewrite lookup_insert_ne. Qed.

(** A call on an unlocked thread: the record is changed in place, its thread
    id is locked and a timer is queued; nothing is read or written yet. *)
Lemma setGroupProperty_unlocked (key : string) (value : Val) (info : nat)
    (callback : Callback) (w : World) :
  includes (obj_read "threadId" (deref w info)) (lockedThreads w) = false ->
  let o := obj_set key value (deref w info) in
  setGroupProperty key value info callback w =
    {| thrown := None;
       world :=
         {| kv := kv w;
            lockedThreads := lockedThreads w ++ [obj_read "threadId" o];
            heap := <[info := o]> (heap w);
            timers := timers w ++ [{| t_info := info; t_callback := callback |}];
            requests := requests w |};
       events := [] |}.
Proof.
  intros H. unfold setGroupProperty, with_info. rewrite H. cbn.
  unfold with_info. cbn. rewrite deref_insert_eq. reflexivity.
Qed.

Lemma tick_fires (env : Env) (t : Timer) (ts : list Timer) (w : World) :
  timers w = t :: ts ->
  tick env w = catch_out (fire env t (set_timers (fun _ => ts) w)).
Proof. intros H. unfold tick. now rewrite H. Qed.

(** The timeout body when the read of the group blob fails. *)
Lemma fire_read_error (env : Env) (t : Timer) (e : Err) (w : World) :
  kv_get_error env (requests w) = Some e ->
  fire env t w = {| thrown := None; world := bump w; events := [EvMemGet "groups"] |}.
Proof.
  intros H. unfold fire, with_info. now apply (setGroupInfo_read_error _ _ _ e).
Qed.

(** The timeout body when the store answers the read. *)
Lemma fire_read_ok (env : Env) (t : Timer) (g : GroupData) (w : World) :
  kv_get_error env (requests w) = None ->
  parse_groups (kv w !! "groups") = Some g ->
  let o := deref w (t_info t) in
  let tid := obj_read "threadId" o in
  let blob := JSON_stringify (assoc_set (js_to_string tid) o g) in
  let err := kv_set_error env (S (requests w)) in
  fire env t w =
    {| thrown := None;
       world :=
         {| kv := match err with None => <["groups" := blob]> (kv w) | Some _ => kv w end;
            lockedThreads := without tid (lockedThreads w);
            heap := heap w; timers := timers w;
            requests := S (S (requests w)) |};
       events :=
         EvMemGet "groups" :: EvMemSet "groups" blob ::
         match t_callback t with
         | CbDefault => []
         | CbUser id => [EvCallback id [arg_err err]]
         end |}.
Proof.
  intros H Hg. unfold fire, with_info, setGroupInfo.
  rewrite (getGroupData_read_ok _ _ g) by assumption.
  unfold mem_set, request, deliver. cbn.
  destruct (kv_set_error env (S (requests w))); destruct (t_callback t); reflexivity.
Qed.

Lemma fire_read_unparsed (env : Env) (t : Timer) (w : World) :
  kv_get_error env (requests w) = None ->
  parse_groups (kv w !! "groups") = None ->
  fire env t w =
    {| thrown := None; world := bump w;
       events := [EvMemGet "groups"; EvUncaught "SyntaxError"] |}.
Proof.
  intros H Hg. unfold fire, with_info, setGroupInfo, getGroupData, mem_get, request, deliver.
  rewrite H. cbn. now rewrite Hg.
Qed.

(** Whatever the store answers, a timeout leaves the heap and the other
    timers alone, and takes at most its own thread id off the lock list. *)
Lemma fire_frame (env : Env) (t : Timer) (w : World) :
  let w' := world (catch_out (fire env t w)) in
  heap w' = heap w /\ timers w' = timers w
  /\ (lockedThreads w' = lockedThreads w
      \/ lockedThreads w' =
           without (obj_read "threadId" (deref w (t_info t))) (lockedThreads w)).
Proof.
  destruct (kv_get_error env (requests w)) as [e|] eqn:H.
  - rewrite (fire_read_error _ _ e) by assumption. cbn. auto.
  - destruct (parse_groups (kv w !! "groups")) as [g|] eqn:Hg.
    + rewrite (fire_read_ok _ _ g) by assumption. cbn. auto.
    + rewrite fire_read_unparsed by assumption. cbn. auto.
Qed.

Lemma stuck_act (env : Env) (tid : Val) (a : Action) (w : World) :
  keeps_threadId a -> stuck tid w -> stuck tid (world (act env a w)).
Proof.
  intros Ha [Hl Ht]. destruct a as [key value info cb| |o]; simpl in *.
  - destruct (includes (obj_read "threadId" (deref w info)) (lockedThreads w)) eqn:Hi.
    + unfold setGroupProperty, with_info. rewrite Hi. split; assumption.
    + rewrite setGroupProperty_unlocked by assumption. cbn [world].
      rewrite obj_read_set_ne by congruence.
      split; cbn [lockedThreads timers heap].
      * rewrite includes_app, Hl. reflexivity.
      * apply Forall_app. split.
        -- eapply Forall_impl; [|exact Ht]. intros t [Hne Hdom]. unfold deref. cbn.
           destruct (decide (info = t_info t)) as [->|Hneq].
           ++ rewrite lookup_insert_eq. cbn. split; [|eauto].
              rewrite obj_read_set_ne by congruence. exact Hne.
           ++ rewrite lookup_insert_ne by assumption. split; assumption.
        -- repeat constructor; unfold deref; cbn; rewrite lookup_insert_eq; cbn; [|eauto].
           rewrite obj_read_set_ne by congruence. intros Heq.
           change (default [] (heap w !! info)) with (deref w info) in Heq.
           rewrite Heq, Hl in Hi. discriminate.
  - unfold tick. destruct (timers w) as [|t ts] eqn:Htm; [split; [exact Hl | cbn; rewrite Htm; exact Ht]|].
    unfold deliver.
    destruct (fire_frame env t (set_timers (fun _ => ts) w)) as (Hh & Htm' & Hlk).
    apply Forall_cons_iff in Ht as [[Hne Hdom] Hts].
    split.
    + destruct Hlk as [-> | ->]; [exact Hl|]. cbn.
      rewrite includes_without_ne; [exact Hl|].
      intros Heq. apply Hne. symmetry. exact Heq.
    + rewrite Htm'. change (timers (set_timers (fun _ => ts) w)) with ts.
      eapply Forall_impl; [|exact Hts].
      intros t' [Hne' Hdom']. unfold deref. rewrite Hh. split; assumption.
  - unfold alloc. cbn. split; [assumption|].
    eapply Forall_impl; [|exact Ht]. intros t [Hne Hdom]. unfold deref. cbn.
    assert (fresh (dom (heap w)) <> t_info t).
    { intros Heq. apply (is_fresh (dom (heap w))). rewrite Heq. now apply elem_of_dom. }
    rewrite lookup_insert_ne by assumption. split; assumption.
Qed.

Lemma stuck_run (env : Env) (tid : Val) (actions : list Action) (w : World) :
  Forall keeps_threadId actions -> stuck tid w -> stuck tid (world (run env actions w)).
Proof.
  intros Ha. revert w. induction Ha as [|a rest Hk _ IH]; intros w Hs; [exact Hs|].
  simpl. unfold seq, bind_out.
  pose proof (stuck_act env tid a w Hk Hs) as Hs'.
  destruct (thrown (act env a w)); [exact Hs'|]. cbn. now apply IH.
Qed.

(** On an unlocked thread, with no other update in flight and a store that
    answers the read: the field is set on the record, the thread id is
    locked until the timeout, and the timeout writes the group map with the
    whole record under its thread id, takes the lock off and calls the
    callback with the result of the write. *)
Lemma setGroupProperty_unlocked_persists (env : Env) (key : string) (value : Val)
    (info id : nat) (g : GroupData) (w : World) :
  includes (obj_read "threadId" (deref w info)) (lockedThreads w) = false ->
  timers w = [] ->
  kv_get_error env (requests w) = None ->
  parse_groups (kv w !! "groups") = Some g ->
  let o := obj_set key value (deref w info) in
  let tid := obj_read "threadId" o in
  let blob := JSON_stringify (assoc_set (js_to_string tid) o g) in
  let err := kv_set_error env (S (requests w)) in
  let o1 := setGroupProperty key value info (CbUser id) w in
  let o2 := tick env (world o1) in
  (events o1 = [] /\ deref (world o1) info = o
   /\ lockedThreads (world o1) = (lockedThreads w ++ [tid])%list /\ kv (world o1) = kv w)
  /\ events o2 = [EvMemGet "groups"; EvMemSet "groups" blob; EvCallback id [arg_err err]]
  /\ kv (world o2) = match err with None => <["groups" := blob]> (kv w) | Some _ => kv w end
  /\ lockedThreads (world o2) = without tid (lockedThreads w ++ [tid])%list
  /\ includes tid (lockedThreads (world o2)) = false
  /\ timers (world o2) = [].
Proof.
  intros Hi Ht Hg Hp. cbv zeta.
  rewrite setGroupProperty_unlocked by assumption. cbn [world events].
  rewrite Ht. cbn [app].
  erewrite tick_fires by reflexivity.
  rewrite (fire_read_ok _ _ g) by assumption.
  unfold deref. cbn. rewrite lookup_insert_eq. cbn.
  repeat split. apply includes_without_same.
Qed.

(** C9.  If the read inside the persist step fails, [setGroupInfo] never
    calls back, so the thread id stays in the lock list: the timer is gone,
    nothing was written, and after any further calls of [setGroupProperty]
    and timeouts the thread is still locked, so every call for it does
    nothing. *)
Theorem read_error_in_persist_locks_thread_for_good (env : Env) (key : string)
    (value : Val) (info : nat) (callback : Callback) (e : Err) (w : World)
    (actions : list Action) :
  key <> "threadId" ->
  includes (obj_read "threadId" (deref w info)) (lockedThreads w) = false ->
  timers w = [] ->
  kv_get_error env (requests w) = Some e ->
  Forall keeps_threadId actions ->
  let tid := obj_read "threadId" (deref w info) in
  let o1 := setGroupProperty key value info callback w in
  let o2 := tick env (world o1) in
  let w3 := world (run env actions (world o2)) in
  (events o2 = [EvMemGet "groups"] /\ kv (world o2) = kv w /\ timers (world o2) = [])
  /\ includes tid (lockedThreads (world o2)) = true
  /\ includes tid (lockedThreads w3) = true
  /\ forall k v i c,
       obj_read "threadId" (deref w3 i) = tid ->
       setGroupProperty k v i c w3 = {| thrown := None; world := w3; events := [] |}.
Proof.
  intros Hk Hi Ht Hg Ha. cbv zeta.
  rewrite setGroupProperty_unlocked by assumption. cbn [world].
  rewrite Ht. cbn [app].
  erewrite tick_fires by reflexivity.
  rewrite (fire_read_error _ _ e) by assumption.
  cbn [catch_out thrown world events].
  rewrite obj_read_set_ne by congruence.
  set (tid := obj_read "threadId" (deref w info)).
  set (w2 := bump _).
  assert (Hs : stuck tid w2).
  { split; [|constructor]. unfold w2. cbn.
    rewrite includes_app. replace (includes tid [tid]) with true;
      [apply Bool.orb_true_r|].
    symmetry. apply includes_true. now left. }
  pose proof (stuck_run env tid actions w2 Ha Hs) as [Hl3 _].
  repeat split; try reflexivity.
  - apply Hs.
  - exact Hl3.
  - intros k v i c Hti. unfold setGroupProperty, with_info. now rewrite Hti, Hl3.
Qed.

Lemma read_error_in_persist_locks_thread_for_good_witness :
  ("pinned" <> "threadId"
   /\ includes (obj_read "threadId" (deref world_stored 0)) (lockedThreads world_stored) = false
   /\ timers world_stored = []
   /\ kv_get_error env_read_fails (requests world_stored) = Some "ETIMEDOUT"
   /\ Forall keeps_threadId [ActTick; ActSetProperty "events" (VObj []) 0 (CbUser 2); ActTick])
  /\ includes (VStr "T1")
       (lockedThreads
          (world
             (run env_read_fails
                [ActTick; ActSetProperty "events" (VObj []) 0 (CbUser 2); ActTick]
                (world
                   (tick env_read_fails
                      (world (setGroupProperty "pinned" (VObj []) 0 (CbUser 1) world_stored)))))))
     = true.
Proof.
  assert (H1 : "pinned" <> "threadId") by discriminate.
  assert (H5 : Forall keeps_threadId
                 [ActTick; ActSetProperty "events" (VObj []) 0 (CbUser 2); ActTick]).
  { repeat constructor. discriminate. }
  split.
  - repeat split; try reflexivity; assumption.
  - apply (read_error_in_persist_locks_thread_for_good env_read_fails "pinned" (VObj []) 0
             (CbUser 1) "ETIMEDOUT" world_stored
             [ActTick; ActSetProperty "events" (VObj []) 0 (CbUser 2); ActTick]
             H1 eq_refl eq_refl eq_refl H5).
Defined.

(** C3.  On an unlocked thread the persist step can end without a write,
    with the lock still held and without a call of the callback: here the
    store fails the read of the group blob.  (With a store that answers,
    [setGroupProperty_unlocked_persists] is what happens.) *)
Theorem setGroupProperty_read_error_run :
  let o1 := setGroupProperty "pinned" (VObj []) 0 (CbUser 1) world_stored in
  let o2 := tick env_read_fails (world o1) in
  includes (obj_read "threadId" (deref world_stored 0)) (lockedThreads world_stored) = false
  /\ obj_read "pinned" (deref (world o1) 0) = VObj []
  /\ lockedThreads (world o1) = [VStr "T1"]
  /\ events o2 = [EvMemGet "groups"]
  /\ kv (world o2) = kv world_stored
  /\ lockedThreads (world o2) = [VStr "T1"]
  /\ timers (world o2) = [].
Proof. cbv zeta. repeat split; reflexivity. Qed.

(** ** The group info refresher *)

Lemma same_store_background :
  Quiet same_store (fun ev => background ev = true).
Proof. split; try reflexivity. unfold same_store. congruence. Qed.

Lemma add_member_bot_excluded (config : Config) (acc : Obj * Obj)
    (entry : string * UserInfo) :
  bot_excluded (bot_id config) (fst acc) (snd acc) ->
  bot_excluded (bot_id config) (fst (add_member config acc entry))
    (snd (add_member config acc entry)).
Proof.
  intros [Hm Hn]. unfold add_member.
  destruct (String.eqb (fst entry) (bot_id config)) eqn:E; simpl; [split; assumption|].
  apply String.eqb_neq in E. split.
  - intros name. destruct (String.eqb name (toLowerCase (firstName (snd entry)))) eqn:En.
    + apply String.eqb_eq in En. subst name. rewrite obj_get_set_eq. congruence.
    + apply String.eqb_neq in En. rewrite obj_get_set_ne by assumption. apply Hm.
  - rewrite obj_get_set_ne by congruence. exact Hn.
Qed.

Lemma fold_add_member_bot_excluded (config : Config)
    (userData : list (string * UserInfo)) (acc : Obj * Obj) :
  bot_excluded (bot_id config) (fst acc) (snd acc) ->
  bot_excluded (bot_id config) (fst (fold_left (add_member config) userData acc))
    (snd (fold_left (add_member config) userData acc)).
Proof.
  revert acc. induction userData as [|entry rest IH]; intros acc H; [exact H|].
  simpl. apply IH. now apply add_member_bot_excluded.
Qed.

(** What the refresh leaves in a record when the participants were looked
    up: [members] and [names] are rebuilt without the bot, and [admins] is
    the list that was there before the lookup. *)
Lemma merge_user_data_bot_excluded (config : Config) (env : Env) (info info' : Obj)
    (userData : list (string * UserInfo)) :
  merge_user_data config env info userData = Some info' ->
  (exists members names,
      obj_read "members" info' = VObj members
      /\ obj_read "names" info' = VObj names
      /\ bot_excluded (bot_id config) members names)
  /\ obj_read "admins" info' = obj_read "admins" info.
Proof.
  unfold merge_user_data.
  set (mn := fold_left (add_member config) userData ([], [])).
  assert (Hmn : bot_excluded (bot_id config) (fst mn) (snd mn)).
  { apply fold_add_member_bot_excluded. split; [intros name H; discriminate H | reflexivity]. }
  destruct (as_obj _) as [al|]; [|discriminate].
  destruct (val_eqb _ _); intros [= <-];
    (split; [exists (fst mn), (snd mn); split; [|split; [|exact Hmn]]|]);
    repeat (rewrite obj_read_set_ne by discriminate);
    rewrite ?obj_read_set_eq; reflexivity.
Qed.

Lemma merge_thread_data_admins (config : Config) (threadId : string) (message : Val)
    (existingInfo : option Obj) (data : ThreadData) :
  obj_read "admins" (merge_thread_data config threadId message existingInfo data)
  = VArr match adminIDs data with
         | Some ids => map (obj_read "id") ids
         | None => []
         end.
Proof.
  unfold merge_thread_data. destruct existingInfo;
    repeat (rewrite obj_read_set_ne by discriminate); apply obj_read_set_eq.
Qed.

Lemma anything_goes (PE : Event -> Prop) :
  (forall k, PE (EvMemGet k)) ->
  (forall m t r, PE (EvSendMessage m t r)) ->
  (forall i, PE (EvLog i)) ->
  (forall e, PE (EvUncaught e)) ->
  Quiet (fun _ _ => True) PE.
Proof. intros. split; auto. Qed.

(** C1, amended.  After a refresh that ends well (the callback gets no error
    and the record) and in which the provider answered the thread and the
    participant lookups, the bot's id is no value of the record's [members]
    and no key of its [names]; its [admins] is the provider's list of admin
    ids as it came. *)
Theorem updateGroupInfo_excludes_bot_from_members (config : Config) (env : Env)
    (threadId : string) (message : Val) (id : nat) (data : ThreadData)
    (info : Obj) (w : World) :
  (forall n, fst (user_reply env n) = None) ->
  (forall n, snd (thread_reply env n) = Some data) ->
  In (EvCallback id [ArgNull; ArgInfo info])
     (events (updateGroupInfo config env threadId message (observe_info id) w)) ->
  (exists members names,
      obj_read "members" info = VObj members
      /\ obj_read "names" info = VObj names
      /\ (forall name, obj_get name members <> Some (VStr (bot_id config)))
      /\ obj_get (bot_id config) names = None)
  /\ obj_read "admins" info
     = VArr match adminIDs data with
            | Some ids => map (obj_read "id") ids
            | None => []
            end.
Proof.
  intros Huser Hthread Hin.
  set (good := fun i : Obj =>
         (exists members names,
             obj_read "members" i = VObj members
             /\ obj_read "names" i = VObj names
             /\ bot_excluded (bot_id config) members names)
         /\ obj_read "admins" i
            = VArr match adminIDs data with
                   | Some ids => map (obj_read "id") ids
                   | None => []
                   end).
  set (PE := fun ev => forall i, ev = EvCallback id [ArgNull; ArgInfo i] -> good i).
  assert (Q : Quiet (fun _ _ => True) PE).
  { apply anything_goes; intros; intros ? Hi; discriminate Hi. }
  assert (Hfail : forall e : option Err,
             sat (fun _ _ => True) PE (console_log (LogError e) ;; observe_info id e None)).
  { intros e. apply sat_seq; [assumption | now apply sat_console_log |].
    apply sat_emit; [assumption|]. hnf; intros ? Hi; discriminate Hi. }
  assert (Hsend : forall m t, sat (fun _ _ => True) PE
                                (sendMessage env m t (fun _ _ => skip) None)).
  { intros. apply sat_sendMessage; [assumption|]. intros. now apply sat_skip. }
  assert (S : sat (fun _ _ => True) PE
                (updateGroupInfo config env threadId message (observe_info id))).
  { unfold updateGroupInfo.
    apply sat_getGroupInfo; [assumption|]. intros e1 existingInfo.
    apply sat_getGroupInfo; [assumption|]. intros e2 ownerData.
    destruct e1 as [e1|]; [apply Hfail|].
    destruct e2 as [e2|]; [apply Hfail|].
    apply sat_seq; [assumption | |].
    - destruct existingInfo; [now apply sat_skip|].
      apply sat_seq; [assumption | |].
      + destruct (negb (dbFailSilently config) || _); [|now apply sat_skip].
        apply sat_seq; [assumption | apply Hsend |].
        apply sat_emit; [assumption|]. hnf; intros ? Hi; discriminate Hi.
      + apply sat_emit; [assumption|]. hnf; intros ? Hi; discriminate Hi.
    - apply sat_request; [assumption | hnf; intros ? Hi; discriminate Hi |]. intros w1.
      specialize (Hthread (requests w1)).
      destruct (thread_reply env (requests w1)) as [e3 d]. simpl in Hthread. subst d.
      cbn [fst snd].
      apply sat_request; [assumption | hnf; intros ? Hi; discriminate Hi |]. intros w2.
      specialize (Huser (requests w2)).
      destruct (user_reply env (requests w2)) as [e4 userData]. simpl in Huser. subst e4.
      cbn [fst snd].
      destruct (merge_user_data config env _ userData) as [info'|] eqn:Hm;
        [|now apply sat_throw].
      apply merge_user_data_bot_excluded in Hm as [Hbot Hadm].
      rewrite merge_thread_data_admins in Hadm.
      apply sat_seq; [assumption | |].
      + destruct (_ && _); [apply Hsend | now apply sat_skip].
      + apply sat_setGroupInfo; [assumption | | auto |].
        * intros v. hnf. intros ? Hi. discriminate Hi.
        * intros e5. apply sat_seq; [assumption | |].
          -- destruct (_ && _); [apply Hsend | now apply sat_skip].
          -- apply sat_emit; [assumption|]. hnf. intros i [= _ <-]. split; assumption. }
  destruct (S w) as [_ Hall]. rewrite Forall_forall in Hall.
  destruct (Hall _ Hin info eq_refl) as [(members & names & Hm & Hn & Hb1 & Hb2) Hadm].
  split; [|exact Hadm]. exists members, names. auto.
Qed.

Lemma updateGroupInfo_excludes_bot_from_members_witness :
  ((forall n, fst (user_reply env_ok n) = None)
   /\ (forall n, snd (thread_reply env_ok n) = Some demo_thread)
   /\ In (EvCallback 1 [ArgNull; ArgInfo demo_refreshed])
        (events (updateGroupInfo demo_config env_ok "T1" (VStr "hi")
                   (observe_info 1) world_empty)))
  /\ obj_read "admins" demo_refreshed
     = VArr match adminIDs demo_thread with
            | Some ids => map (obj_read "id") ids
            | None => []
            end.
Proof.
  assert (H3 : In (EvCallback 1 [ArgNull; ArgInfo demo_refreshed])
                 (events (updateGroupInfo demo_config env_ok "T1" (VStr "hi")
                            (observe_info 1) world_empty))).
  { vm_compute. repeat (first [left; reflexivity | right]). }
  split.
  - split; [reflexivity | split; [reflexivity | exact H3]].
  - apply (updateGroupInfo_excludes_bot_from_members demo_config env_ok "T1" (VStr "hi") 1
             demo_thread demo_refreshed world_empty
             (fun _ => eq_refl) (fun _ => eq_refl) H3).
Defined.

(** C1, as stated, fails for [admins]: in a thread where the bot is an admin,
    the refresh ends well, and the record it hands over and stores has the
    bot's id in [admins]. *)
Lemma updateGroupInfo_keeps_bot_in_admins :
  let o := updateGroupInfo demo_config env_ok "T1" (VStr "hi") (observe_info 1)
             world_empty in
  In (EvCallback 1 [ArgNull; ArgInfo demo_refreshed]) (events o)
  /\ kv (world o) !! "groups" = Some (Groups [("T1", demo_refreshed)])
  /\ obj_read "admins" demo_refreshed = VArr [VStr "U1"; VStr "BOT"]
  /\ In (VStr (bot_id demo_config)) [VStr "U1"; VStr "BOT"].
Proof.
  cbv zeta. split; [|split; [|split]].
  - vm_compute. repeat (first [left; reflexivity | right]).
  - reflexivity.
  - reflexivity.
  - right. left. reflexivity.
Qed.

(** ** Events *)

Lemma deref_defined (w : World) (l : nat) (k : string) (v : Val) :
  obj_get k (deref w l) = Some v -> is_Some (heap w !! l).
Proof.
  unfold deref. destruct (heap w !! l); [eauto | discriminate].
Qed.

(** The bookkeeping of [sendMessage]: the record read from the store becomes
    an object of its own, and [setGroupProperty] is called on it. *)
Lemma alloc_setGroupProperty (r : Obj) (key : string) (value : Val)
    (callback : Callback) (w : World) :
  let l := fresh (dom (heap w)) in
  alloc r (fun l => setGroupProperty key value l callback) w =
    if includes (obj_read "threadId" r) (lockedThreads w) then
      {| thrown := None; world := set_heap (insert l r) w; events := [] |}
    else
      {| thrown := None;
         world :=
           {| kv := kv w;
              lockedThreads :=
                lockedThreads w ++ [obj_read "threadId" (obj_set key value r)];
              heap := <[l := obj_set key value r]> (<[l := r]> (heap w));
              timers := timers w ++ [{| t_info := l; t_callback := callback |}];
              requests := requests w |};
         events := [] |}.
Proof.
  cbv zeta. unfold alloc. set (l := fresh (dom (heap w))).
  assert (Hd : deref (set_heap (insert l r) w) l = r) by apply deref_insert_eq.
  destruct (includes (obj_read "threadId" r) (lockedThreads w)) eqn:Hi.
  - unfold setGroupProperty, with_info. rewrite Hd. cbn [lockedThreads set_heap].
    now rewrite Hi.
  - rewrite setGroupProperty_unlocked; rewrite Hd; [reflexivity | exact Hi].
Qed.

(** The key of an event is found by the test of [addEvent]. *)
Lemma has_truthy_event (k : string) (evs ev : Obj) :
  obj_get k evs = Some (VObj ev) -> has_truthy k evs = true.
Proof. intros H. unfold has_truthy. now rewrite H. Qed.

(** C7.  When the record's [events] has something under the normalized
    title, as it has when that is the key of an event
    ([has_truthy_event]), [addEvent] fails:
    the call sends the error message, first, and besides that only reads or
    logs; it throws nothing, creates no event, leaves the record as it is and
    writes nothing to the store.  The normalization is that of the engine,
    whatever the text.  What the call can leave behind is the bookkeeping of
    [sendMessage], which runs apart from it: a timer on a copy of the stored
    record of the thread with [lastBotMessageID] set, and with the stored
    [events]. *)
Theorem addEvent_existing_title (config : Config) (env : Env)
    (js_trim js_toLowerCase : string -> string) (title at_ : string)
    (sender : Val) (groupInfo : nat) (threadId : string) (evs : Obj) (w : World) :
  obj_get "events" (deref w groupInfo) = Some (VObj evs) ->
  has_truthy (js_toLowerCase (js_trim title)) evs = true ->
  threadId <> EmptyString ->
  let o := addEvent config env js_trim js_toLowerCase title at_ sender groupInfo
             threadId w in
  let msg :=
    "Error: " ++ "An event already exists called " ++ dq ++ title ++ dq
    ++ ". Please delete it if you wish to make a new one." in
  thrown o = None
  /\ (exists rest,
         events o = EvSendMessage msg threadId None :: rest
         /\ Forall (fun e => background e = true /\ is_send e = false) rest)
  /\ kv (world o) = kv w
  /\ deref (world o) groupInfo = deref w groupInfo
  /\ (timers (world o) = timers w
      \/ exists l g r mid,
           heap w !! l = None
           /\ parse_groups (kv w !! "groups") = Some g
           /\ assoc_get threadId g = Some r
           /\ timers (world o) = (timers w ++ [{| t_info := l; t_callback := CbDefault |}])%list
           /\ deref (world o) l = obj_set "lastBotMessageID" (VStr mid) r
           /\ obj_read "events" (deref (world o) l) = obj_read "events" r).
Proof.
  intros He Hk Hn. cbv zeta.
  pose proof (deref_defined _ _ _ _ He) as Hdom.
  assert (He' : obj_read "events" (deref w groupInfo) = VObj evs).
  { unfold obj_read. now rewrite He. }
  unfold addEvent, with_info. rewrite He'. cbn [as_obj]. rewrite Hk.
  unfold sendError, sendMessage.
  apply String.eqb_neq in Hn. rewrite Hn.
  change (String.eqb ("Error: " ++ ?x) EmptyString) with false.
  cbn [orb]. unfold api_sendMessage.
  destruct (send_reply env (requests w)) as [|err minfo].
  { cbn. repeat split; eauto 6; try (eexists; split; [reflexivity | repeat constructor]). }
  unfold request, deliver, getGroupInfo, getGroupData, mem_get, request, deliver. cbn.
  destruct (kv_get_error env (S (requests w))) as [e|]; cbn.
  { destruct minfo; cbn; repeat split; eauto 6; try (eexists; split; [reflexivity | repeat constructor]). }
  destruct (parse_groups (kv w !! "groups")) as [g|] eqn:Hg; cbn;
    [|repeat split; eauto 6; try (eexists; split; [reflexivity | repeat constructor])].
  destruct (assoc_get threadId g) as [r|] eqn:Hr;
    [|destruct minfo; cbn; repeat split; eauto 6; try (eexists; split; [reflexivity | repeat constructor])].
  destruct minfo as [mid|]; cbn; [|repeat split; eauto 6; try (eexists; split; [reflexivity | repeat constructor])].
  rewrite alloc_setGroupProperty. cbn [lockedThreads bump].
  set (l := fresh (dom (heap w))).
  assert (Hl : heap w !! l = None).
  { apply not_elem_of_dom. apply is_fresh. }
  assert (Hne : l <> groupInfo).
  { intros ->. rewrite Hl in Hdom. destruct Hdom as [? ?]. discriminate. }
  destruct (includes (obj_read "threadId" r) (lockedThreads w)) eqn:Hi; cbn.
  - repeat split; eauto 6.
    unfold deref. cbn. now rewrite lookup_insert_ne.
  - repeat split; eauto 6.
    + unfold deref. cbn. rewrite !lookup_insert_ne by assumption. reflexivity.
    + right. exists l, g, r, mid. unfold deref. cbn. rewrite lookup_insert_eq. cbn.
      repeat split; try assumption.
      now rewrite obj_read_set_ne by discriminate.
Qed.

Lemma addEvent_existing_title_witness :
  (obj_get "events" (deref world_stored 0) = Some (VObj [("party", VObj demo_event)])
   /\ has_truthy (toLowerCase (trim " Party")) [("party", VObj demo_event)] = true
   /\ "T1" <> EmptyString)
  /\ let o := addEvent demo_config env_ok trim toLowerCase " Party" "tomorrow" (VStr "U2")
                0 "T1" world_stored in
     thrown o = None
     /\ events o
        = [EvSendMessage
             ("Error: An event already exists called " ++ dq ++ " Party" ++ dq
              ++ ". Please delete it if you wish to make a new one.") "T1" None;
           EvMemGet "groups"]
     /\ kv (world o) = kv world_stored
     /\ deref (world o) 0%nat = demo_record.
Proof.
  assert (H3 : "T1" <> EmptyString) by discriminate.
  split.
  - split; [reflexivity | split; [reflexivity | exact H3]].
  - destruct (addEvent_existing_title demo_config env_ok trim toLowerCase " Party"
                "tomorrow" (VStr "U2") 0 "T1" [("party", VObj demo_event)] world_stored
                eq_refl eq_refl H3)
      as (Ht & _ & Hkv & Hd & _).
    cbv zeta. split; [exact Ht|]. split; [reflexivity|]. split; [exact Hkv | exact Hd].
Defined.

(** ** What a message leaves behind *)

Lemma append_nonempty_l (a b : string) : a <> EmptyString -> (a ++ b)%string <> EmptyString.
Proof. destruct a; [congruence | discriminate]. Qed.

(** What [sendMessage] with the default callback does, for a message and a
    thread id that are not empty: one request to the provider; then at most a
    read of the store, a log line or a lost exception; the store and the
    records held are as before; and at most one timer is queued, for the
    bookkeeping of the message id. *)
Lemma sendMessage_default_run (env : Env) (m threadId : string)
    (replyId : option string) (w : World) :
  m <> EmptyString -> threadId <> EmptyString ->
  let o := sendMessage env m threadId (fun _ _ => skip) replyId w in
  thrown o = None
  /\ (exists rest,
         events o = EvSendMessage m threadId replyId :: rest
         /\ Forall (fun e => background e = true /\ is_send e = false) rest)
  /\ kv (world o) = kv w
  /\ (forall l, is_Some (heap w !! l) -> deref (world o) l = deref w l)
  /\ (timers (world o) = timers w /\ lockedThreads (world o) = lockedThreads w
      \/ exists l g r mid,
           heap w !! l = None
           /\ parse_groups (kv w !! "groups") = Some g
           /\ assoc_get threadId g = Some r
           /\ includes (obj_read "threadId" r) (lockedThreads w) = false
           /\ timers (world o) = (timers w ++ [{| t_info := l; t_callback := CbDefault |}])%list
           /\ lockedThreads (world o)
              = (lockedThreads w
                 ++ [obj_read "threadId" (obj_set "lastBotMessageID" (VStr mid) r)])%list
           /\ deref (world o) l = obj_set "lastBotMessageID" (VStr mid) r).
Proof.
  intros Hm Hn. cbv zeta. unfold sendMessage.
  apply String.eqb_neq in Hm, Hn. rewrite Hm, Hn. cbn [orb]. unfold api_sendMessage.
  destruct (send_reply env (requests w)) as [|err minfo].
  { cbn. repeat split; eauto 6; try (eexists; split; [reflexivity | repeat constructor]). }
  unfold request, deliver, getGroupInfo, getGroupData, mem_get, request, deliver. cbn.
  destruct (kv_get_error env (S (requests w))) as [e|]; cbn.
  { destruct minfo; cbn; repeat split; eauto 6;
      try (eexists; split; [reflexivity | repeat constructor]). }
  destruct (parse_groups (kv w !! "groups")) as [g|] eqn:Hg; cbn;
    [|repeat split; eauto 6; try (eexists; split; [reflexivity | repeat constructor])].
  destruct (assoc_get threadId g) as [r|] eqn:Hr;
    [|destruct minfo; cbn; repeat split; eauto 6;
      try (eexists; split; [reflexivity | repeat constructor])].
  destruct minfo as [mid|]; cbn;
    [|repeat split; eauto 6; try (eexists; split; [reflexivity | repeat constructor])].
  rewrite alloc_setGroupProperty. cbn [lockedThreads bump].
  set (l := fresh (dom (heap w))).
  assert (Hl : heap w !! l = None).
  { apply not_elem_of_dom. apply is_fresh. }
  assert (Hne : forall l', is_Some (heap w !! l') -> l <> l').
  { intros l' [x Hx] ->. rewrite Hl in Hx. discriminate. }
  destruct (includes (obj_read "threadId" r) (lockedThreads w)) eqn:Hi; cbn.
  - repeat split; eauto 6; try (eexists; split; [reflexivity | repeat constructor]).
    intros l' Hl'. unfold deref. cbn. rewrite lookup_insert_ne by auto. reflexivity.
  - repeat split; eauto 6; try (eexists; split; [reflexivity | repeat constructor]).
    + intros l' Hl'. unfold deref. cbn. rewrite !lookup_insert_ne by auto. reflexivity.
    + right. exists l, g, r, mid. unfold deref. cbn. rewrite lookup_insert_eq. cbn.
      repeat split; assumption.
Qed.

Lemma thrown_catch_out (o : Out) : thrown (catch_out o) = None.
Proof.
  unfold catch_out. destruct (thrown o) eqn:E; [reflexivity | exact E].
Qed.

Lemma thrown_request {A} (ev : Event) (reply : World -> A) (k : A -> Proc) (w : World) :
  thrown (request ev reply k w) = None.
Proof. unfold request, out_app, deliver. cbn. apply thrown_catch_out. Qed.

(** ** The refresher when the provider has no data *)

Lemma getGroupInfo_run_ok (env : Env) (threadId : string)
    (k : option Err -> option Obj -> Proc) (w : World) (g : GroupData) :
  kv_get_error env (requests w) = None ->
  parse_groups (kv w !! "groups") = Some g ->
  getGroupInfo env threadId k w
  = out_app [EvMemGet "groups"] (catch_out (k None (assoc_get threadId g) (bump w))).
Proof.
  intros He Hg. unfold getGroupInfo, getGroupData, mem_get, request, deliver.
  rewrite He. cbn [fst snd]. rewrite Hg. destruct (assoc_get threadId g); reflexivity.
Qed.

(** The greeting to a thread that the store has no record of: nothing is
    thrown, the store and the timers are as before, and every event is a
    background event. *)
Lemma sendMessage_unknown_thread (env : Env) (m threadId : string) (g : GroupData)
    (w : World) :
  parse_groups (kv w !! "groups") = Some g ->
  assoc_get threadId g = None ->
  let o := sendMessage env m threadId (fun _ _ => skip) None w in
  thrown o = None
  /\ kv (world o) = kv w
  /\ timers (world o) = timers w
  /\ Forall (fun ev => background ev = true) (events o).
Proof.
  intros Hg Hnew. cbv zeta.
  destruct (String.eqb m EmptyString || String.eqb threadId EmptyString) eqn:Hempty.
  { unfold sendMessage. rewrite Hempty. repeat split. constructor. }
  apply orb_false_elim in Hempty as [Hm Ht].
  apply String.eqb_neq in Hm, Ht.
  destruct (sendMessage_default_run env m threadId None w Hm Ht)
    as (Hthrown & (rest & Hev & Hrest) & Hkv & _ & Htimers).
  repeat split; try assumption.
  - destruct Htimers as [[Hsame _] | (l & g' & r & mid & _ & Hg' & Hr & _)];
      [exact Hsame|].
    rewrite Hg in Hg'. injection Hg' as <-. rewrite Hnew in Hr. discriminate Hr.
  - rewrite Hev. constructor; [reflexivity|].
    eapply Forall_impl; [|exact Hrest]. intros ev [Hb _]. exact Hb.
Qed.

Lemma filter_background (f : Event -> bool) (l : list Event) :
  (forall ev, background ev = true -> f ev = false) ->
  Forall (fun ev => background ev = true) l ->
  List.filter f l = [].
Proof.
  intros Hf. induction 1 as [|ev l Hev _ IH]; [reflexivity|].
  cbn [List.filter]. now rewrite (Hf ev Hev).
Qed.

(** C4.  A refresh whose two reads of the store are answered, for a thread
    the provider has no data for: the refresh asks the provider, then logs
    twice and calls the callback, these three one after the other, and this
    is the only call of the callback, with the provider's error.  Nothing is
    thrown, nothing is written, no timer is queued, and the store is as it
    was.  For a thread that has a record the run is the two reads, the
    request, the two log lines and the call. *)
Theorem updateGroupInfo_thread_fetch_fails (config : Config) (env : Env)
    (threadId : string) (message : Val) (id : nat) (err : option Err)
    (g : GroupData) (w : World) :
  kv_get_error env (requests w) = None ->
  kv_get_error env (S (requests w)) = None ->
  parse_groups (kv w !! "groups") = Some g ->
  (forall n, thread_reply env n = (err, None)) ->
  let o := updateGroupInfo config env threadId message (observe_info id) w in
  let closing := [EvLog (LogText ("Error: Thread info not found for " ++ threadId));
                  EvLog (LogError err);
                  EvCallback id [arg_err err]] in
  thrown o = None
  /\ kv (world o) = kv w
  /\ timers (world o) = timers w
  /\ List.filter is_write (events o) = []
  /\ List.filter is_callback (events o) = [EvCallback id [arg_err err]]
  /\ (exists pre post,
         events o = (pre ++ closing ++ post)%list
         /\ In (EvGetThreadInfo threadId) pre)
  /\ (is_Some (assoc_get threadId g) ->
      events o
      = ([EvMemGet "groups"; EvMemGet "groups"; EvGetThreadInfo threadId]
         ++ closing)%list).
Proof.
  intros Hread1 Hread2 Hg Hfetch. cbv zeta.
  set (closing := [EvLog (LogText ("Error: Thread info not found for " ++ threadId));
                   EvLog (LogError err);
                   EvCallback id [arg_err err]]).
  assert (E : exists greet wp,
             updateGroupInfo config env threadId message (observe_info id) w
             = {| thrown := None; world := wp;
                  events := ([EvMemGet "groups"; EvMemGet "groups"] ++ greet
                             ++ [EvGetThreadInfo threadId] ++ closing)%list |}
             /\ kv wp = kv w
             /\ timers wp = timers w
             /\ Forall (fun ev => background ev = true) greet
             /\ (is_Some (assoc_get threadId g) -> greet = [])).
  { unfold updateGroupInfo.
    rewrite (getGroupInfo_run_ok env threadId _ w g Hread1 Hg).
    rewrite (getGroupInfo_run_ok env (owner_id config) _ (bump w) g Hread2 Hg).
    cbv zeta.
    match goal with
    | |- context [(?P ;; ?Q) (bump (bump w))] => set (p := P); set (q := Q)
    end.
    assert (HP : thrown (p (bump (bump w))) = None
                 /\ kv (world (p (bump (bump w)))) = kv w
                 /\ timers (world (p (bump (bump w)))) = timers w
                 /\ Forall (fun ev => background ev = true) (events (p (bump (bump w))))
                 /\ (is_Some (assoc_get threadId g) -> events (p (bump (bump w))) = [])).
    { unfold p. destruct (assoc_get threadId g) as [r|] eqn:Hex.
      - repeat split. constructor.
      - assert (Hnone : ~ is_Some (@None Obj)) by (intros [x Hx]; discriminate Hx).
        destruct (negb (dbFailSilently config) || _).
        + destruct (sendMessage_unknown_thread env (greeting config) threadId g
                      (bump (bump w)) Hg Hex) as (Ht & Hkv & Htm & Hev).
          unfold seq, emit.
          destruct (sendMessage env (greeting config) threadId (fun _ _ => skip) None
                      (bump (bump w))) as [ts ws es].
          cbn [thrown world events] in Ht, Hkv, Htm, Hev. subst ts.
          cbn. split; [reflexivity|]. split; [exact Hkv|]. split; [exact Htm|].
          split; [|intros H; destruct (Hnone H)].
          apply Forall_app. split; [|repeat constructor].
          apply Forall_app. split; [exact Hev | repeat constructor].
        + cbn. split; [reflexivity|]. split; [reflexivity|]. split; [reflexivity|].
          split; [repeat constructor | intros H; destruct (Hnone H)]. }
    unfold seq. destruct (p (bump (bump w))) as [tp wp ep].
    cbn [thrown world events] in HP. destruct HP as (-> & Hkv & Htm & Hev & Hex).
    cbn [bind_out thrown world events].
    unfold q, api_getThreadInfo, request, deliver. rewrite Hfetch.
    exists ep, (bump wp). split; [|repeat split; assumption].
    cbn. reflexivity. }
  destruct E as (greet & wp & -> & Hkv & Htm & Hgreet & Hex).
  cbn [thrown world events].
  assert (Hnw : List.filter is_write greet = []).
  { apply filter_background; [|exact Hgreet]. intros [] H; try discriminate H; reflexivity. }
  assert (Hnc : List.filter is_callback greet = []).
  { apply filter_background; [|exact Hgreet]. intros [] H; try discriminate H; reflexivity. }
  repeat split; try assumption.
  - rewrite !List.filter_app, Hnw. reflexivity.
  - rewrite !List.filter_app, Hnc. reflexivity.
  - exists ([EvMemGet "groups"; EvMemGet "groups"] ++ greet ++ [EvGetThreadInfo threadId])%list,
      [].
    split.
    + rewrite app_nil_r, <- !app_assoc. reflexivity.
    + apply in_or_app. right. apply in_or_app. right. now left.
  - intros H. rewrite (Hex H). reflexivity.
Qed.

Lemma updateGroupInfo_thread_fetch_fails_witness :
  (kv_get_error env_no_thread (requests world_empty) = None
   /\ kv_get_error env_no_thread (S (requests world_empty)) = None
   /\ parse_groups (kv world_empty !! "groups") = Some []
   /\ (forall n, thread_reply env_no_thread n = (Some "no such thread", None)))
  /\ let o := updateGroupInfo demo_config env_no_thread "T1" (VStr "hi")
                (observe_info 1) world_empty in
     kv (world o) = kv world_empty
     /\ List.filter is_write (events o) = []
     /\ List.filter is_callback (events o) = [EvCallback 1 [ArgError "no such thread"]].
Proof.
  assert (H4 : forall n, thread_reply env_no_thread n = (Some "no such thread", None))
    by (intros n; reflexivity).
  split; [repeat split; try reflexivity; exact H4|].
  destruct (updateGroupInfo_thread_fetch_fails demo_config env_no_thread "T1" (VStr "hi") 1
              (Some "no such thread") [] world_empty eq_refl eq_refl eq_refl H4)
    as (_ & Hkv & _ & Hw & Hc & _).
  cbv zeta. split; [exact Hkv|]. split; [exact Hw | exact Hc].
Defined.

(** * More of the module, verified *)

(** ** Sending *)

(** X1.  Without a message or without a thread id [sendMessage] asks the
    provider nothing: it calls the callback once, with an error, and leaves
    the state as it is. *)
Theorem sendMessage_missing_argument (env : Env) (m threadId : string) (id : nat)
    (replyId : option string) (w : World) :
  m = EmptyString \/ threadId = EmptyString ->
  sendMessage env m threadId (observe_sent id) replyId w =
    {| thrown := None; world := w;
       events := [EvCallback id [ArgError "Must provide message and threadId."]] |}.
Proof.
  intros H. unfold sendMessage.
  replace (String.eqb m EmptyString || String.eqb threadId EmptyString) with true;
    [reflexivity|].
  symmetry. apply Bool.orb_true_iff.
  destruct H as [-> | ->]; [left | right]; reflexivity.
Qed.

Lemma sendMessage_missing_argument_witness :
  (EmptyString = EmptyString \/ "T1" = EmptyString)
  /\ sendMessage env_ok EmptyString "T1" (observe_sent 1) None world_stored =
       {| thrown := None; world := world_stored;
          events := [EvCallback 1 [ArgError "Must provide message and threadId."]] |}.
Proof.
  split; [left; reflexivity|].
  apply (sendMessage_missing_argument env_ok EmptyString "T1" 1 None world_stored).
  left. reflexivity.
Defined.

(** X2.  With the default callback [sendMessage] never lets an exception
    out and never writes to the store, whatever the provider and the store
    answer: every event of the call is a background event (a request to the
    provider, a read, a log line, a lost exception). *)
Theorem sendMessage_default_is_quiet (env : Env) (m threadId : string)
    (replyId : option string) (w : World) :
  let o := sendMessage env m threadId (fun _ _ => skip) replyId w in
  thrown o = None
  /\ kv (world o) = kv w
  /\ Forall (fun e => background e = true) (events o).
Proof.
  cbv zeta. split.
  - unfold sendMessage.
    destruct (String.eqb m EmptyString || String.eqb threadId EmptyString); [reflexivity|].
    unfold api_sendMessage.
    destruct (send_reply env (requests w)); [reflexivity|].
    apply thrown_request.
  - apply (sat_sendMessage same_store (fun e => background e = true)
             same_store_background env m threadId (fun _ _ => skip) replyId).
    intros. apply sat_skip, same_store_background.
Qed.

(** X3.  After a message was sent to a thread that is stored and not
    locked, the message id is kept: a timer is queued on a copy of the stored
    record with [lastBotMessageID] set, and when it fires (the store
    answering) the group map is written with that copy under the record's
    thread id, and the lock is released. *)
Theorem sendMessage_keeps_last_message_id (env : Env) (m threadId mid : string)
    (g : GroupData) (r : Obj) (w : World) :
  m <> EmptyString -> threadId <> EmptyString ->
  timers w = [] ->
  send_reply env (requests w) = SendDone None (Some mid) ->
  kv_get_error env (S (requests w)) = None ->
  kv_get_error env (S (S (requests w))) = None ->
  kv_set_error env (S (S (S (requests w)))) = None ->
  parse_groups (kv w !! "groups") = Some g ->
  assoc_get threadId g = Some r ->
  includes (obj_read "threadId" r) (lockedThreads w) = false ->
  let o := sendMessage env m threadId (fun _ _ => skip) None w in
  let o2 := tick env (world o) in
  let r' := obj_set "lastBotMessageID" (VStr mid) r in
  let blob := JSON_stringify (assoc_set (js_to_string (obj_read "threadId" r')) r' g) in
  events o = [EvSendMessage m threadId None; EvMemGet "groups"]
  /\ kv (world o) = kv w
  /\ events o2 = [EvMemGet "groups"; EvMemSet "groups" blob]
  /\ kv (world o2) = <["groups" := blob]> (kv w)
  /\ includes (obj_read "threadId" r') (lockedThreads (world o2)) = false
  /\ timers (world o2) = [].
Proof.
  intros Hm Hn Ht Hs Hg1 Hg2 Hs3 Hp Hr Hi. cbv zeta. unfold sendMessage.
  apply String.eqb_neq in Hm, Hn. rewrite Hm, Hn. cbn [orb]. unfold api_sendMessage.
  rewrite Hs.
  unfold request, deliver, getGroupInfo, getGroupData, mem_get, request, deliver. cbn.
  rewrite Hg1. cbn. rewrite Hp. cbn. rewrite Hr.
  rewrite alloc_setGroupProperty. cbn [lockedThreads bump]. rewrite Hi. cbn.
  rewrite Ht. cbn [app].
  erewrite tick_fires by reflexivity.
  rewrite (fire_read_ok _ _ g) by assumption.
  cbn. rewrite Hs3. unfold deref. cbn. rewrite lookup_insert_eq. cbn.
  repeat split. apply includes_without_same.
Qed.

Lemma sendMessage_keeps_last_message_id_witness :
  ("hello" <> EmptyString /\ "T1" <> EmptyString
   /\ timers world_stored = []
   /\ send_reply env_ok (requests world_stored) = SendDone None (Some "mid.1")
   /\ kv_get_error env_ok (S (requests world_stored)) = None
   /\ kv_get_error env_ok (S (S (requests world_stored))) = None
   /\ kv_set_error env_ok (S (S (S (requests world_stored)))) = None
   /\ parse_groups (kv world_stored !! "groups") = Some [("T1", demo_record)]
   /\ assoc_get "T1" [("T1", demo_record)] = Some demo_record
   /\ includes (obj_read "threadId" demo_record) (lockedThreads world_stored) = false)
  /\ events (sendMessage env_ok "hello" "T1" (fun _ _ => skip) None world_stored)
     = [EvSendMessage "hello" "T1" None; EvMemGet "groups"].
Proof.
  assert (H1 : "hello" <> EmptyString) by discriminate.
  assert (H2 : "T1" <> EmptyString) by discriminate.
  split.
  - repeat split; try reflexivity; assumption.
  - apply (sendMessage_keeps_last_message_id env_ok "hello" "T1" "mid.1"
             [("T1", demo_record)] demo_record world_stored
             H1 H2 eq_refl eq_refl eq_refl eq_refl eq_refl eq_refl eq_refl eq_refl).
Defined.

(** ** The store, again *)

Lemma assoc_get_map {A B} (f : A -> B) (k : string) (m : list (string * A)) :
  assoc_get k (map (fun kr => (fst kr, f (snd kr))) m) = f <$> assoc_get k m.
Proof.
  induction m as [|[k' v] m IH]; [reflexivity|]. simpl.
  destruct (String.eqb k k'); [reflexivity | exact IH].
Qed.

Lemma stored_after_write (g : GroupData) (w : World) (threadId : string) :
  stored (set_kv (insert "groups" (JSON_stringify g)) w) threadId
  = json_clean_obj <$> assoc_get threadId g.
Proof.
  unfold stored, JSON_stringify. cbn [kv set_kv]. rewrite lookup_insert_eq.
  cbn [parse_groups]. apply assoc_get_map.
Qed.

(** X5.  A failed write in [setGroupInfo] is reported to the callback, and
    the store is left as it was. *)
Theorem setGroupInfo_failed_write (env : Env) (info : Obj) (id : nat) (g : GroupData)
    (e : Err) (w : World) :
  kv_get_error env (requests w) = None ->
  parse_groups (kv w !! "groups") = Some g ->
  kv_set_error env (S (requests w)) = Some e ->
  let o := setGroupInfo env info (observe_err id) w in
  (exists blob, events o = [EvMemGet "groups"; EvMemSet "groups" blob;
                            EvCallback id [ArgError e]])
  /\ kv (world o) = kv w.
Proof.
  intros Hg Hp Hs. cbv zeta.
  rewrite (setGroupInfo_write_error env info id g e w) by assumption.
  split; [eexists|]; reflexivity.
Qed.

Lemma setGroupInfo_failed_write_witness :
  (kv_get_error env_write_fails (requests world_stored) = None
   /\ parse_groups (kv world_stored !! "groups") = Some [("T1", demo_record)]
   /\ kv_set_error env_write_fails (S (requests world_stored)) = Some "SERVER_ERROR")
  /\ kv (world (setGroupInfo env_write_fails demo_record (observe_err 1) world_stored))
     = kv world_stored.
Proof.
  split; [repeat split; reflexivity|].
  apply (setGroupInfo_failed_write env_write_fails demo_record 1 [("T1", demo_record)]
           "SERVER_ERROR" world_stored eq_refl eq_refl eq_refl).
Defined.

(** ** The property updater, again *)

(** X6.  A second update of a record that comes before the timeout of the
    first is lost: the second call changes nothing (its field is not set,
    its callback is never called), and what the timeout writes, the store
    answering, is the record with the first field only. *)
Theorem second_update_is_lost (env : Env) (key1 key2 : string) (value1 value2 : Val)
    (info id1 id2 : nat) (g : GroupData) (w : World) :
  includes (obj_read "threadId" (deref w info)) (lockedThreads w) = false ->
  timers w = [] ->
  kv_get_error env (requests w) = None ->
  parse_groups (kv w !! "groups") = Some g ->
  let o1 := setGroupProperty key1 value1 info (CbUser id1) w in
  let o2 := setGroupProperty key2 value2 info (CbUser id2) (world o1) in
  let o3 := tick env (world o2) in
  let r := obj_set key1 value1 (deref w info) in
  let blob := JSON_stringify (assoc_set (js_to_string (obj_read "threadId" r)) r g) in
  o2 = {| thrown := None; world := world o1; events := [] |}
  /\ deref (world o2) info = r
  /\ events o3 = [EvMemGet "groups"; EvMemSet "groups" blob;
                  EvCallback id1 [arg_err (kv_set_error env (S (requests w)))]]
  /\ timers (world o3) = [].
Proof.
  intros Hi Ht Hg Hp. cbv zeta.
  rewrite (setGroupProperty_unlocked key1) by assumption. cbn [world].
  set (r := obj_set key1 value1 (deref w info)).
  set (w1 := {| kv := kv w; lockedThreads := _; heap := _; timers := _; requests := _ |}).
  assert (Hd : deref w1 info = r).
  { unfold deref, w1. cbn. now rewrite lookup_insert_eq. }
  assert (Hl : includes (obj_read "threadId" (deref w1 info)) (lockedThreads w1) = true).
  { rewrite Hd. unfold w1. cbn [lockedThreads]. rewrite includes_app.
    replace (includes (obj_read "threadId" r) [obj_read "threadId" r]) with true;
      [apply Bool.orb_true_r|].
    symmetry. apply includes_true. now left. }
  assert (E2 : setGroupProperty key2 value2 info (CbUser id2) w1
               = {| thrown := None; world := w1; events := [] |}).
  { unfold setGroupProperty, with_info. now rewrite Hl. }
  rewrite E2. cbn [world]. split; [reflexivity|]. split; [exact Hd|].
  assert (Htm : timers w1 = [{| t_info := info; t_callback := CbUser id1 |}]).
  { unfold w1. cbn. now rewrite Ht. }
  rewrite (tick_fires env _ [] w1 Htm).
  assert (Hd' : deref (set_timers (fun _ => []) w1) info = r) by exact Hd.
  rewrite (fire_read_ok _ _ g) by assumption.
  cbn [catch_out thrown world events timers t_info t_callback]. rewrite Hd'.
  split; reflexivity.
Qed.

Lemma second_update_is_lost_witness :
  (includes (obj_read "threadId" (deref world_stored 0)) (lockedThreads world_stored) = false
   /\ timers world_stored = []
   /\ kv_get_error env_ok (requests world_stored) = None
   /\ parse_groups (kv world_stored !! "groups") = Some [("T1", demo_record)])
  /\ setGroupProperty "muted" (VBool true) 0 (CbUser 2)
       (world (setGroupProperty "pinned" (VObj []) 0 (CbUser 1) world_stored))
     = {| thrown := None;
          world := world (setGroupProperty "pinned" (VObj []) 0 (CbUser 1) world_stored);
          events := [] |}.
Proof.
  split; [repeat split; reflexivity|].
  apply (second_update_is_lost env_ok "pinned" "muted" (VObj []) (VBool true) 0 1 2
           [("T1", demo_record)] world_stored eq_refl eq_refl eq_refl eq_refl).
Defined.

(** X7.  The update and a refresh race.  If, between the call of
    [setGroupProperty] and its timeout, another record is persisted for the
    same thread (as the refresher does with [setGroupInfo]), the store first
    holds that record and, after the timeout, the record of the updater as
    it was in memory: what the refresh wrote for the thread is gone. *)
Theorem update_overwrites_refresh (env : Env) (key : string) (value : Val)
    (info : nat) (threadId : string) (refreshed : Obj) (g : GroupData) (w : World) :
  includes (obj_read "threadId" (deref w info)) (lockedThreads w) = false ->
  timers w = [] ->
  obj_read "threadId" (obj_set key value (deref w info)) = VStr threadId ->
  obj_read "threadId" refreshed = VStr threadId ->
  parse_groups (kv w !! "groups") = Some g ->
  kv_get_error env (requests w) = None ->
  kv_set_error env (S (requests w)) = None ->
  kv_get_error env (S (S (requests w))) = None ->
  kv_set_error env (S (S (S (requests w)))) = None ->
  let o1 := setGroupProperty key value info CbDefault w in
  let o2 := setGroupInfo env refreshed (fun _ => skip) (world o1) in
  let o3 := tick env (world o2) in
  stored (world o2) threadId = Some (json_clean_obj refreshed)
  /\ stored (world o3) threadId
     = Some (json_clean_obj (obj_set key value (deref w info))).
Proof.
  intros Hi Ht Hk Hr Hp Hg1 Hs1 Hg2 Hs2. cbv zeta.
  rewrite (setGroupProperty_unlocked key) by assumption. cbn [world].
  set (r := obj_set key value (deref w info)) in *.
  set (w1 := {| kv := kv w; lockedThreads := _; heap := _; timers := _; requests := _ |}).
  assert (E : world (setGroupInfo env refreshed (fun _ => skip) w1)
              = set_kv (insert "groups" (JSON_stringify (assoc_set threadId refreshed g)))
                  (bump (bump w1))).
  { unfold setGroupInfo. rewrite (getGroupData_read_ok _ _ g) by assumption.
    unfold mem_set, request, deliver. cbn. rewrite Hs1. cbn.
    rewrite Hr. reflexivity. }
  rewrite E. clear E. set (w2 := set_kv _ _).
  split.
  - unfold w2. rewrite stored_after_write, assoc_get_set_eq. reflexivity.
  - assert (Htm : timers w2 = [{| t_info := info; t_callback := CbDefault |}]).
    { unfold w2, w1. cbn. now rewrite Ht. }
    rewrite (tick_fires env _ [] w2 Htm).
    assert (Hd : deref (set_timers (fun _ => []) w2) info = r).
    { unfold deref, w2, w1. cbn. now rewrite lookup_insert_eq. }
    erewrite fire_read_ok; [| exact Hg2 |].
    2:{ unfold w2. cbn [kv set_kv set_timers]. rewrite lookup_insert_eq. reflexivity. }
    cbn [catch_out thrown world t_info t_callback]. rewrite Hd, Hk.
    cbn [requests set_timers w2 set_kv bump w1]. rewrite Hs2.
    unfold stored. cbn [kv]. rewrite lookup_insert_eq. unfold JSON_stringify.
    cbn [parse_groups js_to_string]. rewrite assoc_get_map, assoc_get_set_eq. reflexivity.
Qed.

Lemma update_overwrites_refresh_witness :
  (includes (obj_read "threadId" (deref world_stored 0)) (lockedThreads world_stored) = false
   /\ timers world_stored = []
   /\ obj_read "threadId" (obj_set "pinned" (VObj []) (deref world_stored 0)) = VStr "T1"
   /\ obj_read "threadId" demo_refreshed = VStr "T1"
   /\ parse_groups (kv world_stored !! "groups") = Some [("T1", demo_record)]
   /\ kv_get_error env_ok (requests world_stored) = None
   /\ kv_set_error env_ok (S (requests world_stored)) = None
   /\ kv_get_error env_ok (S (S (requests world_stored))) = None
   /\ kv_set_error env_ok (S (S (S (requests world_stored)))) = None)
  /\ stored
       (world
          (tick env_ok
             (world
                (setGroupInfo env_ok demo_refreshed (fun _ => skip)
                   (world (setGroupProperty "pinned" (VObj []) 0 CbDefault world_stored))))))
       "T1"
     = Some (json_clean_obj (obj_set "pinned" (VObj []) (deref world_stored 0))).
Proof.
  split; [repeat split; reflexivity|].
  apply (update_overwrites_refresh env_ok "pinned" (VObj []) 0 "T1" demo_refreshed
           [("T1", demo_record)] world_stored
           eq_refl eq_refl eq_refl eq_refl eq_refl eq_refl eq_refl eq_refl eq_refl).
Defined.

(** ** The refresher, again *)

Lemma in_events_catch_out (ev : Event) (o : Out) :
  In ev (events (catch_out o)) -> In ev (events o) \/ exists e, ev = EvUncaught e.
Proof.
  unfold catch_out. destruct (thrown o) as [e|]; [|auto]. cbn.
  intros H. apply in_app_or in H as [H | [H | []]]; eauto.
Qed.

(** The record that a refresh hands over when it ends well is the stored
    record of the thread (or a new object), with the thread data and then the
    participants merged in. *)
Lemma refreshed_record (config : Config) (env : Env) (threadId : string)
    (message : Val) (id : nat) (info : Obj) (w : World) :
  (forall n, fst (user_reply env n) = None) ->
  In (EvCallback id [ArgNull; ArgInfo info])
     (events (updateGroupInfo config env threadId message (observe_info id) w)) ->
  exists data userData,
    merge_user_data config env
      (merge_thread_data config threadId message (stored w threadId) data) userData
    = Some info.
Proof.
  intros Huser Hin.
  set (good := fun existing (i : Obj) =>
         exists data userData,
           merge_user_data config env
             (merge_thread_data config threadId message existing data) userData = Some i).
  set (PE := fun (P : Obj -> Prop) ev =>
         forall i, ev = EvCallback id [ArgNull; ArgInfo i] -> P i).
  assert (Q : forall P, Quiet (fun _ _ => True) (PE P)).
  { intros P. apply anything_goes; intros; intros ? Hi; discriminate Hi. }
  unfold updateGroupInfo in Hin.
  match type of Hin with
  | context [getGroupInfo env threadId ?k] => set (K := k) in Hin
  end.
  assert (Hfail : forall P (e : option Err),
             sat (fun _ _ => True) (PE P)
               (console_log (LogError e) ;; observe_info id e None)).
  { intros P e. apply sat_seq; [apply Q | apply sat_console_log, Q |].
    apply sat_emit; [apply Q|]. hnf. intros ? Hi. discriminate Hi. }
  assert (Hsend : forall P m t, sat (fun _ _ => True) (PE P)
                                  (sendMessage env m t (fun _ _ => skip) None)).
  { intros. apply sat_sendMessage; [apply Q|]. intros. apply sat_skip, Q. }
  assert (Herr : forall e existing,
             sat (fun _ _ => True) (PE (fun _ => False)) (K (Some e) existing)).
  { intros e existing. unfold K. apply sat_getGroupInfo; [apply Q|].
    intros e2 ownerData. destruct e2; apply Hfail. }
  assert (Hok : forall existing,
             sat (fun _ _ => True) (PE (good existing)) (K None existing)).
  { intros existing. unfold K. apply sat_getGroupInfo; [apply Q|].
    intros e2 ownerData. destruct e2 as [e2|]; [apply Hfail|].
    apply sat_seq; [apply Q | |].
    - destruct existing; [apply sat_skip, Q|].
      apply sat_seq; [apply Q | |].
      + destruct (negb (dbFailSilently config) || _); [|apply sat_skip, Q].
        apply sat_seq; [apply Q | apply Hsend |].
        apply sat_emit; [apply Q|]. hnf; intros ? Hi; discriminate Hi.
      + apply sat_emit; [apply Q|]. hnf; intros ? Hi; discriminate Hi.
    - apply sat_request; [apply Q | hnf; intros ? Hi; discriminate Hi |]. intros w1.
      destruct (thread_reply env (requests w1)) as [e3 [data|]]; cbn [fst snd].
      2:{ apply sat_seq; [apply Q | apply sat_console_log, Q |].
          apply sat_seq; [apply Q | apply sat_console_log, Q |].
          apply sat_emit; [apply Q|]. hnf; intros ? Hi; discriminate Hi. }
      apply sat_request; [apply Q | hnf; intros ? Hi; discriminate Hi |]. intros w2.
      specialize (Huser (requests w2)).
      destruct (user_reply env (requests w2)) as [e4 userData]. simpl in Huser. subst e4.
      cbn [fst snd].
      destruct (merge_user_data config env _ userData) as [info'|] eqn:Hm;
        [|apply sat_throw, Q].
      apply sat_seq; [apply Q | |].
      + destruct (_ && _); [apply Hsend | apply sat_skip, Q].
      + apply sat_setGroupInfo; [apply Q | | auto |].
        * intros v. hnf. intros ? Hi. discriminate Hi.
        * intros e5. apply sat_seq; [apply Q | |].
          -- destruct (_ && _); [apply Hsend | apply sat_skip, Q].
          -- apply sat_emit; [apply Q|]. hnf. intros i [= _ <-].
             exists data, userData. exact Hm. }
  unfold getGroupInfo, getGroupData, mem_get, request, deliver, out_app in Hin.
  cbn [events] in Hin. destruct Hin as [Hin | Hin]; [discriminate Hin|].
  apply in_events_catch_out in Hin as [Hin | [e Hin]]; [|discriminate Hin].
  unfold stored.
  destruct (kv_get_error env (requests w)) as [e|]; cbn [fst snd] in Hin.
  - destruct (Herr e None (bump w)) as [_ Hall]. rewrite Forall_forall in Hall.
    destruct (Hall _ Hin info eq_refl).
  - destruct (parse_groups (kv w !! "groups")) as [g|]; [|destruct Hin].
    assert (Hin' : In (EvCallback id [ArgNull; ArgInfo info])
                     (events (K None (assoc_get threadId g) (bump w)))).
    { destruct (assoc_get threadId g); exact Hin. }
    destruct (Hok (assoc_get threadId g) (bump w)) as [_ Hall].
    rewrite Forall_forall in Hall. exact (Hall _ Hin' info eq_refl).
Qed.

Lemma not_in_refreshed_fields (k : string) :
  ~ In k refreshed_fields ->
  Forall (fun f => k <> f) refreshed_fields.
Proof.
  intros H. apply Forall_forall. intros f Hf ->. exact (H Hf).
Qed.

Lemma merge_thread_data_keeps (config : Config) (threadId : string) (message : Val)
    (old : Obj) (data : ThreadData) (k : string) :
  ~ In k refreshed_fields ->
  obj_get k (merge_thread_data config threadId message (Some old) data) = obj_get k old.
Proof.
  intros H. apply not_in_refreshed_fields in H. unfold refreshed_fields in H.
  repeat match goal with
         | H : Forall _ (_ :: _) |- _ => apply Forall_cons_iff in H as [? H]
         end.
  unfold merge_thread_data. cbn [default from_option id].
  repeat (rewrite obj_get_set_ne by assumption). reflexivity.
Qed.

Lemma merge_user_data_keeps (config : Config) (env : Env) (info info' : Obj)
    (userData : list (string * UserInfo)) (k : string) :
  ~ In k refreshed_fields ->
  merge_user_data config env info userData = Some info' ->
  obj_get k info' = obj_get k info.
Proof.
  intros H. apply not_in_refreshed_fields in H. unfold refreshed_fields in H.
  repeat match goal with
         | H : Forall _ (_ :: _) |- _ => apply Forall_cons_iff in H as [? H]
         end.
  unfold merge_user_data. destruct (as_obj _); [|discriminate].
  destruct (val_eqb _ _); intros [= <-];
    repeat (rewrite obj_get_set_ne by assumption); reflexivity.
Qed.

(** X8.  A refresh that ends well keeps what it does not own: every
    property of the stored record other than the eleven the refresh assigns
    ([events], [pinned], [aliases], [muted], [lastBotMessageID], ...) is in
    the refreshed record as it was stored. *)
Theorem refresh_keeps_other_fields (config : Config) (env : Env) (threadId : string)
    (message : Val) (id : nat) (old info : Obj) (k : string) (w : World) :
  (forall n, fst (user_reply env n) = None) ->
  stored w threadId = Some old ->
  ~ In k refreshed_fields ->
  In (EvCallback id [ArgNull; ArgInfo info])
     (events (updateGroupInfo config env threadId message (observe_info id) w)) ->
  obj_get k info = obj_get k old.
Proof.
  intros Huser Hold Hk Hin.
  destruct (refreshed_record _ _ _ _ _ _ _ Huser Hin) as (data & userData & Hm).
  rewrite Hold in Hm.
  rewrite (merge_user_data_keeps _ _ _ _ _ _ Hk Hm).
  now apply merge_thread_data_keeps.
Qed.

Lemma refresh_keeps_other_fields_witness :
  ((forall n, fst (user_reply env_ok n) = None)
   /\ stored world_member "T1" = Some demo_member_record
   /\ ~ In "events" refreshed_fields
   /\ In (EvCallback 1 [ArgNull; ArgInfo demo_refreshed_stored])
        (events (updateGroupInfo demo_config env_ok "T1" (VStr "hi") (observe_info 1)
                   world_member)))
  /\ obj_get "events" demo_refreshed_stored = obj_get "events" demo_member_record.
Proof.
  assert (H3 : ~ In "events" refreshed_fields).
  { unfold refreshed_fields. intros H.
    repeat (destruct H as [H|H]; [discriminate H|]). exact H. }
  assert (H4 : In (EvCallback 1 [ArgNull; ArgInfo demo_refreshed_stored])
                 (events (updateGroupInfo demo_config env_ok "T1" (VStr "hi")
                            (observe_info 1) world_member))).
  { vm_compute. repeat (first [left; reflexivity | right]). }
  split.
  - split; [reflexivity | split; [reflexivity | split; assumption]].
  - apply (refresh_keeps_other_fields demo_config env_ok "T1" (VStr "hi") 1
             demo_member_record demo_refreshed_stored "events" world_member
             (fun _ => eq_refl) eq_refl H3 H4).
Defined.

(** X9.  The first refresh of a thread (nothing stored for it) that ends
    well gives the record its one-time properties: [muted] is true and
    [playlists], [aliases], [pinned] and [events] are empty objects; its
    [threadId] is the thread id. *)
Theorem first_refresh_initializes (config : Config) (env : Env) (threadId : string)
    (message : Val) (id : nat) (info : Obj) (w : World) :
  (forall n, fst (user_reply env n) = None) ->
  stored w threadId = None ->
  In (EvCallback id [ArgNull; ArgInfo info])
     (events (updateGroupInfo config env threadId message (observe_info id) w)) ->
  obj_read "threadId" info = VStr threadId
  /\ obj_read "muted" info = VBool true
  /\ obj_read "playlists" info = VObj []
  /\ obj_read "aliases" info = VObj []
  /\ obj_read "pinned" info = VObj []
  /\ obj_read "events" info = VObj [].
Proof.
  intros Huser Hnew Hin.
  destruct (refreshed_record _ _ _ _ _ _ _ Huser Hin) as (data & userData & Hm).
  rewrite Hnew in Hm. revert Hm. unfold merge_user_data.
  destruct (as_obj _); [|discriminate].
  destruct (val_eqb _ _); intros [= <-]; unfold merge_thread_data;
    repeat split;
    repeat (rewrite obj_read_set_ne by discriminate);
    apply obj_read_set_eq.
Qed.

Lemma first_refresh_initializes_witness :
  ((forall n, fst (user_reply env_ok n) = None)
   /\ stored world_empty "T1" = None
   /\ In (EvCallback 1 [ArgNull; ArgInfo demo_refreshed])
        (events (updateGroupInfo demo_config env_ok "T1" (VStr "hi") (observe_info 1)
                   world_empty)))
  /\ obj_read "muted" demo_refreshed = VBool true.
Proof.
  assert (H3 : In (EvCallback 1 [ArgNull; ArgInfo demo_refreshed])
                 (events (updateGroupInfo demo_config env_ok "T1" (VStr "hi")
                            (observe_info 1) world_empty))).
  { vm_compute. repeat (first [left; reflexivity | right]). }
  split.
  - split; [reflexivity | split; [reflexivity | exact H3]].
  - apply (first_refresh_initializes demo_config env_ok "T1" (VStr "hi") 1 demo_refreshed
             world_empty (fun _ => eq_refl) eq_refl H3).
Defined.



(** X11.  When only the read of the owner's record fails, the refresh stops
    and calls the callback with the error of the first read, which is none:
    the caller is told neither of an error nor of a record, and the provider
    is not asked. *)
Theorem refresh_owner_read_error_is_not_reported (config : Config) (env : Env)
    (threadId : string) (message : Val) (id : nat) (g : GroupData) (e : Err)
    (w : World) :
  kv_get_error env (requests w) = None ->
  parse_groups (kv w !! "groups") = Some g ->
  kv_get_error env (S (requests w)) = Some e ->
  updateGroupInfo config env threadId message (observe_info id) w =
    {| thrown := None; world := bump (bump w);
       events := [EvMemGet "groups"; EvMemGet "groups";
                  EvLog (LogError None); EvCallback id [ArgNull]] |}.
Proof.
  intros Hg Hp He. unfold updateGroupInfo, getGroupInfo.
  rewrite (getGroupData_read_ok _ _ g) by assumption.
  destruct (assoc_get threadId g);
    rewrite (getGroupData_read_error _ _ e) by assumption; reflexivity.
Qed.

Lemma refresh_owner_read_error_is_not_reported_witness :
  (kv_get_error env_second_read_fails (requests world_stored) = None
   /\ parse_groups (kv world_stored !! "groups") = Some [("T1", demo_record)]
   /\ kv_get_error env_second_read_fails (S (requests world_stored)) = Some "ETIMEDOUT")
  /\ updateGroupInfo demo_config env_second_read_fails "T1" (VStr "hi") (observe_info 1)
       world_stored =
       {| thrown := None; world := bump (bump world_stored);
          events := [EvMemGet "groups"; EvMemGet "groups";
                     EvLog (LogError None); EvCallback 1 [ArgNull]] |}.
Proof.
  split; [repeat split; reflexivity|].
  apply (refresh_owner_read_error_is_not_reported demo_config env_second_read_fails "T1"
           (VStr "hi") 1 [("T1", demo_record)] "ETIMEDOUT" world_stored
           eq_refl eq_refl eq_refl).
Defined.



(** ** All scores of a group *)

Lemma updateResults_run (env : Env) (asyncTimeout : Z) (members : Obj) (start : Z)
    (results id : nat) (m : string) (acc : list Val) (w : World) :
  results_of (deref w results) = acc ->
  let acc' := (acc ++ score_entries env (kv w) members (requests w) [m])%list in
  let success := (length acc' =? length (obj_keys members))%nat in
  getScore env m (fun err val =>
    updateResults env asyncTimeout (length (obj_keys members)) start results
      (observe_results id)
      (VObj [("name", obj_read m members); ("score", score_or_zero val)])) w
  = {| thrown := None;
       world := set_heap (insert results [("items", VArr acc')]) (bump w);
       events :=
         EvMemGet ("userscore_" ++ m)
         :: (if success || (asyncTimeout <=? clock env (S (requests w)) - start)
             then [EvCallback id (ArgBool success :: map arg_item acc')]
             else []) |}.
Proof.
  intros Hacc. cbv zeta. cbn [score_entries].
  unfold getScore, mem_get, request, deliver, updateResults, with_info, now, seq.
  change (deref (bump w) results) with (deref w results). rewrite Hacc.
  assert (Hval : (match kv_get_error env (requests w) with
                  | Some e => (Some e, None)
                  | None => (None, kv w !! ("userscore_" ++ m))
                  end).2
                 = match kv_get_error env (requests w) with
                   | Some _ => None
                   | None => kv w !! ("userscore_" ++ m)
                   end).
  { destruct (kv_get_error env (requests w)); reflexivity. }
  rewrite Hval. clear Hval.
  unfold modify, bind_out. cbn [thrown world events out_app].
  change (requests (set_heap _ (bump w))) with (S (requests w)).
  match goal with |- context [if ?c then observe_results _ _ _ else _] => destruct c end;
    reflexivity.
Qed.

Lemma getAllScores_loop_run (env : Env) (asyncTimeout : Z) (members : Obj) (start : Z)
    (results id : nat) (keys : list string) :
  obj_get "hasOwnProperty" members = None ->
  forall (acc : list Val) (w : World),
    results_of (deref w results) = acc ->
    let o := getAllScores_loop env asyncTimeout members start results
               (observe_results id) keys w in
    thrown o = None
    /\ kv (world o) = kv w
    /\ events o = score_events env asyncTimeout members start id (kv w) (requests w) acc keys.
Proof.
  intros Hown. induction keys as [|m rest IH]; intros acc w Hacc; cbv zeta.
  - repeat split.
  - cbn [getAllScores_loop score_events]. rewrite Hown. unfold seq.
    rewrite (updateResults_run env asyncTimeout members start results id m acc w Hacc).
    cbv zeta.
    set (acc' := (acc ++ score_entries env (kv w) members (requests w) [m])%list).
    set (w1 := set_heap (insert results [("items", VArr acc')]) (bump w)).
    assert (H1 : results_of (deref w1 results) = acc').
    { unfold w1, deref. cbn. rewrite lookup_insert_eq. reflexivity. }
    destruct (IH acc' w1 H1) as (Ht & Hk & He).
    unfold bind_out. cbn [thrown world events]. unfold out_app. cbn [thrown world events].
    rewrite Ht, He, Hk. repeat split.
Qed.

Lemma insert_index_length (k : Z * string) (l : list (Z * string)) :
  length (insert_index k l) = S (length l).
Proof.
  induction l as [|k' l IH]; cbn; [reflexivity|].
  destruct (fst k <=? fst k'); cbn; [reflexivity | now rewrite IH].
Qed.

Lemma for_in_keys_length (o : Obj) : length (for_in_keys o) = length (obj_keys o).
Proof.
  unfold for_in_keys, for_in_order. rewrite length_app, length_map.
  induction (obj_keys o) as [|k ks IH]; cbn; [reflexivity|].
  destruct (array_index k); cbn; [rewrite insert_index_length; cbn|]; lia.
Qed.

Section Scores.

Variable env : Env.
Variable asyncTimeout : Z.
Variable members : Obj.
Variable start : Z.
Variable id : nat.
Variable store : gmap string Blob.

Local Abbreviation total := (length (obj_keys members)).
Local Abbreviation events_from := (score_events env asyncTimeout members start id store).
Local Abbreviation entries_from := (score_entries env store members).

Lemma score_entries_length (keys : list string) (n : nat) :
  length (entries_from n keys) = length keys.
Proof.
  revert n. induction keys as [|m rest IH]; intros n; cbn; [reflexivity|].
  now rewrite IH.
Qed.

Lemma score_events_in_time :
  (forall n, clock env n - start < asyncTimeout) ->
  forall (keys : list string) (acc : list Val) (n : nat),
    (length acc + length keys)%nat = total ->
    events_from n acc keys
    = (score_reads keys
       ++ match keys with
          | [] => []
          | _ => [EvCallback id
                    (ArgBool true :: map arg_item (acc ++ entries_from n keys))]
          end)%list.
Proof.
  intros Hclock. induction keys as [|m rest IH]; intros acc n Hlen; [reflexivity|].
  cbn [score_events score_reads map score_entries]. cbv zeta.
  rewrite length_app. cbn [length] in *.
  assert (Hlate : (asyncTimeout <=? clock env (S n) - start) = false).
  { apply Z.leb_gt, Hclock. }
  rewrite Hlate, orb_false_r.
  destruct rest as [|m' rest'].
  - cbn [length] in Hlen.
    replace ((length acc + 1)%nat =? total)%nat with true
      by (symmetry; apply Nat.eqb_eq; lia).
    reflexivity.
  - replace ((length acc + 1)%nat =? total)%nat with false
      by (symmetry; apply Nat.eqb_neq; cbn [length] in Hlen; lia).
    rewrite IH by (rewrite length_app; cbn [length] in *; lia).
    cbn [score_reads map app score_entries].
    rewrite <- app_assoc. reflexivity.
Qed.


Lemma score_events_timed_out (n0 : nat) :
  (forall k, (n0 < k)%nat -> asyncTimeout <= clock env k - start) ->
  forall (keys : list string) (acc : list Val) (n : nat),
    (n0 <= n)%nat ->
    List.filter is_callback (events_from n acc keys)
    = map (fun k =>
             EvCallback id
               (ArgBool ((length acc + k)%nat =? total)%nat
                :: map arg_item (acc ++ firstn k (entries_from n keys))))
          (List.seq 1 (length keys)).
Proof.
  intros Hclock. induction keys as [|m rest IH]; intros acc n Hn; [reflexivity|].
  cbn [score_events score_entries length List.seq map]. cbv zeta.
  assert (Hlate : (asyncTimeout <=? clock env (S n) - start) = true).
  { apply Z.leb_le, Hclock. lia. }
  rewrite Hlate, orb_true_r.
  cbn [app List.filter is_callback]. rewrite length_app. cbn [length firstn].
  f_equal. rewrite IH by lia. rewrite <- (seq_shift (length rest) 1), map_map.
  apply map_ext. intros k. rewrite length_app. cbn [length firstn].
  rewrite <- app_assoc. cbn [app].
  replace (length acc + 1 + k)%nat with (length acc + S k)%nat by lia.
  reflexivity.
Qed.

Lemma score_events_last_call :
  forall (keys : list string) (acc : list Val) (n : nat),
    (length acc + length keys)%nat = total ->
    keys <> [] ->
    exists pre,
      events_from n acc keys
      = (pre ++ [EvCallback id
                   (ArgBool true :: map arg_item (acc ++ entries_from n keys))])%list
      /\ Forall (early id) pre.
Proof.
  induction keys as [|m rest IH]; intros acc n Hlen Hne; [congruence|].
  cbn [score_events score_entries]. cbv zeta.
  rewrite length_app. cbn [length] in *.
  destruct rest as [|m' rest'].
  - replace ((length acc + 1)%nat =? total)%nat with true
      by (symmetry; apply Nat.eqb_eq; cbn [length] in Hlen; lia).
    exists [EvMemGet ("userscore_" ++ m)]. split; [reflexivity|].
    repeat constructor.
  - replace ((length acc + 1)%nat =? total)%nat with false
      by (symmetry; apply Nat.eqb_neq; cbn [length] in Hlen; lia).
    match goal with
    | |- context [(acc ++ [?e])%list] =>
        destruct (IH (acc ++ [e])%list (S n)) as (pre & E & Hpre)
    end.
    { rewrite length_app. cbn [length] in *. lia. }
    { discriminate. }
    rewrite E. rewrite <- (app_assoc acc). cbn [app orb].
    destruct (asyncTimeout <=? clock env (S n) - start).
    + eexists (_ :: _ :: pre). split; [reflexivity|].
      repeat constructor; assumption.
    + eexists (_ :: pre). split; [reflexivity|].
      repeat constructor; assumption.
Qed.

End Scores.

Lemma getAllScores_run (env : Env) (asyncTimeout : Z) (groupInfo : Obj) (id : nat)
    (w : World) :
  let members := enumerable (obj_read "names" groupInfo) in
  obj_get "hasOwnProperty" members = None ->
  let o := getAllScores env asyncTimeout groupInfo (observe_results id) w in
  thrown o = None
  /\ kv (world o) = kv w
  /\ events o = score_events env asyncTimeout members (clock env (requests w)) id
                  (kv w) (requests w) [] (for_in_keys members).
Proof.
  cbv zeta. intros Hown. unfold getAllScores, alloc, now. cbv zeta.
  set (members := enumerable (obj_read "names" groupInfo)).
  set (l := fresh (dom (heap w))).
  set (w0 := set_heap (insert l [("items", VArr [])]) w).
  assert (H0 : results_of (deref w0 l) = []).
  { unfold w0, deref. cbn. rewrite lookup_insert_eq. reflexivity. }
  exact (getAllScores_loop_run env asyncTimeout members (clock env (requests w0)) l id
           (for_in_keys members) Hown [] w0 H0).
Qed.

Lemma for_in_keys_nonempty (o : Obj) : o <> [] -> for_in_keys o <> [].
Proof.
  intros Ho E. apply (f_equal (@length string)) in E.
  rewrite for_in_keys_length in E. unfold obj_keys in E. rewrite length_map in E.
  destruct o; [congruence | discriminate].
Qed.

(** X13.  [getAllScores] on a group with at least one name, with a store
    that answers every read before [asyncTimeout] has passed since the call:
    nothing is thrown, the store is not written, each member's score is read
    once, in the order of the [for .. in] loop, and after the last read the
    callback is called, once, with [true] and one entry per member.  A read
    that fails is not reported: its entry has the score "0". *)
Theorem getAllScores_answers_once (env : Env) (asyncTimeout : Z) (groupInfo : Obj)
    (id : nat) (w : World) :
  let members := enumerable (obj_read "names" groupInfo) in
  members <> [] ->
  obj_get "hasOwnProperty" members = None ->
  (forall n, clock env n - clock env (requests w) < asyncTimeout) ->
  let o := getAllScores env asyncTimeout groupInfo (observe_results id) w in
  thrown o = None
  /\ kv (world o) = kv w
  /\ events o
     = (score_reads (for_in_keys members)
        ++ [EvCallback id
              (ArgBool true
               :: map arg_item
                    (score_entries env (kv w) members (requests w)
                       (for_in_keys members)))])%list.
Proof.
  cbv zeta. intros Hne Hown Hclock.
  destruct (getAllScores_run env asyncTimeout groupInfo id w Hown) as (Ht & Hk & He).
  repeat split; [exact Ht | exact Hk |].
  rewrite He.
  rewrite (score_events_in_time env asyncTimeout _ _ id (kv w) Hclock)
    by (cbn [length]; apply for_in_keys_length).
  apply for_in_keys_nonempty in Hne.
  destruct (for_in_keys (enumerable (obj_read "names" groupInfo))); [congruence|].
  reflexivity.
Qed.

Lemma getAllScores_answers_once_witness :
  (enumerable (obj_read "names" demo_refreshed) <> []
   /\ obj_get "hasOwnProperty" (enumerable (obj_read "names" demo_refreshed)) = None
   /\ (forall n, clock env_ok n - clock env_ok (requests world_score_10) < 5000))
  /\ events (getAllScores env_ok 5000 demo_refreshed (observe_results 7) world_score_10)
     = [EvMemGet "userscore_U1"; EvMemGet "userscore_U2";
        EvCallback 7
          [ArgBool true;
           ArgInfo [("name", VStr "Ann"); ("score", VNum 10)];
           ArgInfo [("name", VStr "Bob"); ("score", VStr "0")]]].
Proof.
  assert (H1 : enumerable (obj_read "names" demo_refreshed) <> []) by discriminate.
  assert (H2 : forall n, clock env_ok n - clock env_ok (requests world_score_10) < 5000)
    by (intros n; cbn; lia).
  split; [repeat split; try assumption; reflexivity|].
  apply (getAllScores_answers_once env_ok 5000 demo_refreshed 7 world_score_10 H1 eq_refl
           H2).
Defined.

(** X14.  [getAllScores] with a store so slow that [asyncTimeout] has passed
    when any answer arrives: the callback is called after every read, as
    often as the group has names; the call after the k-th read gets the first
    k entries, and [true] only when k is the number of names. *)
Theorem getAllScores_calls_after_every_late_answer (env : Env) (asyncTimeout : Z)
    (groupInfo : Obj) (id : nat) (w : World) :
  let members := enumerable (obj_read "names" groupInfo) in
  obj_get "hasOwnProperty" members = None ->
  (forall n, (requests w < n)%nat ->
             asyncTimeout <= clock env n - clock env (requests w)) ->
  let o := getAllScores env asyncTimeout groupInfo (observe_results id) w in
  List.filter is_callback (events o)
  = map (fun k =>
           EvCallback id
             (ArgBool (k =? length (obj_keys members))%nat
              :: map arg_item
                   (firstn k (score_entries env (kv w) members (requests w)
                                (for_in_keys members)))))
        (List.seq 1 (length (obj_keys members))).
Proof.
  cbv zeta. intros Hown Hclock.
  destruct (getAllScores_run env asyncTimeout groupInfo id w Hown) as (_ & _ & He).
  rewrite He.
  rewrite (score_events_timed_out env asyncTimeout _ _ id (kv w) (requests w) Hclock)
    by lia.
  rewrite for_in_keys_length. reflexivity.
Qed.

Lemma getAllScores_calls_after_every_late_answer_witness :
  (obj_get "hasOwnProperty" (enumerable (obj_read "names" demo_refreshed)) = None
   /\ (forall n, (requests world_score_10 < n)%nat ->
                 500 <= clock env_slow n - clock env_slow (requests world_score_10)))
  /\ List.filter is_callback
       (events (getAllScores env_slow 500 demo_refreshed (observe_results 7)
                  world_score_10))
     = [EvCallback 7 [ArgBool false; ArgInfo [("name", VStr "Ann"); ("score", VNum 10)]];
        EvCallback 7
          [ArgBool true;
           ArgInfo [("name", VStr "Ann"); ("score", VNum 10)];
           ArgInfo [("name", VStr "Bob"); ("score", VStr "0")]]].
Proof.
  assert (H1 : forall n, (requests world_score_10 < n)%nat ->
                         500 <= clock env_slow n - clock env_slow (requests world_score_10))
    by (intros n Hn; cbn in *; lia).
  split; [split; [reflexivity | assumption]|].
  apply (getAllScores_calls_after_every_late_answer env_slow 500 demo_refreshed 7
           world_score_10 eq_refl H1).
Defined.

(** X15.  Whatever the clock and the store do, [getAllScores] on a group
    with at least one name ends with a call of the callback that reports
    success and carries one entry per member; everything before it is a read
    or a call that reports no success. *)
Theorem getAllScores_ends_with_success (env : Env) (asyncTimeout : Z) (groupInfo : Obj)
    (id : nat) (w : World) :
  let members := enumerable (obj_read "names" groupInfo) in
  members <> [] ->
  obj_get "hasOwnProperty" members = None ->
  let o := getAllScores env asyncTimeout groupInfo (observe_results id) w in
  exists pre,
    events o
    = (pre ++ [EvCallback id
                 (ArgBool true
                  :: map arg_item
                       (score_entries env (kv w) members (requests w)
                          (for_in_keys members)))])%list
    /\ Forall (early id) pre.
Proof.
  cbv zeta. intros Hne Hown.
  destruct (getAllScores_run env asyncTimeout groupInfo id w Hown) as (_ & _ & He).
  rewrite He.
  apply (score_events_last_call env asyncTimeout _ _ id (kv w)
           (for_in_keys (enumerable (obj_read "names" groupInfo))) [] (requests w)).
  - cbn [length]. apply for_in_keys_length.
  - apply for_in_keys_nonempty, Hne.
Qed.

Lemma getAllScores_ends_with_success_witness :
  (enumerable (obj_read "names" demo_refreshed) <> []
   /\ obj_get "hasOwnProperty" (enumerable (obj_read "names" demo_refreshed)) = None)
  /\ exists pre,
       events (getAllScores env_slow 500 demo_refreshed (observe_results 7) world_score_10)
       = (pre ++ [EvCallback 7
                    (ArgBool true
                     :: map arg_item
                          (score_entries env_slow (kv world_score_10)
                             (enumerable (obj_read "names" demo_refreshed))
                             (requests world_score_10)
                             (for_in_keys (enumerable (obj_read "names" demo_refreshed)))))])%list
       /\ Forall (early 7) pre.
Proof.
  assert (H1 : enumerable (obj_read "names" demo_refreshed) <> []) by discriminate.
  split; [split; [assumption | reflexivity]|].
  apply (getAllScores_ends_with_success env_slow 500 demo_refreshed 7 world_score_10 H1
           eq_refl).
Defined.

(** ** A refresh that cannot end *)

Lemma stored_inv (w : World) (threadId : string) (r : Obj) :
  stored w threadId = Some r ->
  exists g, parse_groups (kv w !! "groups") = Some g /\ assoc_get threadId g = Some r.
Proof.
  unfold stored. destruct (parse_groups (kv w !! "groups")) as [g|]; [|discriminate].
  intros H. exists g. split; [reflexivity | exact H].
Qed.

Lemma same_store_no_write_no_record :
  Quiet same_store (fun ev => is_write ev = false /\ hands_over ev = false).
Proof. split; try (intros; split; reflexivity); try reflexivity. unfold same_store. congruence. Qed.

(** X16.  A refresh of a thread whose stored record has no [aliases] cannot
    end when the provider answers the lookup of the participants: the
    callback of the lookup throws, so nothing is written, and the caller's
    callback never gets a record.  The store is as it was. *)
Theorem refresh_without_aliases_writes_nothing (config : Config) (env : Env)
    (threadId : string) (message : Val) (id : nat) (r : Obj) (w : World) :
  kv_get_error env (requests w) = None ->
  stored w threadId = Some r ->
  obj_get "aliases" r = None ->
  (forall n, fst (user_reply env n) = None) ->
  let o := updateGroupInfo config env threadId message (observe_info id) w in
  kv (world o) = kv w
  /\ Forall (fun ev => is_write ev = false /\ hands_over ev = false) (events o).
Proof.
  intros Hread Hst Hal Huser. cbv zeta.
  destruct (stored_inv _ _ _ Hst) as (g & Hg & Hr).
  unfold updateGroupInfo. rewrite (getGroupInfo_run_ok env threadId _ w g Hread Hg), Hr.
  pose proof same_store_no_write_no_record as Q.
  set (PE := fun ev => is_write ev = false /\ hands_over ev = false) in *.
  match goal with
  | |- context [catch_out (?k (bump w))] =>
      assert (S : sat same_store PE k); [|destruct (sat_deliver _ _ Q _ S (bump w)) as [Hw He]]
  end.
  2:{ unfold deliver in Hw, He. unfold out_app. cbn [world events]. split.
      - exact Hw.
      - constructor; [split; reflexivity | exact He]. }
  apply sat_getGroupInfo; [exact Q|]. intros ownerErr ownerData.
  destruct ownerErr as [e|].
  { apply sat_seq; [exact Q | apply sat_console_log, Q |].
    apply sat_emit; [exact Q | split; reflexivity]. }
  apply sat_seq; [exact Q | apply sat_skip, Q |].
  apply sat_request; [exact Q | split; reflexivity |]. intros w1.
  destruct (thread_reply env (requests w1)) as [e3 [data|]]; cbn [fst snd].
  2:{ apply sat_seq; [exact Q | apply sat_console_log, Q |].
      apply sat_seq; [exact Q | apply sat_console_log, Q |].
      apply sat_emit; [exact Q|]. destruct e3; split; reflexivity. }
  apply sat_request; [exact Q | split; reflexivity |]. intros w2.
  specialize (Huser (requests w2)).
  destruct (user_reply env (requests w2)) as [e4 userData]. simpl in Huser. subst e4.
  cbn [fst snd].
  assert (Hnone : merge_user_data config env
                    (merge_thread_data config threadId message (Some r) data) userData
                  = None).
  { unfold merge_user_data. cbv zeta.
    assert (E : obj_read "aliases"
                  (obj_set "names" (VObj (fold_left (add_member config) userData ([], [])).2)
                     (obj_set "members"
                        (VObj (fold_left (add_member config) userData ([], [])).1)
                        (merge_thread_data config threadId message (Some r) data)))
                = VUndef).
    { rewrite !obj_read_set_ne by discriminate. unfold obj_read.
      rewrite (merge_thread_data_keeps config threadId message r data "aliases"), Hal.
      - reflexivity.
      - unfold refreshed_fields. cbn. intuition discriminate. }
    rewrite E. reflexivity. }
  rewrite Hnone. apply sat_throw, Q.
Qed.

Lemma refresh_without_aliases_writes_nothing_witness :
  (kv_get_error env_ok (requests world_stored) = None
   /\ stored world_stored "T1" = Some demo_record
   /\ obj_get "aliases" demo_record = None
   /\ (forall n, fst (user_reply env_ok n) = None))
  /\ kv (world (updateGroupInfo demo_config env_ok "T1" (VStr "hi") (observe_info 1)
                  world_stored))
     = kv world_stored
  /\ Forall (fun ev => is_write ev = false /\ hands_over ev = false)
       (events (updateGroupInfo demo_config env_ok "T1" (VStr "hi") (observe_info 1)
                  world_stored)).
Proof.
  assert (H4 : forall n, fst (user_reply env_ok n) = None) by (intros n; reflexivity).
  split; [repeat split; try reflexivity; exact H4|].
  apply (refresh_without_aliases_writes_nothing demo_config env_ok "T1" (VStr "hi") 1
           demo_record world_stored eq_refl eq_refl eq_refl H4).
Defined.

(** ** Deleting an event *)

Lemma json_clean_obj_cons (k : string) (x : Val) (o : Obj) :
  json_clean_obj ((k, x) :: o)
  = match x with
    | VUndef => json_clean_obj o
    | _ => (k, json_clean x) :: json_clean_obj o
    end.
Proof. destruct x; reflexivity. Qed.

Lemma json_clean_obj_get (k : string) (v : Val) (o : Obj) :
  obj_get k o = Some v -> v <> VUndef ->
  obj_get k (json_clean_obj o) = Some (json_clean v).
Proof.
  intros Hget Hv. induction o as [|[k' x] o IH]; [discriminate|].
  rewrite json_clean_obj_cons. cbn [obj_get] in Hget.
  destruct (String.eqb k k') eqn:Hk.
  - injection Hget as ->. destruct v; try congruence; cbn [obj_get]; rewrite Hk; reflexivity.
  - destruct x; cbn [obj_get]; rewrite ?Hk; auto.
Qed.

Lemma json_clean_obj_get_none (k : string) (o : Obj) :
  obj_get k o = None -> obj_get k (json_clean_obj o) = None.
Proof.
  induction o as [|[k' x] o IH]; [reflexivity|].
  rewrite json_clean_obj_cons. cbn [obj_get].
  destruct (String.eqb k k') eqn:Hk; [discriminate|].
  intros H. destruct x; cbn [obj_get]; rewrite ?Hk; auto.
Qed.

Lemma obj_get_delete (k : string) (o : Obj) : obj_get k (obj_delete k o) = None.
Proof.
  induction o as [|[k' x] o IH]; [reflexivity|]. cbn [obj_delete].
  destruct (String.eqb k k') eqn:Hk; [assumption|]. cbn [obj_get]. now rewrite Hk.
Qed.

Lemma obj_set_twice (k : string) (v v' : Val) (o : Obj) :
  obj_set k v (obj_set k v' o) = obj_set k v o.
Proof.
  induction o as [|[k' x] o IH]; cbn [obj_set].
  - now rewrite String.eqb_refl.
  - destruct (String.eqb k k') eqn:Hk; cbn [obj_set]; rewrite Hk; [reflexivity|].
    now rewrite IH.
Qed.

Lemma filter_is_send_none (l : list Event) :
  Forall (fun e => background e = true /\ is_send e = false) l ->
  List.filter is_send l = [].
Proof.
  induction 1 as [|e l [_ He] _ IH]; [reflexivity|]. cbn [List.filter]. now rewrite He.
Qed.

Lemma stored_same_kv (w w' : World) (threadId : string) :
  kv w' = kv w -> stored w' threadId = stored w threadId.
Proof. intros H. unfold stored. now rewrite H. Qed.

(** X17.  [deleteEvent] for a title the group has no event of sends no
    answer: building the text of the answer reads a name that is not
    declared, so the call ends in a ReferenceError before anything is sent or
    changed. *)
Theorem deleteEvent_unknown_event_throws (env : Env) (loose_eq : Val -> Val -> bool)
    (keyTitle : string) (sender : Val) (groupInfo : nat) (threadId : string)
    (after : nat) (evs : Obj) (w : World) :
  obj_read "events" (deref w groupInfo) = VObj evs ->
  has_truthy keyTitle evs = false ->
  deleteEvent env loose_eq keyTitle sender groupInfo threadId after w
  = {| thrown := Some "ReferenceError"; world := w; events := [] |}.
Proof.
  intros He Hk. unfold deleteEvent, with_info. rewrite He. cbn [as_obj]. rewrite Hk.
  reflexivity.
Qed.

Lemma deleteEvent_unknown_event_throws_witness :
  (obj_read "events" (deref world_member 0%nat) = VObj [("party", VObj demo_event)]
   /\ has_truthy "picnic" [("party", VObj demo_event)] = false)
  /\ deleteEvent env_ok val_eqb "picnic" (VStr "U1") 0 "T1" 9 world_member
     = {| thrown := Some "ReferenceError"; world := world_member; events := [] |}.
Proof.
  split; [split; reflexivity|].
  apply (deleteEvent_unknown_event_throws env_ok val_eqb "picnic" (VStr "U1") 0 "T1" 9
           [("party", VObj demo_event)] world_member eq_refl eq_refl).
Defined.

(** X18.  [deleteEvent] by somebody who is not the owner of the event leaves
    the record and the store as they are and answers with one message, the
    refusal. *)
Theorem deleteEvent_not_owner (env : Env) (loose_eq : Val -> Val -> bool)
    (keyTitle : string) (sender : Val) (groupInfo : nat) (threadId : string)
    (after : nat) (evs : Obj) (w : World) :
  is_Some (heap w !! groupInfo) ->
  obj_read "events" (deref w groupInfo) = VObj evs ->
  has_truthy keyTitle evs = true ->
  loose_eq (field "owner" (obj_read keyTitle evs)) sender = false ->
  threadId <> EmptyString ->
  let o := deleteEvent env loose_eq keyTitle sender groupInfo threadId after w in
  thrown o = None
  /\ deref (world o) groupInfo = deref w groupInfo
  /\ kv (world o) = kv w
  /\ List.filter is_send (events o)
     = [EvSendMessage "Error: Sorry, you are not the owner of this event." threadId None].
Proof.
  intros Hheap He Hk Hown Ht. cbv zeta. unfold deleteEvent, with_info.
  rewrite He. cbn [as_obj]. rewrite Hk, Hown. unfold sendError.
  destruct (sendMessage_default_run env
              ("Error: " ++ "Sorry, you are not the owner of this event.") threadId None w)
    as (Hthrown & (rest & Hev & Hrest) & Hkv & Hderef & _);
    [discriminate | exact Ht |].
  repeat split; [exact Hthrown | apply Hderef, Hheap | exact Hkv |].
  rewrite Hev. cbn [List.filter is_send]. now rewrite (filter_is_send_none _ Hrest).
Qed.

Lemma deleteEvent_not_owner_witness :
  (is_Some (heap world_member !! 0%nat)
   /\ obj_read "events" (deref world_member 0%nat) = VObj [("party", VObj demo_event)]
   /\ has_truthy "party" [("party", VObj demo_event)] = true
   /\ val_eqb (field "owner" (obj_read "party" [("party", VObj demo_event)])) (VStr "U9")
      = false
   /\ "T1" <> EmptyString)
  /\ deref (world (deleteEvent env_ok val_eqb "party" (VStr "U9") 0 "T1" 9 world_member))
       0%nat
     = deref world_member 0%nat.
Proof.
  assert (H1 : is_Some (heap world_member !! 0%nat)) by (eexists; reflexivity).
  assert (H5 : "T1" <> EmptyString) by discriminate.
  split; [repeat split; try reflexivity; assumption|].
  apply (deleteEvent_not_owner env_ok val_eqb "party" (VStr "U9") 0 "T1" 9
           [("party", VObj demo_event)] world_member H1 eq_refl eq_refl eq_refl H5).
Defined.

Lemma tick_with_fires (env : Env) (run : nat -> option Err -> Proc) (t : Timer)
    (ts : list Timer) (w : World) :
  timers w = t :: ts ->
  tick_with env run w = catch_out (fire_with env run t (set_timers (fun _ => ts) w)).
Proof. intros H. unfold tick_with. now rewrite H. Qed.

(** The timeout body with a table of closures, when the store answers the
    read and the write: the record is written, the thread is unlocked, and
    then the closure runs. *)
Lemma fire_with_ok (env : Env) (run : nat -> option Err -> Proc) (info id : nat)
    (g : GroupData) (w : World) :
  kv_get_error env (requests w) = None ->
  parse_groups (kv w !! "groups") = Some g ->
  kv_set_error env (S (requests w)) = None ->
  let o := deref w info in
  let tid := obj_read "threadId" o in
  let blob := JSON_stringify (assoc_set (js_to_string tid) o g) in
  let w' := {| kv := <["groups" := blob]> (kv w);
               lockedThreads := without tid (lockedThreads w);
               heap := heap w; timers := timers w;
               requests := S (S (requests w)) |} in
  fire_with env run {| t_info := info; t_callback := CbUser id |} w
  = out_app [EvMemGet "groups"; EvMemSet "groups" blob] (catch_out (run id None w')).
Proof.
  intros H Hg Hs. cbv zeta. unfold fire_with, with_info, setGroupInfo.
  rewrite (getGroupData_read_ok _ _ g) by assumption.
  unfold mem_set, request, deliver. cbn [requests bump]. rewrite Hs.
  cbn [t_info t_callback]. unfold seq, modify. cbn [bind_out thrown world events].
  unfold deref. cbn [heap set_kv bump set_lockedThreads].
  match goal with
  | |- context [run id None ?a] =>
      match goal with
      | |- context [catch_out (run id None ?b)] => change a with b
      end
  end.
  destruct (run id None _) as [t' w' e']. destruct t'; reflexivity.
Qed.

(** What [deleteEvent] does when the owner asks and the thread is not
    locked: the event leaves the record held, the thread is locked and a
    timer is queued for the closure. *)
Lemma deleteEvent_owner_unlocked (env : Env) (loose_eq : Val -> Val -> bool)
    (keyTitle : string) (sender : Val) (groupInfo : nat) (threadId : string)
    (after : nat) (info evs : Obj) (w : World) :
  heap w !! groupInfo = Some info ->
  obj_read "events" info = VObj evs ->
  has_truthy keyTitle evs = true ->
  loose_eq (field "owner" (obj_read keyTitle evs)) sender = true ->
  includes (obj_read "threadId" info) (lockedThreads w) = false ->
  let info' := obj_set "events" (VObj (obj_delete keyTitle evs)) info in
  deleteEvent env loose_eq keyTitle sender groupInfo threadId after w
  = {| thrown := None;
       world :=
         {| kv := kv w;
            lockedThreads := lockedThreads w ++ [obj_read "threadId" info];
            heap := <[groupInfo := info']> (<[groupInfo := info']> (heap w));
            timers := timers w ++ [{| t_info := groupInfo; t_callback := CbUser after |}];
            requests := requests w |};
       events := [] |}.
Proof.
  intros Hheap He Hk Hown Hlock. cbv zeta. unfold deleteEvent, with_info.
  assert (Hd : deref w groupInfo = info) by (unfold deref; now rewrite Hheap).
  rewrite Hd, He. cbn [as_obj]. rewrite Hk, Hown.
  set (info' := obj_set "events" (VObj (obj_delete keyTitle evs)) info).
  unfold seq, modify. cbn [bind_out thrown world events].
  assert (Ht : obj_read "threadId" info' = obj_read "threadId" info).
  { unfold info'. apply obj_read_set_ne. discriminate. }
  rewrite setGroupProperty_unlocked.
  - rewrite deref_insert_eq.
    replace (obj_set "events" (VObj (obj_delete keyTitle evs)) info') with info'
      by (unfold info'; now rewrite obj_set_twice).
    rewrite Ht. reflexivity.
  - rewrite deref_insert_eq. fold info'. rewrite Ht. exact Hlock.
Qed.

(** X19.  [deleteEvent] by the owner on a thread that is not locked, and then
    the timeout, with a store that answers: the record the store then holds
    for the thread has no event of that title, nothing was thrown, and the
    only message sent is the confirmation, if one was asked for. *)
Theorem deleteEvent_then_timeout (env : Env) (loose_eq : Val -> Val -> bool)
    (run : nat -> option Err -> Proc) (keyTitle : string) (sender : Val)
    (groupInfo : nat) (threadId : string) (after : nat) (sendConfirmation : bool)
    (info evs : Obj) (g : GroupData) (w : World) :
  heap w !! groupInfo = Some info ->
  obj_read "events" info = VObj evs ->
  has_truthy keyTitle evs = true ->
  loose_eq (field "owner" (obj_read keyTitle evs)) sender = true ->
  includes (obj_read "threadId" info) (lockedThreads w) = false ->
  timers w = [] ->
  kv_get_error env (requests w) = None ->
  parse_groups (kv w !! "groups") = Some g ->
  kv_set_error env (S (requests w)) = None ->
  (forall err,
      run after err
      = deleteEvent_done env (field "title" (obj_read keyTitle evs)) threadId
          sendConfirmation err) ->
  threadId <> EmptyString ->
  let o := (deleteEvent env loose_eq keyTitle sender groupInfo threadId after ;;
            tick_with env run) w in
  thrown o = None
  /\ (exists r evs',
         stored (world o) (js_to_string (obj_read "threadId" info)) = Some r
         /\ obj_read "events" r = VObj evs'
         /\ obj_get keyTitle evs' = None)
  /\ List.filter is_send (events o)
     = if sendConfirmation then
         [EvSendMessage
            ("Successfully deleted " ++ dq
             ++ js_to_string (field "title" (obj_read keyTitle evs)) ++ dq ++ ".")
            threadId None]
       else [].
Proof.
  intros Hheap He Hk Hown Hlock Htimers Hread Hg Hwrite Hrun Ht. cbv zeta.
  unfold seq.
  rewrite (deleteEvent_owner_unlocked env loose_eq keyTitle sender groupInfo threadId
             after info evs w Hheap He Hk Hown Hlock).
  cbv zeta. set (info' := obj_set "events" (VObj (obj_delete keyTitle evs)) info).
  rewrite Htimers. cbn [bind_out app thrown world events].
  erewrite tick_with_fires by reflexivity.
  match goal with
  | |- context [fire_with env run ?t ?w1] =>
      pose proof (fire_with_ok env run groupInfo after g w1 Hread Hg Hwrite) as Hfire;
      set (w1' := w1) in *
  end.
  cbv zeta in Hfire.
  assert (Hd : deref w1' groupInfo = info').
  { unfold w1', deref. cbn. now rewrite lookup_insert_eq. }
  rewrite Hd in Hfire.
  assert (Htid : obj_read "threadId" info' = obj_read "threadId" info).
  { unfold info'. apply obj_read_set_ne. discriminate. }
  rewrite Htid in Hfire. rewrite Hfire. clear Hfire. rewrite Hrun.
  set (blob := JSON_stringify
                 (assoc_set (js_to_string (obj_read "threadId" info)) info' g)).
  match goal with
  | |- context [deleteEvent_done _ _ _ _ None ?x] => set (w2 := x)
  end.
  assert (Hstored : forall w3, kv w3 = kv w2 ->
            exists r evs',
              stored w3 (js_to_string (obj_read "threadId" info)) = Some r
              /\ obj_read "events" r = VObj evs'
              /\ obj_get keyTitle evs' = None).
  { intros w3 E. exists (json_clean_obj info'), (json_clean_obj (obj_delete keyTitle evs)).
    split; [|split].
    - rewrite (stored_same_kv w2 w3 _ E).
      change w2 with (set_kv (insert "groups" blob)
                        {| kv := kv w; lockedThreads := lockedThreads w2;
                           heap := heap w2; timers := timers w2;
                           requests := requests w2 |}).
      unfold blob. rewrite stored_after_write, assoc_get_set_eq. reflexivity.
    - unfold obj_read.
      rewrite (json_clean_obj_get "events" (VObj (obj_delete keyTitle evs)) info').
      + reflexivity.
      + unfold info'. apply obj_get_set_eq.
      + discriminate.
    - apply json_clean_obj_get_none, obj_get_delete. }
  unfold deleteEvent_done. destruct sendConfirmation.
  - destruct (sendMessage_default_run env
                ("Successfully deleted " ++ dq
                 ++ js_to_string (field "title" (obj_read keyTitle evs)) ++ dq ++ ".")
                threadId None w2)
      as (Hthrown & (rest & Hev & Hrest) & Hkv & _); [discriminate | exact Ht |].
    unfold catch_out. rewrite !Hthrown. unfold out_app. cbn [thrown world events].
    rewrite Hthrown. cbn [thrown world events]. repeat split.
    + apply Hstored, Hkv.
    + rewrite Hev. cbn [app List.filter is_send].
      now rewrite (filter_is_send_none _ Hrest).
  - cbn. repeat split. apply Hstored. reflexivity.
Qed.

Lemma deleteEvent_then_timeout_witness :
  (heap world_member !! 0%nat = Some demo_member_record
   /\ obj_read "events" demo_member_record = VObj [("party", VObj demo_event)]
   /\ has_truthy "party" [("party", VObj demo_event)] = true
   /\ val_eqb (field "owner" (obj_read "party" [("party", VObj demo_event)])) (VStr "U1")
      = true
   /\ includes (obj_read "threadId" demo_member_record) (lockedThreads world_member)
      = false
   /\ timers world_member = []
   /\ kv_get_error env_ok (requests world_member) = None
   /\ parse_groups (kv world_member !! "groups") = Some [("T1", demo_member_record)]
   /\ kv_set_error env_ok (S (requests world_member)) = None
   /\ "T1" <> EmptyString)
  /\ List.filter is_send
       (events
          ((deleteEvent env_ok val_eqb "party" (VStr "U1") 0 "T1" 9 ;;
            tick_with env_ok
              (fun _ err => deleteEvent_done env_ok (VStr "Party") "T1" true err))
             world_member))
     = [EvSendMessage ("Successfully deleted " ++ dq ++ "Party" ++ dq ++ ".") "T1" None].
Proof.
  assert (H : "T1" <> EmptyString) by discriminate.
  split; [repeat split; try reflexivity; exact H|].
  apply (deleteEvent_then_timeout env_ok val_eqb
           (fun _ err => deleteEvent_done env_ok (VStr "Party") "T1" true err)
           "party" (VStr "U1") 0 "T1" 9 true demo_member_record
           [("party", VObj demo_event)] [("T1", demo_member_record)] world_member
           eq_refl eq_refl eq_refl eq_refl eq_refl eq_refl eq_refl eq_refl eq_refl
           (fun _ => eq_refl) H).
Defined.

(** X20.  [deleteEvent] by the owner while the thread is locked: the event
    leaves the record held, and that is all the call does: no timer is
    queued, nothing is read, written or sent, and the closure that would
    confirm the deletion is dropped. *)
Theorem deleteEvent_locked_is_not_written (env : Env) (loose_eq : Val -> Val -> bool)
    (keyTitle : string) (sender : Val) (groupInfo : nat) (threadId : string)
    (after : nat) (info evs : Obj) (w : World) :
  heap w !! groupInfo = Some info ->
  obj_read "events" info = VObj evs ->
  has_truthy keyTitle evs = true ->
  loose_eq (field "owner" (obj_read keyTitle evs)) sender = true ->
  includes (obj_read "threadId" info) (lockedThreads w) = true ->
  deleteEvent env loose_eq keyTitle sender groupInfo threadId after w
  = {| thrown := None;
       world :=
         set_heap (insert groupInfo (obj_set "events" (VObj (obj_delete keyTitle evs)) info))
           w;
       events := [] |}.
Proof.
  intros Hheap He Hk Hown Hlock. unfold deleteEvent, with_info.
  assert (Hd : deref w groupInfo = info) by (unfold deref; now rewrite Hheap).
  rewrite Hd, He. cbn [as_obj]. rewrite Hk, Hown.
  unfold seq, modify. cbn [bind_out thrown world events].
  unfold setGroupProperty, with_info. rewrite deref_insert_eq.
  rewrite obj_read_set_ne by discriminate.
  cbn [lockedThreads set_heap]. rewrite Hlock. reflexivity.
Qed.

Lemma deleteEvent_locked_is_not_written_witness :
  (heap (set_lockedThreads (fun _ => [VStr "T1"]) world_member) !! 0%nat
   = Some demo_member_record
   /\ obj_read "events" demo_member_record = VObj [("party", VObj demo_event)]
   /\ has_truthy "party" [("party", VObj demo_event)] = true
   /\ val_eqb (field "owner" (obj_read "party" [("party", VObj demo_event)])) (VStr "U1")
      = true
   /\ includes (obj_read "threadId" demo_member_record)
        (lockedThreads (set_lockedThreads (fun _ => [VStr "T1"]) world_member))
      = true)
  /\ deleteEvent env_ok val_eqb "party" (VStr "U1") 0 "T1" 9
       (set_lockedThreads (fun _ => [VStr "T1"]) world_member)
     = {| thrown := None;
          world :=
            set_heap
              (insert 0%nat
                 (obj_set "events" (VObj (obj_delete "party" [("party", VObj demo_event)]))
                    demo_member_record))
              (set_lockedThreads (fun _ => [VStr "T1"]) world_member);
          events := [] |}.
Proof.
  split; [repeat split; reflexivity|].
  apply (deleteEvent_locked_is_not_written env_ok val_eqb "party" (VStr "U1") 0 "T1" 9
           demo_member_record [("party", VObj demo_event)]
           (set_lockedThreads (fun _ => [VStr "T1"]) world_member)
           eq_refl eq_refl eq_refl eq_refl eq_refl).
Defined.

(** ** A message to every group *)

Lemma insert_index_in (x y : Z * string) (l : list (Z * string)) :
  In y (insert_index x l) -> y = x \/ In y l.
Proof.
  induction l as [|k' l IH]; cbn [insert_index].
  - intros [<- | []]. now left.
  - destruct (fst x <=? fst k').
    + intros [<- | H]; [now left | now right].
    + intros [<- | H]; [right; now left|].
      destruct (IH H) as [-> | H']; [now left | right; now right].
Qed.

Lemma for_in_order_in (k : string) (keys : list string) :
  In k (for_in_order keys) -> In k keys.
Proof.
  unfold for_in_order. rewrite in_app_iff, in_map_iff.
  intros [((z & k') & <- & H) | H].
  - cbn [snd]. induction keys as [|k0 keys IH]; [destruct H|].
    cbn [index_keys] in H. destruct (array_index k0).
    + apply insert_index_in in H as [[= _ ->] | H]; [now left | right; auto].
    + right; auto.
  - induction keys as [|k0 keys IH]; [destruct H|].
    cbn [other_keys] in H. destruct (array_index k0).
    + right; auto.
    + destruct H as [<- | H]; [now left | right; auto].
Qed.

Lemma assoc_get_in {A} (k : string) (m : list (string * A)) :
  In k (map fst m) -> is_Some (assoc_get k m).
Proof.
  induction m as [|[k' v] m IH]; [intros []|]. cbn [map fst assoc_get].
  destruct (String.eqb k k') eqn:Hk; [eauto|].
  intros [-> | H]; [|auto]. now rewrite String.eqb_refl in Hk.
Qed.

Lemma sendToAll_loop_run (env : Env) (msg : string) (g : GroupData) (keys : list string) :
  msg <> EmptyString ->
  (forall k, In k keys -> is_Some (assoc_get k g)) ->
  forall w,
    let o := sendToAll_loop env msg g keys w in
    thrown o = None
    /\ kv (world o) = kv w
    /\ List.filter is_send (events o)
       = map (fun k => EvSendMessage msg k None) (List.filter (is_group_thread g) keys).
Proof.
  intros Hmsg. induction keys as [|k keys IH]; intros Hkeys w; cbv zeta.
  - repeat split.
  - cbn [sendToAll_loop List.filter]. unfold seq, is_group_thread at 1.
    destruct (Hkeys k (or_introl eq_refl)) as [group Hgroup]. rewrite Hgroup.
    assert (Hrest : forall k', In k' keys -> is_Some (assoc_get k' g))
      by (intros k' H; apply Hkeys; now right).
    destruct (truthy (obj_read "isGroup" group)); cbn [andb].
    + destruct (String.eqb k EmptyString) eqn:Hk; cbn [negb].
      * apply String.eqb_eq in Hk. subst k. unfold sendMessage.
        rewrite String.eqb_refl, orb_true_r. cbn [skip bind_out thrown world events out_app].
        destruct (IH Hrest w) as (H1 & H2 & H3).
        unfold out_app. cbn [thrown world events app]. auto.
      * apply String.eqb_neq in Hk.
        destruct (sendMessage_default_run env msg k None w Hmsg Hk)
          as (Hthrown & (rest & Hev & Hnone) & Hkv & _).
        unfold bind_out. rewrite Hthrown.
        destruct (IH Hrest (world (sendMessage env msg k (fun _ _ => skip) None w)))
          as (H1 & H2 & H3).
        unfold out_app. cbn [thrown world events].
        rewrite List.filter_app, Hev, H3. cbn [List.filter is_send map app].
        rewrite (filter_is_send_none _ Hnone). repeat split; [exact H1 | congruence].
    + cbn [skip bind_out thrown world events]. destruct (IH Hrest w) as (H1 & H2 & H3).
      unfold out_app. cbn [thrown world events app]. auto.
Qed.

(** X21.  [sendToAll] with a store that answers and a message that is not
    empty sends the message once to every thread of the group map whose
    record has a true [isGroup], in the order of the [for .. in] loop, and to
    no other thread; it writes nothing. *)
Theorem sendToAll_sends_to_groups (env : Env) (msg : string) (g : GroupData) (w : World) :
  kv_get_error env (requests w) = None ->
  parse_groups (kv w !! "groups") = Some g ->
  msg <> EmptyString ->
  let o := sendToAll env msg w in
  thrown o = None
  /\ kv (world o) = kv w
  /\ List.filter is_send (events o)
     = map (fun k => EvSendMessage msg k None)
         (List.filter (is_group_thread g) (for_in_order (map fst g))).
Proof.
  intros Hread Hg Hmsg. cbv zeta. unfold sendToAll.
  rewrite (getGroupData_read_ok _ _ g) by assumption.
  destruct (sendToAll_loop_run env msg g (for_in_order (map fst g)) Hmsg) with (w := bump w)
    as (H1 & H2 & H3).
  { intros k Hk. apply assoc_get_in, for_in_order_in, Hk. }
  unfold catch_out. rewrite H1. unfold out_app. cbn [thrown world events List.filter is_send].
  auto.
Qed.

Lemma sendToAll_sends_to_groups_witness :
  (kv_get_error env_ok (requests world_three_threads) = None
   /\ parse_groups (kv world_three_threads !! "groups")
      = Some [("T1", demo_member_record);
              ("U1", [("threadId", VStr "U1"); ("isGroup", VBool false)]);
              ("42", [("threadId", VStr "42"); ("isGroup", VBool true)])]
   /\ "hello" <> EmptyString)
  /\ List.filter is_send (events (sendToAll env_ok "hello" world_three_threads))
     = [EvSendMessage "hello" "42" None; EvSendMessage "hello" "T1" None].
Proof.
  assert (H : "hello" <> EmptyString) by discriminate.
  split; [repeat split; try reflexivity; exact H|].
  apply (sendToAll_sends_to_groups env_ok "hello"
           [("T1", demo_member_record);
            ("U1", [("threadId", VStr "U1"); ("isGroup", VBool false)]);
            ("42", [("threadId", VStr "42"); ("isGroup", VBool true)])]
           world_three_threads eq_refl eq_refl H).
Defined.

(** X22.  When the read of the group map fails, [sendToAll] sends nothing
    and reports nothing: the run is the read alone. *)
Theorem sendToAll_read_error (env : Env) (msg : string) (e : Err) (w : World) :
  kv_get_error env (requests w) = Some e ->
  sendToAll env msg w
  = {| thrown := None; world := bump w; events := [EvMemGet "groups"] |}.
Proof.
  intros H. unfold sendToAll. now rewrite (getGroupData_read_error _ _ e).
Qed.

Lemma sendToAll_read_error_witness :
  kv_get_error env_read_fails (requests world_three_threads) = Some "ETIMEDOUT"
  /\ sendToAll env_read_fails "hello" world_three_threads
     = {| thrown := None; world := bump world_three_threads;
          events := [EvMemGet "groups"] |}.
Proof.
  split; [reflexivity|].
  apply (sendToAll_read_error env_read_fails "hello" "ETIMEDOUT" world_three_threads
           eq_refl).
Defined.

(** ** The most active user *)

Lemma insert_index_has (x y : Z * string) (l : list (Z * string)) :
  y = x \/ In y l -> In y (insert_index x l).
Proof.
  induction l as [|k' l IH]; cbn [insert_index].
  - intros [-> | []]. now left.
  - destruct (fst x <=? fst k').
    + intros [-> | H]; [now left | now right].
    + intros [-> | [-> | H]]; [right; apply IH; now left | now left | right; apply IH; now right].
Qed.

Lemma in_for_in_order (k : string) (keys : list string) :
  In k keys -> In k (for_in_order keys).
Proof.
  unfold for_in_order. rewrite in_app_iff, in_map_iff.
  induction keys as [|k0 keys IH]; [intros []|].
  cbn [index_keys other_keys]. intros [-> | H].
  - destruct (array_index k) as [z|] eqn:Hz.
    + left. exists (z, k). split; [reflexivity|]. apply insert_index_has. now left.
    + right. now left.
  - destruct (IH H) as [(zk & Hzk & Hin) | Hin].
    + left. exists zk. split; [assumption|].
      destruct (array_index k0); [apply insert_index_has; now right | assumption].
    + destruct (array_index k0); [now right | right; now right].
Qed.

Lemma assoc_get_some_in {A} (k : string) (v : A) (m : list (string * A)) :
  assoc_get k m = Some v -> In k (map fst m).
Proof.
  induction m as [|[k' v'] m IH]; [discriminate|]. cbn [assoc_get map fst].
  destruct (String.eqb k k') eqn:Hk.
  - apply String.eqb_eq in Hk. now left.
  - intros H. right. auto.
Qed.

Lemma inherited_proto (k : string) : inherited k = false -> String.eqb k "__proto__" = false.
Proof.
  intros H. destruct (String.eqb k "__proto__") eqn:E; [|reflexivity].
  apply String.eqb_eq in E. subst k. discriminate H.
Qed.

Lemma count_use_same (key : string) (m : list (string * Num)) :
  inherited key = false -> counted m ->
  assoc_get key (count_use key m) = Some (Int (held m key + 1)).
Proof.
  intros Hkey Hm. unfold count_use, held, no_count.
  rewrite (inherited_proto _ Hkey), Hkey. cbn [negb].
  destruct (assoc_get key m) as [v|] eqn:Hget.
  - destruct (Hm _ _ Hget) as (_ & z & -> & Hz).
    replace (z =? 0) with false by (symmetry; apply Z.eqb_neq; lia).
    rewrite assoc_get_set_eq, Hget. reflexivity.
  - rewrite !assoc_get_set_eq. reflexivity.
Qed.

Lemma count_use_other (key k : string) (m : list (string * Num)) :
  k <> key -> assoc_get k (count_use key m) = assoc_get k m.
Proof.
  intros Hne. unfold count_use.
  destruct (String.eqb key "__proto__"); [reflexivity|].
  rewrite assoc_get_set_ne by assumption.
  destruct (no_count key m); [now rewrite assoc_get_set_ne | reflexivity].
Qed.

Lemma count_use_counted (key : string) (m : list (string * Num)) :
  inherited key = false -> counted m -> counted (count_use key m).
Proof.
  intros Hkey Hm k v Hget. destruct (String.eqb k key) eqn:Hk.
  - apply String.eqb_eq in Hk. subst k. rewrite count_use_same in Hget by assumption.
    injection Hget as <-. split; [assumption|]. eexists. split; [reflexivity|].
    unfold held. destruct (assoc_get key m) as [v|] eqn:Hv; [|lia].
    destruct (Hm _ _ Hv) as (_ & z & -> & Hz). lia.
  - apply String.eqb_neq in Hk. rewrite count_use_other in Hget by assumption.
    exact (Hm _ _ Hget).
Qed.

Lemma uses_cons (item : Val) (record : list Val) (k : string) :
  uses (item :: record) k
  = ((match user_of item with
      | Some id => if String.eqb (js_to_string id) k then 1 else 0
      | None => 0
      end) + uses record k)%nat.
Proof.
  unfold uses. cbn [List.filter].
  destruct (user_of item) as [id|]; [|reflexivity].
  destruct (String.eqb (js_to_string id) k); reflexivity.
Qed.

Lemma count_uses_counts (record : list Val) :
  (forall k, inherited k = true -> uses record k = 0%nat) ->
  forall m m',
    counted m -> count_uses record m = Some m' ->
    counted m' /\ forall k, held m' k = held m k + Z.of_nat (uses record k).
Proof.
  induction record as [|item record IH]; intros Hplain m m' Hm Hrun.
  - injection Hrun as <-. split; [assumption|]. intros k. unfold uses. cbn. lia.
  - cbn [count_uses] in Hrun. destruct (user_of item) as [id|] eqn:Hid; [|discriminate].
    assert (Hkey : inherited (js_to_string id) = false).
    { destruct (inherited (js_to_string id)) eqn:E; [|reflexivity].
      specialize (Hplain _ E). rewrite uses_cons, Hid, String.eqb_refl in Hplain.
      discriminate Hplain. }
    assert (Hrest : forall k, inherited k = true -> uses record k = 0%nat).
    { intros k E. specialize (Hplain k E). rewrite uses_cons in Hplain. lia. }
    destruct (IH Hrest _ _ (count_use_counted _ _ Hkey Hm) Hrun) as [Hc Hheld].
    split; [assumption|]. intros k. rewrite Hheld, uses_cons, Hid.
    destruct (String.eqb (js_to_string id) k) eqn:Hk.
    + apply String.eqb_eq in Hk. subst k. unfold held at 1.
      rewrite count_use_same by assumption. lia.
    + apply String.eqb_neq in Hk. unfold held at 1.
      rewrite count_use_other by congruence. fold (held m k). lia.
Qed.

Lemma pick_max_spec (m : list (string * Num)) (keys : list string) :
  forall best,
    0 <= fst best ->
    let best' := pick_max m keys best in
    (forall k, In k keys -> held m k <= fst best')
    /\ ((best' = best)
        \/ (exists u, snd best' = VStr u /\ In u keys /\ held m u = fst best'
                      /\ fst best < fst best')).
Proof.
  induction keys as [|u keys IH]; intros best Hpos; cbv zeta.
  - split; [intros k []|]. now left.
  - cbn [pick_max].
    set (b1 := match assoc_get u m with
               | Some (Int n) => if fst best <? n then (n, VStr u) else best
               | _ => best
               end).
    assert (Hb1 : fst best <= fst b1 /\ held m u <= fst b1
                  /\ (b1 = best \/ (b1 = (held m u, VStr u) /\ fst best < held m u))).
    { unfold b1, held. destruct (assoc_get u m) as [[|n]|] eqn:Hu.
      - repeat split; try lia. now left.
      - destruct (fst best <? n) eqn:Hlt.
        + apply Z.ltb_lt in Hlt. cbn [fst]. repeat split; try lia.
          right. split; [reflexivity | lia].
        + apply Z.ltb_ge in Hlt. repeat split; try lia. now left.
      - repeat split; try lia. now left. }
    destruct Hb1 as (Hle & Hu & Hb1).
    destruct (IH b1) as [Hall Hbest]; [lia|]. cbv zeta in Hall, Hbest.
    assert (Hmono : fst b1 <= fst (pick_max m keys b1)).
    { destruct Hbest as [-> | (u' & _ & _ & _ & Hlt)]; lia. }
    split.
    + intros k [<- | Hk]; [lia | auto].
    + destruct Hbest as [Hsame | (u' & Hs & Hin & Hh & Hlt)].
      * destruct Hb1 as [Hb | [Hb Hlt]].
        -- left. congruence.
        -- right. exists u. rewrite Hsame, Hb. cbn [fst snd].
           repeat split; [now left | assumption].
      * right. exists u'. repeat split; [assumption | now right | assumption | lia].
Qed.

(** X23.  [getHighestUser] returns a user with the most uses in the record:
    if it returns a name, that user has at least one use and nobody has
    more; it returns [undefined] only for an empty record; it returns nothing
    else.  Users are told apart by the text of their [user] property, and no
    such text is a name that every object inherits. *)
Theorem getHighestUser_has_most_uses (record : list Val) (v : Val) :
  (forall k, inherited k = true -> uses record k = 0%nat) ->
  getHighestUser record = Some v ->
  match v with
  | VStr u => (0 < uses record u)%nat /\ forall k, (uses record k <= uses record u)%nat
  | VUndef => record = []
  | _ => False
  end.
Proof.
  intros Hplain. unfold getHighestUser.
  destruct (count_uses record []) as [m|] eqn:Hrun; [|discriminate].
  destruct (count_uses_counts record Hplain [] m) as [Hm Hcnt];
    [intros k x Hk; discriminate Hk | exact Hrun |].
  assert (Huses : forall k, held m k = Z.of_nat (uses record k)).
  { intros k. rewrite Hcnt. reflexivity. }
  destruct (assoc_get "hasOwnProperty" m); [discriminate|].
  intros [= <-].
  destruct (pick_max_spec m (for_in_order (map fst m)) (0, VUndef)) as [Hall Hbest];
    [cbn; lia|]. cbv zeta in Hall, Hbest.
  assert (Hle : forall k, held m k <= fst (pick_max m (for_in_order (map fst m)) (0, VUndef))).
  { intros k. destruct (assoc_get k m) as [x|] eqn:Hk.
    - apply Hall, in_for_in_order. exact (assoc_get_some_in _ _ _ Hk).
    - unfold held at 1. rewrite Hk.
      destruct Hbest as [-> | (u & _ & _ & _ & Hlt)]; cbn [fst] in *; lia. }
  destruct Hbest as [Hsame | (u & Hs & Hin & Hh & Hlt)].
  - rewrite Hsame. cbn [snd]. rewrite Hsame in Hle. cbn [fst] in Hle.
    destruct record as [|item record]; [reflexivity|]. exfalso.
    cbn [count_uses] in Hrun. destruct (user_of item) as [id|] eqn:Hid; [|discriminate].
    specialize (Hle (js_to_string id)). rewrite Huses, uses_cons, Hid, String.eqb_refl in Hle.
    lia.
  - rewrite Hs. cbn [fst] in Hlt. split.
    + specialize (Huses u). lia.
    + intros k. specialize (Hle k). rewrite <- Hh, !Huses in Hle. lia.
Qed.

Lemma getHighestUser_has_most_uses_witness :
  ((forall k, inherited k = true ->
              uses [VObj [("at", VStr "Mon"); ("user", VStr "U2")];
                    VObj [("at", VStr "Tue"); ("user", VStr "7")];
                    VObj [("at", VStr "Wed"); ("user", VStr "U2")]] k = 0%nat)
   /\ getHighestUser [VObj [("at", VStr "Mon"); ("user", VStr "U2")];
                      VObj [("at", VStr "Tue"); ("user", VStr "7")];
                      VObj [("at", VStr "Wed"); ("user", VStr "U2")]]
      = Some (VStr "U2"))
  /\ (0 < uses [VObj [("at", VStr "Mon"); ("user", VStr "U2")];
                VObj [("at", VStr "Tue"); ("user", VStr "7")];
                VObj [("at", VStr "Wed"); ("user", VStr "U2")]] "U2")%nat
  /\ forall k,
       (uses [VObj [("at", VStr "Mon"); ("user", VStr "U2")];
              VObj [("at", VStr "Tue"); ("user", VStr "7")];
              VObj [("at", VStr "Wed"); ("user", VStr "U2")]] k
        <= uses [VObj [("at", VStr "Mon"); ("user", VStr "U2")];
                 VObj [("at", VStr "Tue"); ("user", VStr "7")];
                 VObj [("at", VStr "Wed"); ("user", VStr "U2")]] "U2")%nat.
Proof.
  assert (H1 : forall k, inherited k = true ->
                 uses [VObj [("at", VStr "Mon"); ("user", VStr "U2")];
                       VObj [("at", VStr "Tue"); ("user", VStr "7")];
                       VObj [("at", VStr "Wed"); ("user", VStr "U2")]] k = 0%nat).
  { intros k Hk. rewrite !uses_cons. cbn [user_of].
    change (js_to_string (obj_read "user" [("at", VStr "Mon"); ("user", VStr "U2")]))
      with "U2".
    change (js_to_string (obj_read "user" [("at", VStr "Tue"); ("user", VStr "7")]))
      with "7".
    change (js_to_string (obj_read "user" [("at", VStr "Wed"); ("user", VStr "U2")]))
      with "U2".
    destruct (String.eqb "U2" k) eqn:E1; [apply String.eqb_eq in E1; subst k; discriminate Hk|].
    destruct (String.eqb "7" k) eqn:E2; [apply String.eqb_eq in E2; subst k; discriminate Hk|].
    reflexivity. }
  split; [split; [exact H1 | reflexivity]|].
  exact (getHighestUser_has_most_uses
           [VObj [("at", VStr "Mon"); ("user", VStr "U2")];
            VObj [("at", VStr "Tue"); ("user", VStr "7")];
            VObj [("at", VStr "Wed"); ("user", VStr "U2")]]
           (VStr "U2") H1 eq_refl).
Defined.

(** ** Usage statistics *)

Section StatsFacts.

Variable env : Env.
Variable JSON_parse : string -> option Val.
Variable JSON_text : Val -> string.
Variable toISOString : Z -> string.

Lemma mem_get_run (key : string) (k : option Err -> option Blob -> Proc) (w : World) :
  mem_get env key k w
  = out_app [EvMemGet key]
      (catch_out
         (match kv_get_error env (requests w) with
          | Some e => k (Some e) None
          | None => k None (kv w !! key)
          end (bump w))).
Proof.
  unfold mem_get, request, deliver. destruct (kv_get_error env (requests w)); reflexivity.
Qed.

Lemma mem_set_run (key : string) (value : Blob) (k : option Err -> bool -> Proc)
    (w : World) :
  mem_set env key value k w
  = out_app [EvMemSet key value]
      (catch_out
         (match kv_set_error env (requests w) with
          | Some e => k (Some e) false
          | None => modify (set_kv (insert key value)) ;; k None true
          end (bump w))).
Proof.
  unfold mem_set, request, deliver. destruct (kv_set_error env (requests w)); reflexivity.
Qed.



(** [setStats] with a store that takes the three writes. *)
Lemma setStats_ok (command : string) (stats : Stats) (id : nat) (w : World) :
  kv_set_error env (requests w) = None ->
  kv_set_error env (S (requests w)) = None ->
  kv_set_error env (S (S (requests w))) = None ->
  let total := Text (Z_to_string (s_total stats)) in
  let count := Text (Z_to_string (s_count stats)) in
  let log := Text match s_record stats with
                  | Some r => JSON_text r
                  | None => "undefined"
                  end in
  setStats env JSON_text command stats (observe_errors id) w
  = {| thrown := None;
       world :=
         set_kv (insert ("usage_record_" ++ command) log)
           (bump (set_kv (insert ("usage_total_" ++ command) count)
                    (bump (set_kv (insert "usage_total_all" total) (bump w)))));
       events :=
         [EvMemSet "usage_total_all" total;
          EvMemSet ("usage_total_" ++ command) count;
          EvMemSet ("usage_record_" ++ command) log;
          EvCallback id [ArgNull; ArgNull; ArgNull]] |}.
Proof.
  intros S1 S2 S3. cbv zeta. unfold setStats.
  rewrite mem_set_run, S1. unfold seq at 1, modify at 1. cbn [bind_out thrown world events].
  rewrite mem_set_run. cbn [requests bump set_kv]. rewrite S2.
  unfold seq at 1, modify at 1. cbn [bind_out thrown world events].
  rewrite mem_set_run. cbn [requests bump set_kv]. rewrite S3.
  reflexivity.
Qed.

(** A run of [updateStats] in which only the first read may fail, and the
    stored log is missing, empty or an array. *)
Lemma updateStats_run (command : string) (senderID : Val) (id : nat) (v : Val)
    (items : list Val) (w : World) :
  kv_get_error env (S (requests w)) = None ->
  kv_get_error env (S (S (requests w))) = None ->
  parse_record JSON_parse (kv w !! ("usage_record_" ++ command)) = Some v ->
  (if truthy v then v else VArr []) = VArr items ->
  kv_set_error env (S (S (S (requests w)))) = None ->
  kv_set_error env (S (S (S (S (requests w))))) = None ->
  kv_set_error env (S (S (S (S (S (requests w)))))) = None ->
  let count := match kv_get_error env (requests w) with
               | Some _ => 0
               | None => int_or_zero (kv w !! ("usage_total_" ++ command))
               end in
  let total := int_or_zero (kv w !! "usage_total_all") in
  let log := VArr (items ++ [VObj [("at", VStr (toISOString (clock env (S (S (S (requests w)))))));
                                   ("user", senderID)]]) in
  let o := updateStats env JSON_parse JSON_text toISOString command senderID
             (observe_errors id) w in
  thrown o = None
  /\ kv (world o)
     = <["usage_record_" ++ command := Text (JSON_text log)]>
         (<["usage_total_" ++ command := Text (Z_to_string (count + 1))]>
            (<["usage_total_all" := Text (Z_to_string (total + 1))]> (kv w)))
  /\ events o
     = [EvMemGet ("usage_total_" ++ command); EvMemGet "usage_total_all";
        EvMemGet ("usage_record_" ++ command);
        EvMemSet "usage_total_all" (Text (Z_to_string (total + 1)));
        EvMemSet ("usage_total_" ++ command) (Text (Z_to_string (count + 1)));
        EvMemSet ("usage_record_" ++ command) (Text (JSON_text log));
        EvCallback id [ArgNull; ArgNull; ArgNull]].
Proof.
  intros G2 G3 Hparse Hitems S1 S2 S3. cbv zeta.
  unfold updateStats, getStats.
  rewrite mem_get_run.
  assert (E : forall (k : option Blob -> Proc),
             match kv_get_error env (requests w) with
             | Some e => k None
             | None => k (kv w !! ("usage_total_" ++ command))
             end
             = k match kv_get_error env (requests w) with
                 | Some _ => None
                 | None => kv w !! ("usage_total_" ++ command)
                 end).
  { intros k. destruct (kv_get_error env (requests w)); reflexivity. }
  rewrite (E (fun count => mem_get env "usage_total_all" _)). clear E.
  assert (Hc : int_or_zero match kv_get_error env (requests w) with
                           | Some _ => None
                           | None => kv w !! ("usage_total_" ++ command)
                           end
               = match kv_get_error env (requests w) with
                 | Some _ => 0
                 | None => int_or_zero (kv w !! ("usage_total_" ++ command))
                 end).
  { destruct (kv_get_error env (requests w)); reflexivity. }
  rewrite mem_get_run. cbn [requests bump kv]. rewrite G2.
  rewrite mem_get_run. cbn [requests bump kv]. rewrite G3, Hparse.
  cbn [s_count s_total s_record]. rewrite Hitems, Hc.
  unfold now. rewrite setStats_ok by assumption.
  cbn. repeat split.
Qed.


Lemma usage_keys_differ (a b : string) : "usage_record_" ++ a <> "usage_total_" ++ b.
Proof. intros H. apply (f_equal (String.get 6)) in H. discriminate H. Qed.

(** X25.  [updateStats] with a store that answers, and a stored log that is
    missing, empty or an array: the store then holds both counters one
    higher than it did (a counter that is missing or no number counts as 0)
    and the log with one more entry, for the sender; the writes come after
    the three reads, and the callback is called once, with no error. *)
Theorem updateStats_counts_one_use (command : string) (senderID : Val) (id : nat)
    (v : Val) (items : list Val) (w : World) :
  kv_get_error env (requests w) = None ->
  kv_get_error env (S (requests w)) = None ->
  kv_get_error env (S (S (requests w))) = None ->
  parse_record JSON_parse (kv w !! ("usage_record_" ++ command)) = Some v ->
  (if truthy v then v else VArr []) = VArr items ->
  kv_set_error env (S (S (S (requests w)))) = None ->
  kv_set_error env (S (S (S (S (requests w))))) = None ->
  kv_set_error env (S (S (S (S (S (requests w)))))) = None ->
  let count := int_or_zero (kv w !! ("usage_total_" ++ command)) in
  let total := int_or_zero (kv w !! "usage_total_all") in
  let log := VArr (items ++ [VObj [("at", VStr (toISOString (clock env (S (S (S (requests w)))))));
                                   ("user", senderID)]]) in
  let o := updateStats env JSON_parse JSON_text toISOString command senderID
             (observe_errors id) w in
  kv (world o)
  = <["usage_record_" ++ command := Text (JSON_text log)]>
      (<["usage_total_" ++ command := Text (Z_to_string (count + 1))]>
         (<["usage_total_all" := Text (Z_to_string (total + 1))]> (kv w)))
  /\ events o
     = [EvMemGet ("usage_total_" ++ command); EvMemGet "usage_total_all";
        EvMemGet ("usage_record_" ++ command);
        EvMemSet "usage_total_all" (Text (Z_to_string (total + 1)));
        EvMemSet ("usage_total_" ++ command) (Text (Z_to_string (count + 1)));
        EvMemSet ("usage_record_" ++ command) (Text (JSON_text log));
        EvCallback id [ArgNull; ArgNull; ArgNull]].
Proof.
  intros G1 G2 G3 Hparse Hitems S1 S2 S3. cbv zeta.
  destruct (updateStats_run command senderID id v items w G2 G3 Hparse Hitems S1 S2 S3)
    as (_ & Hkv & Hev).
  rewrite G1 in Hkv, Hev. split; assumption.
Qed.

(** X26.  One failed read makes [updateStats] start the command's counter
    over: when the read of the counter fails and the rest of the run goes
    well, the store then holds "1" for the command, whatever it held, and
    the callback is told of no error. *)
Theorem updateStats_starts_over_after_failed_read (command : string) (senderID : Val)
    (id : nat) (e : Err) (v : Val) (items : list Val) (w : World) :
  kv_get_error env (requests w) = Some e ->
  kv_get_error env (S (requests w)) = None ->
  kv_get_error env (S (S (requests w))) = None ->
  parse_record JSON_parse (kv w !! ("usage_record_" ++ command)) = Some v ->
  (if truthy v then v else VArr []) = VArr items ->
  kv_set_error env (S (S (S (requests w)))) = None ->
  kv_set_error env (S (S (S (S (requests w))))) = None ->
  kv_set_error env (S (S (S (S (S (requests w)))))) = None ->
  let o := updateStats env JSON_parse JSON_text toISOString command senderID
             (observe_errors id) w in
  kv (world o) !! ("usage_total_" ++ command) = Some (Text "1")
  /\ List.filter is_callback (events o) = [EvCallback id [ArgNull; ArgNull; ArgNull]].
Proof.
  intros G1 G2 G3 Hparse Hitems S1 S2 S3. cbv zeta.
  destruct (updateStats_run command senderID id v items w G2 G3 Hparse Hitems S1 S2 S3)
    as (_ & Hkv & Hev).
  rewrite G1 in Hkv, Hev. rewrite Hkv, Hev. split; [|reflexivity].
  rewrite lookup_insert_ne by (apply usage_keys_differ).
  rewrite lookup_insert_eq. reflexivity.
Qed.

(** X27.  [setStats] goes on after a write that fails: when the write of the
    overall counter fails and the other two succeed, the store holds the new
    counter and log of the command beside the old overall counter, and the
    callback gets the one error. *)
Theorem setStats_goes_on_after_failed_write (command : string) (stats : Stats) (id : nat)
    (e : Err) (w : World) :
  kv_set_error env (requests w) = Some e ->
  kv_set_error env (S (requests w)) = None ->
  kv_set_error env (S (S (requests w))) = None ->
  let o := setStats env JSON_text command stats (observe_errors id) w in
  kv (world o)
  = <["usage_record_" ++ command :=
        Text match s_record stats with
             | Some r => JSON_text r
             | None => "undefined"
             end]>
      (<["usage_total_" ++ command := Text (Z_to_string (s_count stats))]> (kv w))
  /\ List.filter is_callback (events o) = [EvCallback id [ArgError e; ArgNull; ArgNull]].
Proof.
  intros S1 S2 S3. cbv zeta.
  set (count := Text (Z_to_string (s_count stats))).
  set (log := Text match s_record stats with
                   | Some r => JSON_text r
                   | None => "undefined"
                   end).
  assert (E : setStats env JSON_text command stats (observe_errors id) w
              = {| thrown := None;
                   world :=
                     set_kv (insert ("usage_record_" ++ command) log)
                       (bump (set_kv (insert ("usage_total_" ++ command) count)
                                (bump (bump w))));
                   events :=
                     [EvMemSet "usage_total_all" (Text (Z_to_string (s_total stats)));
                      EvMemSet ("usage_total_" ++ command) count;
                      EvMemSet ("usage_record_" ++ command) log;
                      EvCallback id [ArgError e; ArgNull; ArgNull]] |}).
  { unfold setStats. rewrite mem_set_run, S1.
    rewrite mem_set_run. cbn [requests bump set_kv]. rewrite S2.
    unfold seq at 1, modify at 1. cbn [bind_out thrown world events].
    rewrite mem_set_run. cbn [requests bump set_kv]. rewrite S3.
    reflexivity. }
  rewrite E. split; reflexivity.
Qed.

End StatsFacts.


Lemma updateStats_counts_one_use_witness :
  (kv_get_error env_ok (requests world_usage) = None
   /\ kv_get_error env_ok (S (requests world_usage)) = None
   /\ kv_get_error env_ok (S (S (requests world_usage))) = None
   /\ parse_record (fun _ => None) (kv world_usage !! ("usage_record_" ++ "help"))
      = Some VNull
   /\ (if truthy VNull then VNull else VArr []) = VArr []
   /\ kv_set_error env_ok (S (S (S (requests world_usage)))) = None
   /\ kv_set_error env_ok (S (S (S (S (requests world_usage))))) = None
   /\ kv_set_error env_ok (S (S (S (S (S (requests world_usage)))))) = None)
  /\ List.filter is_write
       (events (updateStats env_ok (fun _ => None) js_to_string Z_to_string "help"
                  (VStr "U1") (observe_errors 1) world_usage))
     = [EvMemSet "usage_total_all" (Text "101");
        EvMemSet "usage_total_help" (Text "42");
        EvMemSet "usage_record_help" (Text "[object Object]")].
Proof.
  split; [repeat split; reflexivity|].
  destruct (updateStats_counts_one_use env_ok (fun _ => None) js_to_string Z_to_string
              "help" (VStr "U1") 1 VNull [] world_usage
              eq_refl eq_refl eq_refl eq_refl eq_refl eq_refl eq_refl eq_refl)
    as [_ Hev].
  rewrite Hev. reflexivity.
Defined.

Lemma updateStats_starts_over_after_failed_read_witness :
  (kv_get_error env_first_read_fails (requests world_usage) = Some "ETIMEDOUT"
   /\ kv_get_error env_first_read_fails (S (requests world_usage)) = None
   /\ kv_get_error env_first_read_fails (S (S (requests world_usage))) = None
   /\ parse_record (fun _ => None) (kv world_usage !! ("usage_record_" ++ "help"))
      = Some VNull
   /\ (if truthy VNull then VNull else VArr []) = VArr []
   /\ kv_set_error env_first_read_fails (S (S (S (requests world_usage)))) = None
   /\ kv_set_error env_first_read_fails (S (S (S (S (requests world_usage))))) = None
   /\ kv_set_error env_first_read_fails (S (S (S (S (S (requests world_usage)))))) = None)
  /\ kv world_usage !! "usage_total_help" = Some (Text "41")
  /\ kv (world (updateStats env_first_read_fails (fun _ => None) js_to_string Z_to_string
                  "help" (VStr "U1") (observe_errors 1) world_usage))
     !! ("usage_total_" ++ "help")
     = Some (Text "1").
Proof.
  split; [repeat split; reflexivity|]. split; [reflexivity|].
  apply (updateStats_starts_over_after_failed_read env_first_read_fails (fun _ => None)
           js_to_string Z_to_string "help" (VStr "U1") 1 "ETIMEDOUT" VNull []
           world_usage eq_refl eq_refl eq_refl eq_refl eq_refl eq_refl eq_refl eq_refl).
Defined.

Lemma setStats_goes_on_after_failed_write_witness :
  (kv_set_error env_first_write_fails (requests world_usage) = Some "SERVER_ERROR"
   /\ kv_set_error env_first_write_fails (S (requests world_usage)) = None
   /\ kv_set_error env_first_write_fails (S (S (requests world_usage))) = None)
  /\ List.filter is_callback
       (events (setStats env_first_write_fails js_to_string "help"
                  {| s_count := 42; s_total := 101; s_record := Some (VArr []) |}
                  (observe_errors 1) world_usage))
     = [EvCallback 1 [ArgError "SERVER_ERROR"; ArgNull; ArgNull]].
Proof.
  split; [repeat split; reflexivity|].
  apply (setStats_goes_on_after_failed_write env_first_write_fails js_to_string "help"
           {| s_count := 42; s_total := 101; s_record := Some (VArr []) |} 1
           "SERVER_ERROR" world_usage eq_refl eq_refl eq_refl).
Defined.

(** ** Starting the statistics over *)

Section ResetFacts.

Variable env : Env.
Variable JSON_parse : string -> option Val.
Variable JSON_text : Val -> string.

Hypothesis writes_ok : forall n, kv_set_error env n = None.

Lemma setStats_zero (command : string) (w : World) :
  let o := setStats env JSON_text command
             {| s_count := 0; s_total := 0; s_record := Some (VArr []) |}
             (fun _ _ _ => skip) w in
  thrown o = None
  /\ kv (world o)
     = <["usage_record_" ++ command := Text (JSON_text (VArr []))]>
         (<["usage_total_" ++ command := Text "0"]>
            (<["usage_total_all" := Text "0"]> (kv w))).
Proof.
  cbv zeta.
  assert (E : setStats env JSON_text command
                {| s_count := 0; s_total := 0; s_record := Some (VArr []) |}
                (fun _ _ _ => skip) w
              = {| thrown := None;
                   world :=
                     set_kv (insert ("usage_record_" ++ command)
                               (Text (JSON_text (VArr []))))
                       (bump (set_kv (insert ("usage_total_" ++ command) (Text "0"))
                                (bump (set_kv (insert "usage_total_all" (Text "0"))
                                         (bump w)))));
                   events :=
                     [EvMemSet "usage_total_all" (Text "0");
                      EvMemSet ("usage_total_" ++ command) (Text "0");
                      EvMemSet ("usage_record_" ++ command)
                        (Text (JSON_text (VArr [])))] |}).
  { unfold setStats. cbn [s_count s_total s_record].
    rewrite (mem_set_run env), writes_ok.
    unfold seq at 1, modify at 1. cbn [bind_out thrown world events].
    rewrite (mem_set_run env), writes_ok.
    unfold seq at 1, modify at 1. cbn [bind_out thrown world events].
    rewrite (mem_set_run env), writes_ok.
    reflexivity. }
  rewrite E. split; reflexivity.
Qed.

(** A counter that holds "0" still does after [setStats] with zeros, and so
    do the counters it writes. *)
Lemma setStats_zero_keeps (command x : string) (w : World) :
  let o := setStats env JSON_text command
             {| s_count := 0; s_total := 0; s_record := Some (VArr []) |}
             (fun _ _ _ => skip) w in
  (kv w !! ("usage_total_" ++ x) = Some (Text "0") \/ x = command \/ x = "all") ->
  kv (world o) !! ("usage_total_" ++ x) = Some (Text "0").
Proof.
  cbv zeta. intros H. destruct (setStats_zero command w) as [_ ->].
  rewrite lookup_insert_ne by (apply usage_keys_differ).
  destruct (decide ("usage_total_" ++ command = "usage_total_" ++ x)) as [E | E].
  { rewrite E. apply lookup_insert_eq. }
  rewrite lookup_insert_ne by exact E.
  destruct (decide ("usage_total_all" = "usage_total_" ++ x)) as [E' | E'].
  { rewrite E'. apply lookup_insert_eq. }
  rewrite lookup_insert_ne by exact E'.
  destruct H as [H | [-> | ->]]; [exact H | congruence | exfalso; apply E'; reflexivity].
Qed.

Lemma resetStats_loop_run (co : Obj) (keys : list string) :
  obj_get "hasOwnProperty" co = None ->
  forall w,
    let o := resetStats_loop env JSON_text co keys w in
    thrown o = None
    /\ forall x,
         (kv w !! ("usage_total_" ++ x) = Some (Text "0")
          \/ In x keys \/ (x = "all" /\ keys <> [])) ->
         kv (world o) !! ("usage_total_" ++ x) = Some (Text "0").
Proof.
  intros Hown. induction keys as [|c keys IH]; intros w; cbv zeta.
  - split; [reflexivity|]. intros x [H | [[] | [_ H]]]; [exact H | congruence].
  - cbn [resetStats_loop]. rewrite Hown. unfold seq.
    destruct (setStats_zero c w) as [Ht _].
    pose proof (fun x => setStats_zero_keeps c x w) as Hkeep. cbv zeta in Hkeep.
    unfold bind_out. rewrite Ht.
    destruct (IH (world (setStats env JSON_text c
                           {| s_count := 0; s_total := 0; s_record := Some (VArr []) |}
                           (fun _ _ _ => skip) w))) as [Ht' Hkv'].
    unfold out_app. cbn [thrown world events]. split; [exact Ht'|].
    intros x H. apply Hkv'.
    destruct H as [H | [[<- | H] | [-> _]]].
    + left. apply Hkeep. now left.
    + left. apply Hkeep. right. now left.
    + right. now left.
    + left. apply Hkeep. right. now right.
Qed.

(** X28.  [resetStats] and then [getStats], with a store that answers and a
    table of commands that has no command called [hasOwnProperty]: for every
    command of the table the callback gets no error, a count of 0 and a
    total of 0. *)
Theorem resetStats_then_getStats (co : Obj) (c : string) (id : nat) (w : World) :
  (forall n, kv_get_error env n = None) ->
  obj_get "hasOwnProperty" co = None ->
  In c (obj_keys co) ->
  let o := resetStats env JSON_text co w in
  thrown o = None
  /\ getStats env JSON_parse c false (observe_stats id) (world o)
     = {| thrown := None; world := bump (bump (world o));
          events :=
            [EvMemGet ("usage_total_" ++ c); EvMemGet "usage_total_all";
             EvCallback id [ArgNull; ArgInfo [("count", VNum 0); ("total", VNum 0)]]] |}.
Proof.
  intros Hreads Hown Hc. cbv zeta. unfold resetStats.
  destruct (resetStats_loop_run co (for_in_keys co) Hown w) as [Ht Hkv]. cbv zeta in Hkv.
  split; [exact Ht|].
  assert (Hin : In c (for_in_keys co)) by (apply in_for_in_order, Hc).
  assert (H1 := Hkv c (or_intror (or_introl Hin))).
  assert (H2 : kv (world (resetStats_loop env JSON_text co (for_in_keys co) w))
               !! "usage_total_all" = Some (Text "0")).
  { apply (Hkv "all"). right. right. split; [reflexivity|].
    intros E. rewrite E in Hin. destruct Hin. }
  unfold getStats. rewrite !(mem_get_run env), !Hreads. cbn [kv bump].
  rewrite (mem_get_run env), Hreads. cbn [kv bump]. rewrite H1, H2. reflexivity.
Qed.

End ResetFacts.

Lemma resetStats_then_getStats_witness :
  ((forall n, kv_set_error env_ok n = None)
   /\ (forall n, kv_get_error env_ok n = None)
   /\ obj_get "hasOwnProperty" [("help", VObj []); ("ban", VObj [])] = None
   /\ In "ban" (obj_keys [("help", VObj []); ("ban", VObj [])]))
  /\ thrown (resetStats env_ok js_to_string [("help", VObj []); ("ban", VObj [])]
               world_usage)
     = None
  /\ getStats env_ok (fun _ => None) "ban" false (observe_stats 1)
       (world (resetStats env_ok js_to_string [("help", VObj []); ("ban", VObj [])]
                 world_usage))
     = {| thrown := None;
          world :=
            bump (bump (world (resetStats env_ok js_to_string
                                 [("help", VObj []); ("ban", VObj [])] world_usage)));
          events :=
            [EvMemGet ("usage_total_" ++ "ban"); EvMemGet "usage_total_all";
             EvCallback 1 [ArgNull; ArgInfo [("count", VNum 0); ("total", VNum 0)]]] |}.
Proof.
  assert (H1 : forall n, kv_set_error env_ok n = None) by (intros n; reflexivity).
  assert (H2 : forall n, kv_get_error env_ok n = None) by (intros n; reflexivity).
  assert (H4 : In "ban" (obj_keys [("help", VObj []); ("ban", VObj [])]))
    by (right; left; reflexivity).
  split; [repeat split; try reflexivity; assumption|].
  apply (resetStats_then_getStats env_ok (fun _ => None) js_to_string H1
           [("help", VObj []); ("ban", VObj [])] "ban" 1 world_usage H2 eq_refl H4).
Defined.

(** ** Deleting a pin *)

Lemma obj_get_delete_ne (k k' : string) (o : Obj) :
  k' <> k -> obj_get k' (obj_delete k o) = obj_get k' o.
Proof.
  intros Hne. induction o as [|[k0 x] o IH]; [reflexivity|]. cbn [obj_delete obj_get].
  destruct (String.eqb k k0) eqn:Hk.
  - apply String.eqb_eq in Hk. subst k0.
    apply String.eqb_neq in Hne. now rewrite Hne.
  - cbn [obj_get]. now rewrite IH.
Qed.

(** X29.  [deletePin] of a pin the group has, on a thread that is not
    locked: in the record held that pin is gone and every other pin is as it
    was; nothing is sent or written yet, and one timer is queued, for the
    closure that will answer. *)
Theorem deletePin_removes_only_that_pin (env : Env) (pin : string) (groupInfo : nat)
    (threadId : string) (after : nat) (info pinned : Obj) (w : World) :
  heap w !! groupInfo = Some info ->
  obj_read "pinned" info = VObj pinned ->
  pin <> EmptyString ->
  has_truthy pin pinned = true ->
  includes (obj_read "threadId" info) (lockedThreads w) = false ->
  let o := deletePin env pin groupInfo threadId after w in
  thrown o = None
  /\ events o = []
  /\ kv (world o) = kv w
  /\ timers (world o)
     = (timers w ++ [{| t_info := groupInfo; t_callback := CbUser after |}])%list
  /\ exists pinned',
       obj_read "pinned" (deref (world o) groupInfo) = VObj pinned'
       /\ obj_get pin pinned' = None
       /\ forall p, p <> pin -> obj_get p pinned' = obj_get p pinned.
Proof.
  intros Hheap Hp Hpin Hhas Hlock. cbv zeta.
  assert (Hd : deref w groupInfo = info) by (unfold deref; now rewrite Hheap).
  set (info' := obj_set "pinned" (VObj (obj_delete pin pinned)) info).
  assert (Ht : obj_read "threadId" info' = obj_read "threadId" info).
  { unfold info'. apply obj_read_set_ne. discriminate. }
  assert (E : deletePin env pin groupInfo threadId after w
              = {| thrown := None;
                   world :=
                     {| kv := kv w;
                        lockedThreads := lockedThreads w ++ [obj_read "threadId" info];
                        heap := <[groupInfo := info']> (<[groupInfo := info']> (heap w));
                        timers := timers w
                                  ++ [{| t_info := groupInfo; t_callback := CbUser after |}];
                        requests := requests w |};
                   events := [] |}).
  { unfold deletePin, with_info. apply String.eqb_neq in Hpin. rewrite Hpin, Hd, Hp.
    cbn [as_obj]. rewrite Hhas. fold info'.
    unfold seq, modify. cbn [bind_out thrown world events].
    rewrite setGroupProperty_unlocked.
    - rewrite deref_insert_eq.
      replace (obj_set "pinned" (VObj (obj_delete pin pinned)) info') with info'
        by (unfold info'; now rewrite obj_set_twice).
      rewrite Ht. reflexivity.
    - rewrite deref_insert_eq, Ht. exact Hlock. }
  rewrite E. cbn [thrown world events kv timers]. repeat split.
  exists (obj_delete pin pinned). split; [|split].
  - unfold deref. cbn [heap]. rewrite lookup_insert_eq. cbn [default].
    unfold info'. apply obj_read_set_eq.
  - apply obj_get_delete.
  - intros p Hne. now apply obj_get_delete_ne.
Qed.

Lemma deletePin_removes_only_that_pin_witness :
  (heap world_pins !! 0%nat = Some demo_pinned_record
   /\ obj_read "pinned" demo_pinned_record
      = VObj [("rules", VStr "Be nice"); ("intro", VStr "Hello")]
   /\ "rules" <> EmptyString
   /\ has_truthy "rules" [("rules", VStr "Be nice"); ("intro", VStr "Hello")] = true
   /\ includes (obj_read "threadId" demo_pinned_record) (lockedThreads world_pins) = false)
  /\ thrown (deletePin env_ok "rules" 0 "T1" 9 world_pins) = None
  /\ events (deletePin env_ok "rules" 0 "T1" 9 world_pins) = []
  /\ kv (world (deletePin env_ok "rules" 0 "T1" 9 world_pins)) = kv world_pins
  /\ timers (world (deletePin env_ok "rules" 0 "T1" 9 world_pins))
     = (timers world_pins ++ [{| t_info := 0%nat; t_callback := CbUser 9 |}])%list
  /\ exists pinned',
       obj_read "pinned" (deref (world (deletePin env_ok "rules" 0 "T1" 9 world_pins)) 0%nat)
       = VObj pinned'
       /\ obj_get "rules" pinned' = None
       /\ forall p, p <> "rules" ->
                    obj_get p pinned'
                    = obj_get p [("rules", VStr "Be nice"); ("intro", VStr "Hello")].
Proof.
  assert (H3 : "rules" <> EmptyString) by discriminate.
  split; [repeat split; try reflexivity; exact H3|].
  apply (deletePin_removes_only_that_pin env_ok "rules" 0 "T1" 9 demo_pinned_record
           [("rules", VStr "Be nice"); ("intro", VStr "Hello")] world_pins
           eq_refl eq_refl H3 eq_refl eq_refl).
Defined.
